(** * Molecular docking evaluator: normalisation, composite scoring, ranking

    A shallow embedding of the scoring core of the repository
    ([src/config.py], [src/data/processor.py], [src/core/metrics.py],
    [src/core/scorer.py], [src/core/ranker.py]) and the properties its
    specification states about it, followed by the code around the core
    ([src/utils/helpers.py], [src/data/reader.py], [src/data/writer.py],
    [src/ui/cli.py], [src/ui/gui/main_window.py]) and further properties of
    the whole.

    Numbers.  The Python code computes with IEEE doubles.  Here a finite
    double is idealised as a real number (arithmetic is exact, there is no
    rounding, overflow or infinity) and the one non-finite value the code
    produces and tests for, NaN (pandas' "absent"), is kept: a float is an
    [fval], [None] standing for NaN.  NaN propagates through arithmetic and
    every comparison with NaN is false, as in Python. *)

From Stdlib Require Import Reals Lra Lia List String Ascii Bool ZArith.
From Stdlib Require Import Permutation Sorted.
Import ListNotations.

Open Scope string_scope.
Open Scope R_scope.

(** ** Floats *)

Definition fval := option R.

Definition NaN : fval := None.

Definition Reqb (x y : R) : bool := if Req_dec_T x y then true else false.
Definition Rltb (x y : R) : bool := if Rlt_dec x y then true else false.

Definition notna (v : fval) : bool :=
  match v with Some _ => true | None => false end.

Definition fadd (x y : fval) : fval :=
  match x, y with
  | Some a, Some b => Some (a + b)
  | _, _ => None
  end.

Definition fsub (x y : fval) : fval :=
  match x, y with
  | Some a, Some b => Some (a - b)
  | _, _ => None
  end.

Definition fmul (x y : fval) : fval :=
  match x, y with
  | Some a, Some b => Some (a * b)
  | _, _ => None
  end.

(** Division, used only where the code has excluded a zero divisor. *)
Definition fdiv (x y : fval) : fval :=
  match x, y with
  | Some a, Some b => Some (a / b)
  | _, _ => None
  end.

(** Python's [<] and [==] on floats: false as soon as one side is NaN. *)
Definition flt (x y : fval) : bool :=
  match x, y with
  | Some a, Some b => Rltb a b
  | _, _ => false
  end.

Definition feq (x y : fval) : bool :=
  match x, y with
  | Some a, Some b => Reqb a b
  | _, _ => false
  end.

(** [Series.fillna]. *)
Definition fillna (d : R) (v : fval) : fval :=
  match v with Some x => Some x | None => Some d end.

Definition in01 (v : fval) : Prop :=
  exists x, v = Some x /\ 0 <= x <= 1.

(** ** Python dictionaries

    A [dict] keeps its keys in insertion order, and assigning to a key that
    is already there replaces the value without moving the key.  The same
    structure models the labelled values of a pandas [Series]. *)

Class Key (K : Type) := { keqb : K -> K -> bool }.

(** The keys used are strings and tuples of integers, on which [==] is
    equality. *)
Class KeyLaws (K : Type) `{Key K} :=
  keqb_eq : forall a b : K, keqb a b = true <-> a = b.

#[export] Instance string_Key : Key string := {| keqb := String.eqb |}.

Definition conf_id := (Z * Z)%type.

Definition conf_id_eqb (a b : conf_id) : bool :=
  (Z.eqb (fst a) (fst b) && Z.eqb (snd a) (snd b))%bool.

#[export] Instance conf_id_Key : Key conf_id := {| keqb := conf_id_eqb |}.

Module Dict.
Section Dict.
Context {K V : Type} `{Key K}.

Definition t := list (K * V).

Definition empty : t := [].

Fixpoint get (k : K) (d : t) : option V :=
  match d with
  | [] => None
  | (k', v) :: d' => if keqb k k' then Some v else get k d'
  end.

Definition mem (k : K) (d : t) : bool :=
  match get k d with Some _ => true | None => false end.

(** [d[k] = v] *)
Fixpoint set (k : K) (v : V) (d : t) : t :=
  match d with
  | [] => [(k, v)]
  | (k', v') :: d' =>
      if keqb k k' then (k', v) :: d' else (k', v') :: set k v d'
  end.

Definition keys (d : t) : list K := map fst d.
Definition items (d : t) : list (K * V) := d.
End Dict.
Arguments t : clear implicits.
End Dict.

(** The distinct elements of a list, in order of first appearance. *)
Fixpoint unique {K : Type} `{Key K} (l : list K) : list K :=
  match l with
  | [] => []
  | x :: l' => x :: filter (fun y => negb (keqb y x)) (unique l')
  end.

(** ** [src/config.py]: the metric catalogue *)

Definition REQUIRED_METRICS : list string :=
  [ "r_i_docking_score"; "r_i_glide_gscore";
    "r_i_glide_emodel"; "r_i_glide_energy" ].

Definition OPTIONAL_METRICS : list string :=
  [ "r_i_glide_lipo"; "r_i_glide_hbond"; "r_i_glide_metal";
    "r_i_glide_rewards"; "r_i_glide_evdw"; "r_i_glide_ecoul";
    "r_i_glide_erotb"; "r_i_glide_esite"; "r_i_glide_einternal" ].

Definition DOCKING_METRICS : list string :=
  [ "r_i_docking_score"; "r_i_glide_gscore" ].

Definition ENERGY_METRICS : list string :=
  [ "r_i_glide_emodel"; "r_i_glide_energy" ].

Definition str_in (s : string) (l : list string) : bool :=
  existsb (String.eqb s) l.

(** ** Rows of the table

    A row of the DataFrame (the [Series] that [iterrows] yields): the
    identity columns, the protein label, and the float columns by name, raw
    metrics and [normalized_*] companions alike. *)

Record Row := mkRow {
  title : Z;
  lignum : Z;
  protein_name : string;
  cols : Dict.t string fval
}.

(** The outcome of code that can raise. *)
Inductive exn : Type := ZeroDivisionError | ValueError.

Inductive result (A : Type) : Type :=
| Ok (a : A)
| Raise (e : exn).
Arguments Ok {A} a.
Arguments Raise {A} e.

Definition bind {A B : Type} (r : result A) (k : A -> result B) : result B :=
  match r with
  | Ok a => k a
  | Raise e => Raise e
  end.

Notation "x <- r ;; k" := (bind r (fun x => k))
  (at level 61, r at next level, right associativity).

(** A [for] loop that collects one result per element, and one that threads
    a state; both stop at the first exception. *)
Fixpoint mapM {A B : Type} (f : A -> result B) (l : list A) : result (list B) :=
  match l with
  | [] => Ok []
  | x :: l' => y <- f x ;; ys <- mapM f l' ;; Ok (y :: ys)
  end.

Fixpoint foldM {A S : Type} (f : S -> A -> result S) (l : list A) (s : S)
    : result S :=
  match l with
  | [] => Ok s
  | x :: l' => s' <- f s x ;; foldM f l' s'
  end.

(** ** Python's [min] and [list.sort] with a key

    [min] keeps the first element and replaces it whenever a later one is
    strictly smaller.  [list.sort] is stable and compares with [<] only; it
    is modelled by the stable insertion sort, which is the same function
    whenever [<] orders the keys totally (no NaN among them). *)

Section Ordering.
Context {A K : Type} (lt : K -> K -> bool) (key : A -> K).

Fixpoint min_from (best : A) (l : list A) : A :=
  match l with
  | [] => best
  | x :: l' => if lt (key x) (key best) then min_from x l' else min_from best l'
  end.

Definition py_min (l : list A) : result A :=
  match l with
  | [] => Raise ValueError
  | x :: l' => Ok (min_from x l')
  end.

Fixpoint insert (x : A) (l : list A) : list A :=
  match l with
  | [] => [x]
  | y :: l' => if lt (key y) (key x) then y :: insert x l' else x :: y :: l'
  end.

Definition sort_by (l : list A) : list A := fold_right insert [] l.
End Ordering.

(** A float that is a number, not NaN. *)
Definition finite (v : fval) : Prop := exists t, v = Some t.

(** Comparing two elements by a float key that is a number on both: [a] is
    strictly smaller than [b], or at most [b]. *)
Definition below {A : Type} (key : A -> fval) (a b : A) : Prop :=
  exists ta tb, key a = Some ta /\ key b = Some tb /\ ta < tb.

Definition not_above {A : Type} (key : A -> fval) (a b : A) : Prop :=
  exists ta tb, key a = Some ta /\ key b = Some tb /\ ta <= tb.

(** [a] occurs before [b] in a list. *)
Definition before {A : Type} (l : list A) (a b : A) : Prop :=
  exists l1 l2 l3, (l = l1 ++ a :: l2 ++ b :: l3)%list.

(** ** [src/core/metrics.py]: MetricsProcessor *)

Module MetricsProcessor.

Definition get_normalized_column_name (metric : string) : string :=
  "normalized_" ++ metric.

Definition get_normalized_value (row : Row) (metric : string) : fval :=
  match Dict.get (get_normalized_column_name metric) (cols row) with
  | Some v => v
  | None => Some 1
  end.

(** [weights.get(metric, 1.0)] *)
Definition weight_of (weights : Dict.t string R) (metric : string) : R :=
  match Dict.get metric weights with
  | Some w => w
  | None => 1
  end.

Definition valid_metrics (row : Row) (metrics : list string) : list string :=
  filter (fun m => Dict.mem (get_normalized_column_name m) (cols row)) metrics.

(** One turn of the accumulation loop, on [(weighted_sum, total_weight)]. *)
Definition accumulate (row : Row) (weights : Dict.t string R)
    (acc : fval * R) (metric : string) : fval * R :=
  let weight := weight_of weights metric in
  let normalized_value := get_normalized_value row metric in
  (fadd (fst acc) (fmul (Some weight) normalized_value), snd acc + weight).

Definition calculate_weighted_score (row : Row) (metrics : list string)
    (weights : Dict.t string R) : fval :=
  match valid_metrics row metrics with
  | [] => Some 1
  | vm =>
      let '(weighted_sum, total_weight) :=
        fold_left (accumulate row weights) vm (Some 0, 0) in
      if Reqb total_weight 0 then Some 1
      else fdiv weighted_sum (Some total_weight)
  end.

Definition calculate_docking_score (row : Row) (weights : Dict.t string R) : fval :=
  calculate_weighted_score row DOCKING_METRICS weights.

Definition calculate_energy_score (row : Row) (weights : Dict.t string R) : fval :=
  calculate_weighted_score row ENERGY_METRICS weights.

Definition optional_of (selected_metrics : list string) : list string :=
  filter (fun m => str_in m OPTIONAL_METRICS) selected_metrics.

Definition calculate_optional_score (row : Row) (selected_metrics : list string)
    (weights : Dict.t string R) : fval * bool :=
  match optional_of selected_metrics with
  | [] => (Some 0, false)
  | optional_metrics => (calculate_weighted_score row optional_metrics weights, true)
  end.

(** The category weights are Python floats: dividing by a zero sum raises. *)
Definition calculate_composite_score (row : Row) (selected_metrics : list string)
    (weights : Dict.t string R) (docking_weight energy_weight optional_weight : R)
    : result (fval * fval * fval) :=
  let docking_score := calculate_docking_score row weights in
  let energy_score := calculate_energy_score row weights in
  let '(optional_score, has_optional) :=
    calculate_optional_score row selected_metrics weights in
  if has_optional then
    Ok (fadd (fadd (fmul (Some docking_weight) docking_score)
                   (fmul (Some energy_weight) energy_score))
             (fmul (Some optional_weight) optional_score),
        docking_score, energy_score)
  else
    if Reqb (docking_weight + energy_weight) 0 then Raise ZeroDivisionError
    else
      let adjusted_docking_weight := docking_weight / (docking_weight + energy_weight) in
      let adjusted_energy_weight := energy_weight / (docking_weight + energy_weight) in
      Ok (fadd (fmul (Some adjusted_docking_weight) docking_score)
               (fmul (Some adjusted_energy_weight) energy_score),
          docking_score, energy_score).

(** The category score as the specification words it: the weighted mean of
    the normalised values over the metrics of the subset that have a
    normalised column in the row. *)
Fixpoint sum_weighted (row : Row) (weights : Dict.t string R)
    (ms : list string) : fval :=
  match ms with
  | [] => Some 0
  | m :: ms' =>
      fadd (fmul (Some (weight_of weights m)) (get_normalized_value row m))
           (sum_weighted row weights ms')
  end.

Fixpoint sum_weights (weights : Dict.t string R) (ms : list string) : R :=
  match ms with
  | [] => 0
  | m :: ms' => weight_of weights m + sum_weights weights ms'
  end.

Definition category_score_spec (row : Row) (S : list string)
    (weights : Dict.t string R) : fval :=
  let present := valid_metrics row S in
  match present with
  | [] => Some 1
  | _ =>
      if Reqb (sum_weights weights present) 0 then Some 1
      else fdiv (sum_weighted row weights present)
                (Some (sum_weights weights present))
  end.

End MetricsProcessor.

(** Every normalised value of the row lies in [0,1]. *)
Definition normalized_in01 (row : Row) : Prop :=
  forall m v,
    Dict.get (MetricsProcessor.get_normalized_column_name m) (cols row) = Some v ->
    in01 v.

(** No metric has a negative weight. *)
Definition weights_nonneg (weights : Dict.t string R) : Prop :=
  forall m w, Dict.get m weights = Some w -> 0 <= w.

(** ** [src/data/processor.py]: DataProcessor *)

Module DataProcessor.

(** *** The pandas reductions the normaliser uses

    [Series.dropna], [min], [max], [mean] and [std] (the sample standard
    deviation, [ddof = 1], which pandas leaves NaN for fewer than two
    values). *)

Fixpoint dropna (values : list fval) : list R :=
  match values with
  | [] => []
  | Some x :: vs => x :: dropna vs
  | None :: vs => dropna vs
  end.

Definition series_min (x : R) (xs : list R) : R := fold_left Rmin xs x.
Definition series_max (x : R) (xs : list R) : R := fold_left Rmax xs x.

Definition Rsum (xs : list R) : R := fold_right Rplus 0 xs.

Definition series_mean (xs : list R) : R := Rsum xs / INR (List.length xs).

Definition series_std (xs : list R) : fval :=
  match xs with
  | [] | [_] => NaN
  | _ =>
      let m := series_mean xs in
      Some (sqrt (Rsum (map (fun x => (x - m) * (x - m)) xs)
                  / (INR (List.length xs) - 1)))
  end.

(** The sigmoid of the z-score branch, [1 / (1 + np.exp(-z))]. *)
Definition logistic (z : R) : R := 1 / (1 + exp (- z)).

(** [[0.0 if pd.notna(v) else 1.0 for v in values]] *)
Definition degenerate (values : list fval) : list fval :=
  map (fun v => if notna v then Some 0 else Some 1) values.

Definition min_max (values : list fval) (v0 : R) (vs : list R) : list fval :=
  let min_val := series_min v0 vs in
  let max_val := series_max v0 vs in
  if Reqb max_val min_val then degenerate values
  else
    let normalized :=
      map (fun v => fdiv (fsub v (Some min_val)) (Some (max_val - min_val))) values in
    map (fillna 1) normalized.

Definition z_score (values : list fval) (v0 : R) (vs : list R) : list fval :=
  let mean := series_mean (v0 :: vs) in
  let std := series_std (v0 :: vs) in
  if feq std (Some 0) then degenerate values
  else
    let normalized := map (fun v => fdiv (fsub v (Some mean)) std) values in
    let normalized := map (fillna 3) normalized in
    map (option_map logistic) normalized.

(** An unknown method name logs a warning and calls [normalize_metric] again
    with ['min-max'], which recomputes the same valid values and takes the
    min-max branch. *)
Definition normalize_metric (values : list fval) (method : string) : list fval :=
  match dropna values with
  | [] => map (fun _ => Some 1) values
  | v0 :: vs =>
      if String.eqb method "min-max" then min_max values v0 vs
      else if String.eqb method "z-score" then z_score values v0 vs
      else min_max values v0 vs
  end.

(** *** The table

    A DataFrame is the list of its rows, every row carrying the same column
    labels; its columns are read off the first row. *)

Definition DataFrame := list Row.

Definition has_column (c : string) (data : DataFrame) : bool :=
  match data with
  | [] => false
  | r :: _ => Dict.mem c (cols r)
  end.

(** [row[c]] for a float column; a label that is not there reads as NaN. *)
Definition cell (c : string) (r : Row) : fval :=
  match Dict.get c (cols r) with
  | Some v => v
  | None => NaN
  end.

Definition set_cell (c : string) (v : fval) (r : Row) : Row :=
  mkRow (title r) (lignum r) (protein_name r) (Dict.set c v (cols r)).

(** The keys of [data.groupby('protein_name')].  pandas hands the groups out
    in sorted key order; the groups are disjoint and each one writes its own
    rows only, so the table built below does not depend on that order and
    the keys are listed here in order of first appearance. *)
Definition group_keys (data : DataFrame) : list string :=
  unique (map protein_name data).

Definition group (protein : string) (data : DataFrame) : DataFrame :=
  filter (fun r => String.eqb (protein_name r) protein) data.

(** [normalized_data.loc[idx, column] = values], [idx] being the index of
    the rows of [protein]: those rows take the values in order; assigning to
    a column that does not exist yet creates it, NaN on every other row. *)
Fixpoint loc_assign (protein column : string) (values : list fval)
    (data : DataFrame) : DataFrame :=
  match data with
  | [] => []
  | r :: data' =>
      if String.eqb (protein_name r) protein then
        match values with
        | v :: values' =>
            set_cell column v r :: loc_assign protein column values' data'
        | [] => r :: loc_assign protein column [] data'
        end
      else
        (if Dict.mem column (cols r) then r else set_cell column NaN r)
          :: loc_assign protein column values data'
  end.

(** The body of the inner loop, for one protein group of one metric. *)
Definition normalize_group (data : DataFrame) (method metric : string)
    (normalized_data : DataFrame) (protein : string) : DataFrame :=
  let values := map (cell metric) (group protein data) in
  if existsb notna values then
    let normalized_values := normalize_metric values method in
    let normalized_column := "normalized_" ++ metric in
    loc_assign protein normalized_column normalized_values normalized_data
  else normalized_data.

(** The body of the outer loop, for one metric. *)
Definition normalize_column (data : DataFrame) (method : string)
    (normalized_data : DataFrame) (metric : string) : DataFrame :=
  if has_column metric data then
    fold_left (normalize_group data method metric) (group_keys data) normalized_data
  else normalized_data.

Definition normalize_data (data : DataFrame) (method : string) : DataFrame :=
  match data with
  | [] => []
  | _ =>
      let metrics_to_normalize := (REQUIRED_METRICS ++ OPTIONAL_METRICS)%list in
      fold_left (normalize_column data method) metrics_to_normalize data
  end.

End DataProcessor.

(** The normalised values as the specification words them. *)

(** Min-max: [(value - min) / (max - min)], 0.0 for every present value of a
    group without spread, 1.0 for an absent value. *)
Definition min_max_value (min_val max_val : R) (v : fval) : fval :=
  match v with
  | None => Some 1
  | Some x =>
      if Reqb max_val min_val then Some 0
      else Some ((x - min_val) / (max_val - min_val))
  end.

(** Z-score with a non-zero deviation: the logistic of
    [(value - mean) / std], and of 3.0 for an absent value. *)
Definition z_score_value (mean std : R) (v : fval) : fval :=
  match v with
  | None => Some (DataProcessor.logistic 3)
  | Some x => Some (DataProcessor.logistic ((x - mean) / std))
  end.

(** A value strictly between 0 and 1. *)
Definition strictly01 (v : fval) : Prop :=
  exists x, v = Some x /\ 0 < x < 1.

(** ** [src/config.py]: Config

    Of the global configuration object only the float entries are modelled
    (the category weights of the ["scoring"] section are the ones the core
    reads).  [get] answers [None] for a section or key that is not there. *)

Module Config.

Definition t := Dict.t string (Dict.t string R).

Definition DEFAULT_CONFIG : t :=
  [ ("scoring",
     [ ("docking_weight", 4 / 10);
       ("energy_weight", 4 / 10);
       ("optional_weight", 2 / 10) ]) ].

Definition get (self : t) (section key : string) : option R :=
  match Dict.get section self with
  | None => None
  | Some values => Dict.get key values
  end.

Definition set (self : t) (section key : string) (value : R) : t :=
  let self := if Dict.mem section self then self else Dict.set section [] self in
  match Dict.get section self with
  | Some values => Dict.set section (Dict.set key value values) self
  | None => self
  end.

End Config.

(** [x or d] on a float or [None]: [None] and [0.0] are falsy. *)
Definition py_or (x : option R) (d : R) : R :=
  match x with
  | Some r => if Reqb r 0 then d else r
  | None => d
  end.

(** The fallback as the specification words it: a configured value that is
    unset or 0.0 is replaced by the default, any other one is used as is. *)
Definition falls_back (configured : option R) (default used : R) : Prop :=
  match configured with
  | None => used = default
  | Some r => (r = 0 -> used = default) /\ (r <> 0 -> used = r)
  end.

(** ** [src/core/scorer.py]: Scorer *)

Module Scorer.

Import DataProcessor.

Record Scores := mkScores {
  total_score : fval;
  docking_score : fval;
  energy_score : fval;
  raw_data : Row
}.

Definition add_scores (row : Row) (s : fval * fval * fval) : Row :=
  let '(total, docking, energy) := s in
  set_cell "energy_score" energy
    (set_cell "docking_score" docking
       (set_cell "total_score" total row)).

Definition score_data (config : Config.t) (data : DataFrame)
    (selected_metrics : list string) (weights : Dict.t string R)
    : result DataFrame :=
  match data with
  | [] => Ok []
  | _ =>
      let docking_weight := py_or (Config.get config "scoring" "docking_weight") (4 / 10) in
      let energy_weight := py_or (Config.get config "scoring" "energy_weight") (4 / 10) in
      let optional_weight := py_or (Config.get config "scoring" "optional_weight") (2 / 10) in
      scores <- mapM (fun row =>
                  MetricsProcessor.calculate_composite_score
                    row selected_metrics weights
                    docking_weight energy_weight optional_weight) data ;;
      Ok (map (fun rs => add_scores (fst rs) (snd rs)) (combine data scores))
  end.

Definition Pairs := Dict.t conf_id (Dict.t string Scores).

(** The body of the loop over the rows. *)
Definition score_pair (selected_metrics : list string) (weights : Dict.t string R)
    (docking_weight energy_weight optional_weight : R)
    (conformations : Pairs) (row : Row) : result Pairs :=
  let conf : conf_id := (title row, lignum row) in
  let protein := protein_name row in
  let conformations :=
    if Dict.mem conf conformations then conformations
    else Dict.set conf Dict.empty conformations in
  s <- MetricsProcessor.calculate_composite_score
         row selected_metrics weights
         docking_weight energy_weight optional_weight ;;
  let '(total, docking, energy) := s in
  let proteins :=
    match Dict.get conf conformations with
    | Some d => d
    | None => Dict.empty
    end in
  Ok (Dict.set conf
        (Dict.set protein (mkScores total docking energy row) proteins)
        conformations).

Definition score_conformation_protein_pairs (config : Config.t) (data : DataFrame)
    (selected_metrics : list string) (weights : Dict.t string R)
    : result Pairs :=
  match data with
  | [] => Ok Dict.empty
  | _ =>
      let docking_weight := py_or (Config.get config "scoring" "docking_weight") (4 / 10) in
      let energy_weight := py_or (Config.get config "scoring" "energy_weight") (4 / 10) in
      let optional_weight := py_or (Config.get config "scoring" "optional_weight") (2 / 10) in
      foldM (score_pair selected_metrics weights
               docking_weight energy_weight optional_weight)
            data Dict.empty
  end.

End Scorer.

(** ** [src/core/ranker.py]: Ranker *)

Module Ranker.

Import DataProcessor.

Record ConfEntry := mkConfEntry {
  conf : conf_id;
  title : Z;
  lignum : Z;
  total_score : fval;
  docking_score : fval;
  energy_score : fval;
  best_protein : string;
  raw_data : Row
}.

(** The body of the loop over [conformations.items()]. *)
Definition best_of (item : conf_id * Dict.t string Scorer.Scores)
    : result ConfEntry :=
  let '(conf, proteins) := item in
  best_protein <- py_min flt (fun x => Scorer.total_score (snd x))
                    (Dict.items proteins) ;;
  Ok (mkConfEntry conf (fst conf) (snd conf)
        (Scorer.total_score (snd best_protein))
        (Scorer.docking_score (snd best_protein))
        (Scorer.energy_score (snd best_protein))
        (fst best_protein)
        (Scorer.raw_data (snd best_protein))).

Definition rank_conformations (config : Config.t) (data : DataFrame)
    (selected_metrics : list string) (weights : Dict.t string R)
    : result (list ConfEntry) :=
  match data with
  | [] => Ok []
  | _ =>
      conformations <- Scorer.score_conformation_protein_pairs
                         config data selected_metrics weights ;;
      match conformations with
      | [] => Ok []
      | _ =>
          result <- mapM best_of (Dict.items conformations) ;;
          Ok (sort_by flt total_score result)
      end
  end.

Module Stats.
Record t := mk {
  best_count : nat;
  total_scores : list fval;
  docking_scores : list fval;
  energy_scores : list fval
}.
End Stats.

Record ProteinEntry := mkProteinEntry {
  protein_name : string;
  best_count : nat;
  avg_total_score : fval;
  avg_docking_score : fval;
  avg_energy_score : fval
}.

(** [np.mean] of a list of floats. *)
Definition fsum (l : list fval) : fval := fold_right fadd (Some 0) l.

Definition np_mean (l : list fval) : fval :=
  match l with
  | [] => NaN
  | _ => fdiv (fsum l) (Some (INR (List.length l)))
  end.

(** The body of the counting loop. *)
Definition count_win (protein_stats : Dict.t string Stats.t) (c : ConfEntry)
    : Dict.t string Stats.t :=
  let protein := best_protein c in
  let protein_stats :=
    if Dict.mem protein protein_stats then protein_stats
    else Dict.set protein (Stats.mk 0 [] [] []) protein_stats in
  match Dict.get protein protein_stats with
  | Some s =>
      Dict.set protein
        (Stats.mk (S (Stats.best_count s))
           (Stats.total_scores s ++ [total_score c])
           (Stats.docking_scores s ++ [docking_score c])
           (Stats.energy_scores s ++ [energy_score c]))
        protein_stats
  | None => protein_stats
  end.

Definition average (item : string * Stats.t) : ProteinEntry :=
  let '(protein, stats) := item in
  mkProteinEntry protein (Stats.best_count stats)
    (np_mean (Stats.total_scores stats))
    (np_mean (Stats.docking_scores stats))
    (np_mean (Stats.energy_scores stats)).

(** The sort key [(-best_count, avg_total_score)] and Python's [<] on such
    tuples: the first components decide when they differ, otherwise the
    second ones, and equal tuples are not smaller. *)
Definition protein_key (x : ProteinEntry) : Z * fval :=
  (- Z.of_nat (best_count x), avg_total_score x)%Z.

Definition key_lt (a b : Z * fval) : bool :=
  if negb (Z.eqb (fst a) (fst b)) then Z.ltb (fst a) (fst b)
  else if negb (feq (snd a) (snd b)) then flt (snd a) (snd b)
  else false.

Definition protein_stats_of (conformation_ranking : list ConfEntry)
    : Dict.t string Stats.t :=
  fold_left count_win conformation_ranking Dict.empty.

Definition rank_proteins (conformation_ranking : list ConfEntry)
    : list ProteinEntry :=
  match conformation_ranking with
  | [] => []
  | _ =>
      let protein_stats := protein_stats_of conformation_ranking in
      let result := map average (Dict.items protein_stats) in
      sort_by key_lt protein_key result
  end.

End Ranker.

(** *** The protein ranking as the specification words it *)

(** The statistics of a protein in the counting dictionary, empty when the
    protein is not there, and the update the counting loop makes. *)
Definition stat_of (p : string) (D : Dict.t string Ranker.Stats.t) : Ranker.Stats.t :=
  match Dict.get p D with
  | Some s => s
  | None => Ranker.Stats.mk 0 [] [] []
  end.

Definition bump (s : Ranker.Stats.t) (c : Ranker.ConfEntry) : Ranker.Stats.t :=
  Ranker.Stats.mk (S (Ranker.Stats.best_count s))
    (Ranker.Stats.total_scores s ++ [Ranker.total_score c])
    (Ranker.Stats.docking_scores s ++ [Ranker.docking_score c])
    (Ranker.Stats.energy_scores s ++ [Ranker.energy_score c]).

(** The conformations a protein won, in ranking order. *)
Definition won (p : string) (entries : list Ranker.ConfEntry)
    : list Ranker.ConfEntry :=
  filter (fun e => String.eqb (Ranker.best_protein e) p) entries.

(** Its entry: the number of wins and the means over the wins. *)
Definition entry_of (entries : list Ranker.ConfEntry) (p : string)
    : Ranker.ProteinEntry :=
  Ranker.mkProteinEntry p (List.length (won p entries))
    (Ranker.np_mean (map Ranker.total_score (won p entries)))
    (Ranker.np_mean (map Ranker.docking_score (won p entries)))
    (Ranker.np_mean (map Ranker.energy_score (won p entries))).


(** *** The selection as the specification words it *)

Definition identity (r : Row) : conf_id := (title r, lignum r).

(** The composite score of a row under the configured category weights. *)
Definition scoring (config : Config.t) (selected_metrics : list string)
    (weights : Dict.t string R) (row : Row) : result (fval * fval * fval) :=
  MetricsProcessor.calculate_composite_score row selected_metrics weights
    (py_or (Config.get config "scoring" "docking_weight") (4 / 10))
    (py_or (Config.get config "scoring" "energy_weight") (4 / 10))
    (py_or (Config.get config "scoring" "optional_weight") (2 / 10)).

Definition total_of (config : Config.t) (selected_metrics : list string)
    (weights : Dict.t string R) (row : Row) : fval :=
  match scoring config selected_metrics weights row with
  | Ok (total, _, _) => total
  | Raise _ => NaN
  end.

(** The scores the pairing step records for a row. *)
Definition scores_of (config : Config.t) (selected_metrics : list string)
    (weights : Dict.t string R) (row : Row) : Scorer.Scores :=
  match scoring config selected_metrics weights row with
  | Ok (total, docking, energy) => Scorer.mkScores total docking energy row
  | Raise _ => Scorer.mkScores NaN NaN NaN row
  end.

(** The dictionary of one identity in the pairs, empty when the identity is
    not there. *)
Definition inner (c : conf_id) (D : Scorer.Pairs) : Dict.t string Scorer.Scores :=
  match Dict.get c D with Some d => d | None => [] end.

(** The pairing step once the row has been scored. *)
Definition pure_pair (config : Config.t) (selected_metrics : list string)
    (weights : Dict.t string R) (D : Scorer.Pairs) (r : Row) : Scorer.Pairs :=
  Dict.set (identity r)
    (Dict.set (protein_name r) (scores_of config selected_metrics weights r)
       (inner (identity r) D)) D.

(** The dictionary built by assigning the pairs of a list in order. *)
Definition of_list (kvs : list (string * Scorer.Scores))
    : Dict.t string Scorer.Scores :=
  fold_left (fun d x => Dict.set (fst x) (snd x) d) kvs [].

(** The rows of an identity, in row order. *)
Definition rows_of (c : conf_id) (data : list Row) : list Row :=
  filter (fun r => keqb (identity r) c) data.

(** The last row of a protein among some rows. *)
Fixpoint last_row_of (p : string) (rows : list Row) : option Row :=
  match rows with
  | [] => None
  | r :: rows' =>
      match last_row_of p rows' with
      | Some r' => Some r'
      | None => if String.eqb (protein_name r) p then Some r else None
      end
  end.

(** The candidates of an identity: one row per protein, the last one of that
    protein, the proteins in the order in which they first appear. *)
Definition candidates (c : conf_id) (data : list Row) : list Row :=
  let rows := rows_of c data in
  flat_map (fun p => match last_row_of p rows with
                     | Some r => [r]
                     | None => []
                     end)
           (unique (map protein_name rows)).

(** ** [src/utils/helpers.py]: handle_special_values *)

Module Helpers.

Import DataProcessor.

(** [result.loc[result[col] == special_value, col] = float('nan')] on one
    row, then on the table, for a column the table has. *)
Definition scrub_cell (special_value : R) (col : string) (r : Row) : Row :=
  if feq (cell col r) (Some special_value) then set_cell col NaN r else r.

Definition scrub_column (special_value : R) (result : DataFrame)
    (col : string) : DataFrame :=
  if has_column col result then map (scrub_cell special_value col) result
  else result.

Definition handle_special_values (df : DataFrame) (columns : list string)
    (special_value : R) : DataFrame :=
  fold_left (scrub_column special_value) columns df.

End Helpers.

(** ** [src/data/processor.py]: preprocess_data

    The metric columns hold floats here, on which [pd.to_numeric] changes
    nothing; what is left of the function is the scrubbing of the sentinel
    10000 in the docking columns. *)

Definition preprocess_data (data : DataProcessor.DataFrame)
    : DataProcessor.DataFrame :=
  match data with
  | [] => []
  | _ => Helpers.handle_special_values data DOCKING_METRICS 10000
  end.

(** All the rows of a table carry the same column labels. *)
Definition uniform (data : DataProcessor.DataFrame) : Prop :=
  forall r r', In r data -> In r' data ->
    Dict.keys (cols r) = Dict.keys (cols r').

(** ** [src/config.py]: the other methods of Config

    The two nested dictionaries of the ["metrics"] section are passed to
    [get_selected_metrics] and [get_metrics_weights] as what
    [self.get("metrics", "optional")] and [self.get("metrics", "required")]
    return: a dictionary, or [None]. *)

(** [d.update(other)] *)
Definition dict_update {K V : Type} `{Key K} (d other : Dict.t K V)
    : Dict.t K V :=
  fold_left (fun d x => Dict.set (fst x) (snd x) d) other d.

(** A section of [config_dict] that the configuration does not have is
    skipped.  The sections modelled are dictionaries on both sides, so the
    branch that replaces a section which is not a dictionary is not
    reached. *)
Definition update_section (self : Config.t)
    (item : string * Dict.t string R) : Config.t :=
  let '(section, values) := item in
  match Dict.get section self with
  | Some old => Dict.set section (dict_update old values) self
  | None => self
  end.

Definition update_from_dict (self : Config.t)
    (config_dict : Dict.t string (Dict.t string R)) : Config.t :=
  fold_left update_section config_dict self.

Definition select_metric (selected : list string) (item : string * R)
    : list string :=
  let '(metric, weight) := item in
  if (Rltb 0 weight && negb (str_in metric selected))%bool
  then (selected ++ [metric])%list else selected.

Definition get_selected_metrics (optional_metrics : option (Dict.t string R))
    : list string :=
  let selected := REQUIRED_METRICS in
  match optional_metrics with
  | Some d => fold_left select_metric (Dict.items d) selected
  | None => selected
  end.

Definition get_metrics_weights
    (required_metrics optional_metrics : option (Dict.t string R))
    : Dict.t string R :=
  let weights : Dict.t string R := [] in
  let weights :=
    match required_metrics with
    | Some d => dict_update weights d
    | None => weights
    end in
  match optional_metrics with
  | Some d => dict_update weights d
  | None => weights
  end.

(** ** [src/ui/cli.py]: the selected metrics of run_cli *)

Definition add_metric (selected_metrics : list string) (metric : string)
    : list string :=
  if (str_in metric OPTIONAL_METRICS && negb (str_in metric selected_metrics))%bool
  then (selected_metrics ++ [metric])%list else selected_metrics.

(** [selected_metrics = REQUIRED_METRICS.copy()], then the loop over
    [args.metrics]. *)
Definition cli_selected_metrics (args_metrics : list string) : list string :=
  fold_left add_metric args_metrics REQUIRED_METRICS.

(** What [run_cli] computes once the table has been read: the table is
    preprocessed and normalised, the conformations are ranked for the
    selected metrics, and the proteins are ranked from that ranking.  The
    command line leaves the category weights of the configuration at their
    defaults; the metric weights and the method are the ones it reads from
    the configuration. *)
Definition run_cli_rankings (args_metrics : list string)
    (weights : Dict.t string R) (normalization_method : string)
    (data : DataProcessor.DataFrame)
    : result (list Ranker.ConfEntry * list Ranker.ProteinEntry) :=
  let selected_metrics := cli_selected_metrics args_metrics in
  let processed_data := preprocess_data data in
  let normalized_data :=
    DataProcessor.normalize_data processed_data normalization_method in
  conformation_ranking <-
    Ranker.rank_conformations Config.DEFAULT_CONFIG normalized_data
      selected_metrics weights ;;
  let protein_ranking := Ranker.rank_proteins conformation_ranking in
  Ok (conformation_ranking, protein_ranking).

(** ** [src/ui/gui/main_window.py]: update_scoring_weights

    The three arguments are the values of the spin boxes; the widgets
    themselves are not modelled. *)

Definition update_scoring_weights (config : Config.t)
    (docking_weight energy_weight optional_weight : R) : result Config.t :=
  let total := docking_weight + energy_weight + optional_weight in
  w <- (if Rltb (1 / 100) (Rabs (total - 1)) then
          if Reqb total 0 then Raise ZeroDivisionError
          else Ok (docking_weight / total, energy_weight / total,
                   optional_weight / total)
        else Ok (docking_weight, energy_weight, optional_weight)) ;;
  let '(docking_weight, energy_weight, optional_weight) := w in
  let config := Config.set config "scoring" "docking_weight" docking_weight in
  let config := Config.set config "scoring" "energy_weight" energy_weight in
  let config := Config.set config "scoring" "optional_weight" optional_weight in
  Ok config.

(** ** [src/data/reader.py]: the queries of DataReader on its table *)

(** [self.data['protein_name'].unique().tolist()] *)
Definition get_protein_names (data : option DataProcessor.DataFrame)
    : list string :=
  match data with
  | None => []
  | Some d => unique (map protein_name d)
  end.

(** [drop_duplicates] keeps the first row of every pair. *)
Definition get_unique_conformations (data : option DataProcessor.DataFrame)
    : list conf_id :=
  match data with
  | None => []
  | Some d => unique (map identity d)
  end.

(** [self.data[self.data['protein_name'] == protein_name]], or [None] when no
    row is left. *)
Definition get_data_for_protein (data : option DataProcessor.DataFrame)
    (protein : string) : option DataProcessor.DataFrame :=
  match data with
  | None => None
  | Some d =>
      match filter (fun r => String.eqb (protein_name r) protein) d with
      | [] => None
      | filtered => Some filtered
      end
  end.

(** ** [src/data/writer.py]: the columns of the conformation sheet

    Of [write_conformation_ranking] the column labels of the sheet are
    modelled: [df[c] = ...] adds the column [c] to the right unless the
    frame has it already.  The width of the [i]-th column is then set
    under the key [chr(65 + i)]. *)

Definition BASE_COLUMNS : list string :=
  [ "小分子编号"; "构象编号"; "总对接效果指数";
    "对接分数相关指数"; "能量相关指数"; "最优蛋白" ].

Definition add_column (columns : list string) (c : string) : list string :=
  if str_in c columns then columns else (columns ++ [c])%list.

Definition add_metric_column (columns : list string) (metric : string)
    : list string :=
  if (str_in metric REQUIRED_METRICS || str_in metric OPTIONAL_METRICS)%bool
  then add_column columns metric else columns.

Definition conformation_sheet_columns (selected_metrics : list string)
    : list string :=
  fold_left add_metric_column selected_metrics BASE_COLUMNS.

(** The code point [65 + i] handed to [chr]. *)
Definition column_letter (i : nat) : Z := (65 + Z.of_nat i)%Z.

(** *** Predicates used to state the properties *)

(** The identity and the protein of a row are kept. *)
Definition same_labels (r r' : Row) : Prop :=
  title r' = title r /\ lignum r' = lignum r
  /\ protein_name r' = protein_name r.

(** The normalised value of one value of a group, as a function of the
    values of the group, the method and the value: the worst value 1.0 in a
    group without values; under ["z-score"] the logistic of the z-score (of
    3.0 for an absent value, or when the deviation is undefined), 0.0 and
    1.0 when the deviation is zero; the min-max value under every other
    method name. *)
Definition normalized_value (values : list fval) (method : string) (v : fval)
    : fval :=
  match DataProcessor.dropna values with
  | [] => Some 1
  | v0 :: vs =>
      if String.eqb method "z-score" then
        match DataProcessor.series_std (v0 :: vs) with
        | Some s =>
            if Reqb s 0 then (if notna v then Some 0 else Some 1)
            else z_score_value (DataProcessor.series_mean (v0 :: vs)) s v
        | None => Some (DataProcessor.logistic 3)
        end
      else
        min_max_value (DataProcessor.series_min v0 vs)
          (DataProcessor.series_max v0 vs) v
  end.

(** ** Sample inputs *)

Module Samples.

(** A row whose normalised values are all the worst value 1.0. *)
Definition worst_row : Row :=
  mkRow 1 1 "CCND1"
    [ ("normalized_r_i_docking_score", Some 1);
      ("normalized_r_i_glide_gscore", Some 1);
      ("normalized_r_i_glide_emodel", Some 1);
      ("normalized_r_i_glide_energy", Some 1);
      ("normalized_r_i_glide_lipo", Some 1) ].

(** A row with mixed normalised values. *)
Definition mixed_row : Row :=
  mkRow 1 1 "KDR"
    [ ("normalized_r_i_docking_score", Some 0);
      ("normalized_r_i_glide_gscore", Some 1);
      ("normalized_r_i_glide_emodel", Some (1 / 2));
      ("normalized_r_i_glide_energy", Some (1 / 2)) ].

Definition with_lipo : list string :=
  (REQUIRED_METRICS ++ ["r_i_glide_lipo"])%list.

(** Two proteins docked against one conformation; the docking score of the
    first one was the failure sentinel 10000 and has been scrubbed to NaN. *)
Definition failed_pose : Row :=
  mkRow 1 1 "CCND1"
    [ ("r_i_docking_score", NaN);
      ("r_i_glide_gscore", Some (- 95 / 10));
      ("r_i_glide_emodel", Some (- 50));
      ("r_i_glide_energy", Some (- 30)) ].

Definition good_pose : Row :=
  mkRow 1 1 "KDR"
    [ ("r_i_docking_score", Some (- 8));
      ("r_i_glide_gscore", Some (- 85 / 10));
      ("r_i_glide_emodel", Some (- 45));
      ("r_i_glide_energy", Some (- 25)) ].

Definition scrubbed_table : DataProcessor.DataFrame := [failed_pose; good_pose].

(** The same conformation and the same protein twice: a best row first, a
    worst row second. *)
Definition best_row : Row :=
  mkRow 1 1 "CCND1"
    [ ("normalized_r_i_docking_score", Some 0);
      ("normalized_r_i_glide_gscore", Some 0);
      ("normalized_r_i_glide_emodel", Some 0);
      ("normalized_r_i_glide_energy", Some 0) ].

Definition duplicated : DataProcessor.DataFrame := [best_row; worst_row].

(** One conformation against two proteins. *)
Definition two_proteins : DataProcessor.DataFrame := [worst_row; mixed_row].

(** One conformation against two proteins that score the same. *)
Definition worst_row_of_kdr : Row :=
  mkRow 1 1 "KDR"
    [ ("normalized_r_i_docking_score", Some 1);
      ("normalized_r_i_glide_gscore", Some 1);
      ("normalized_r_i_glide_emodel", Some 1);
      ("normalized_r_i_glide_energy", Some 1) ].

Definition tied_proteins : DataProcessor.DataFrame := [worst_row; worst_row_of_kdr].

(** A conformation ranking: KDR wins two conformations, CCND1 one. *)
Definition conformation_ranking : list Ranker.ConfEntry :=
  [ Ranker.mkConfEntry (1, 1)%Z 1 1 (Some (2 / 10)) (Some (1 / 10)) (Some (3 / 10))
      "KDR" mixed_row;
    Ranker.mkConfEntry (2, 1)%Z 2 1 (Some (3 / 10)) (Some (3 / 10)) (Some (3 / 10))
      "CCND1" worst_row;
    Ranker.mkConfEntry (3, 1)%Z 3 1 (Some (4 / 10)) (Some (5 / 10)) (Some (3 / 10))
      "KDR" mixed_row ].

(** Two proteins with one win each and the same mean total score. *)
Definition tied_ranking : list Ranker.ConfEntry :=
  [ Ranker.mkConfEntry (1, 1)%Z 1 1 (Some (3 / 10)) (Some (1 / 10)) (Some (5 / 10))
      "KDR" mixed_row;
    Ranker.mkConfEntry (2, 1)%Z 2 1 (Some (3 / 10)) (Some (3 / 10)) (Some (3 / 10))
      "CCND1" worst_row ].

(** What [normalize_data] makes of these rows. *)
Definition failed_pose_normalized : Row :=
  mkRow 1 1 "CCND1"
    [ ("r_i_docking_score", NaN);
      ("r_i_glide_gscore", Some (- 95 / 10));
      ("r_i_glide_emodel", Some (- 50));
      ("r_i_glide_energy", Some (- 30));
      ("normalized_r_i_docking_score", NaN);
      ("normalized_r_i_glide_gscore", Some 0);
      ("normalized_r_i_glide_emodel", Some 0);
      ("normalized_r_i_glide_energy", Some 0) ].

Definition good_pose_normalized : Row :=
  mkRow 1 1 "KDR"
    [ ("r_i_docking_score", Some (- 8));
      ("r_i_glide_gscore", Some (- 85 / 10));
      ("r_i_glide_emodel", Some (- 45));
      ("r_i_glide_energy", Some (- 25));
      ("normalized_r_i_docking_score", Some 0);
      ("normalized_r_i_glide_gscore", Some 0);
      ("normalized_r_i_glide_emodel", Some 0);
      ("normalized_r_i_glide_energy", Some 0) ].

End Samples.

(** ** More sample inputs *)

Module Tables.

(** A second conformation, docked against one protein only, with the best
    normalised values. *)
Definition second_conformation : Row :=
  mkRow 2 1 "CCND1"
    [ ("normalized_r_i_docking_score", Some 0);
      ("normalized_r_i_glide_gscore", Some 0);
      ("normalized_r_i_glide_emodel", Some 0);
      ("normalized_r_i_glide_energy", Some 0) ].

Definition two_conformations : DataProcessor.DataFrame :=
  [Samples.worst_row; Samples.mixed_row; second_conformation].

(** The ["optional"] dictionary of a configuration: one metric switched on,
    one switched off by a zero weight, and a required metric listed by
    mistake. *)
Definition optional_weights : Dict.t string R :=
  [ ("r_i_glide_lipo", 1 / 2);
    ("r_i_glide_hbond", 0);
    ("r_i_docking_score", 2) ].

Definition required_weights : Dict.t string R :=
  [ ("r_i_docking_score", 1);
    ("r_i_glide_gscore", 1) ].

(** A raw table: the docking of the first row failed and its docking score
    is the sentinel 10000. *)
Definition raw_failed_pose : Row :=
  mkRow 1 1 "CCND1"
    [ ("r_i_docking_score", Some 10000);
      ("r_i_glide_gscore", Some (- 95 / 10));
      ("r_i_glide_emodel", Some (- 50));
      ("r_i_glide_energy", Some (- 30)) ].

Definition raw_table : DataProcessor.DataFrame :=
  [raw_failed_pose; Samples.good_pose].

(** A table in which every protein group has a value in every column. *)
Definition second_good_pose : Row :=
  mkRow 1 1 "CCND1"
    [ ("r_i_docking_score", Some (- 7));
      ("r_i_glide_gscore", Some (- 75 / 10));
      ("r_i_glide_emodel", Some (- 40));
      ("r_i_glide_energy", Some (- 20)) ].

Definition complete_table : DataProcessor.DataFrame :=
  [Samples.good_pose; second_good_pose].

(** What [normalize_data] makes of its second row: a group of one row has
    no spread. *)
Definition second_good_pose_normalized : Row :=
  mkRow 1 1 "CCND1"
    [ ("r_i_docking_score", Some (- 7));
      ("r_i_glide_gscore", Some (- 75 / 10));
      ("r_i_glide_emodel", Some (- 40));
      ("r_i_glide_energy", Some (- 20));
      ("normalized_r_i_docking_score", Some 0);
      ("normalized_r_i_glide_gscore", Some 0);
      ("normalized_r_i_glide_emodel", Some 0);
      ("normalized_r_i_glide_energy", Some 0) ].



(** A raw table in which the protein of the failed docking has a second
    row, with a docking score. *)
Definition other_conformation : Row :=
  mkRow 2 1 "CCND1"
    [ ("r_i_docking_score", Some (- 6));
      ("r_i_glide_gscore", Some (- 65 / 10));
      ("r_i_glide_emodel", Some (- 35));
      ("r_i_glide_energy", Some (- 15)) ].

Definition raw_table_of_two : DataProcessor.DataFrame :=
  [raw_failed_pose; other_conformation].

End Tables.

(** * Properties *)

(** ** Keys *)

#[export] Instance string_KeyLaws : KeyLaws string.
Proof. exact String.eqb_eq. Qed.

#[export] Instance conf_id_KeyLaws : KeyLaws conf_id.
Proof.
  intros [a1 a2] [b1 b2]; unfold keqb; simpl; unfold conf_id_eqb; simpl.
  rewrite andb_true_iff, !Z.eqb_eq. split.
  - intros [-> ->]; reflexivity.
  - intros E; inversion E; auto.
Qed.

(** ** Comparisons on reals as booleans *)

Lemma Reqb_eq (x y : R) : Reqb x y = true <-> x = y.
Proof. unfold Reqb; destruct (Req_dec_T x y); split; congruence. Qed.

Lemma Reqb_neq (x y : R) : Reqb x y = false <-> x <> y.
Proof. unfold Reqb; destruct (Req_dec_T x y); split; congruence. Qed.


Lemma Rltb_lt (x y : R) : Rltb x y = true <-> x < y.
Proof. unfold Rltb; destruct (Rlt_dec x y); split; congruence. Qed.

Lemma Rltb_ge (x y : R) : Rltb x y = false <-> y <= x.
Proof.
  unfold Rltb; destruct (Rlt_dec x y); split; try congruence; lra.
Qed.

Lemma fadd_assoc (a b c : fval) : fadd (fadd a b) c = fadd a (fadd b c).
Proof.
  destruct a, b, c; simpl; try reflexivity. f_equal; ring.
Qed.

Lemma fadd_0_l (a : fval) : fadd (Some 0) a = a.
Proof. destruct a; simpl; [f_equal; ring | reflexivity]. Qed.

(** ** The category score (MetricsProcessor.calculate_weighted_score) *)

Section CategoryScore.
Import MetricsProcessor.
Variable row : Row.
Variable weights : Dict.t string R.

Lemma accumulate_sums (ms : list string) (acc : fval * R) :
  fold_left (accumulate row weights) ms acc
  = (fadd (fst acc) (sum_weighted row weights ms),
     snd acc + sum_weights weights ms).
Proof.
  revert acc; induction ms as [|m ms IH]; intros [ws tw]; simpl.
  - f_equal; [destruct ws; simpl; [f_equal; ring | reflexivity] | ring].
  - rewrite IH. unfold accumulate; simpl. rewrite fadd_assoc.
    f_equal. ring.
Qed.

Lemma calculate_weighted_score_eq (S : list string) :
  calculate_weighted_score row S weights = category_score_spec row S weights.
Proof.
  unfold calculate_weighted_score, category_score_spec.
  destruct (valid_metrics row S) as [|m ms] eqn:E; [reflexivity|].
  rewrite accumulate_sums; simpl fst; simpl snd.
  rewrite fadd_0_l, Rplus_0_l. reflexivity.
Qed.

End CategoryScore.

(** ** Evaluating the model on concrete tables *)

Ltac real_tests :=
  repeat match goal with
  | |- context [Reqb ?a ?b] =>
      first [ rewrite (proj2 (Reqb_eq a b)) by lra
            | rewrite (proj2 (Reqb_neq a b)) by lra ]
  | |- context [Rltb ?a ?b] =>
      first [ rewrite (proj2 (Rltb_lt a b)) by lra
            | rewrite (proj2 (Rltb_ge a b)) by lra ]
  | |- context [Rmin ?a ?b] =>
      first [ rewrite (Rmin_left a b) by lra
            | rewrite (Rmin_right a b) by lra ]
  | |- context [Rmax ?a ?b] =>
      first [ rewrite (Rmax_left a b) by lra
            | rewrite (Rmax_right a b) by lra ]
  end.

Ltac run :=
  cbv -[Rplus Rmult Rdiv Rminus Ropp Rinv IZR Reqb Rltb Rmin Rmax exp sqrt];
  real_tests;
  cbv -[Rplus Rmult Rdiv Rminus Ropp Rinv IZR Reqb Rltb Rmin Rmax exp sqrt].

Ltac same_reals :=
  repeat match goal with
  | |- Ok _ = Ok _ => apply f_equal
  | |- (_, _) = (_, _) => apply f_equal2
  | |- Some _ = Some _ => apply f_equal
  | |- _ :: _ = _ :: _ => apply f_equal2
  | |- Ranker.mkConfEntry _ _ _ _ _ _ _ _ = _ => f_equal
  | |- Ranker.mkProteinEntry _ _ _ _ _ = _ => f_equal
  | |- @eq R _ _ => first [lra | field; lra | field]
  | |- _ => reflexivity
  end.

(** ** The composite score (MetricsProcessor.calculate_composite_score) *)

Section CompositeScore.
Import MetricsProcessor.



(** The scenario of the specification: weights 0.4 and 0.4 and no optional
    metric give 0.5 * docking + 0.5 * energy. *)
Example reweighting_scenario :
  calculate_composite_score Samples.mixed_row REQUIRED_METRICS []
    (4 / 10) (4 / 10) (2 / 10)
  = Ok (Some (1 / 2), Some (1 / 2), Some (1 / 2)).
Proof.
  run. same_reals.
Qed.
End CompositeScore.

(** ** The range of the scores *)

Section ScoreRange.
Import MetricsProcessor.
Variable row : Row.
Variable weights : Dict.t string R.

Hypothesis Hrow : normalized_in01 row.
Hypothesis Hweights : weights_nonneg weights.

Lemma weight_of_nonneg (m : string) : 0 <= weight_of weights m.
Proof.
  unfold weight_of. destruct (Dict.get m weights) eqn:E; [eauto | lra].
Qed.

Lemma get_normalized_value_in01 (m : string) :
  in01 (get_normalized_value row m).
Proof.
  unfold get_normalized_value.
  destruct (Dict.get _ (cols row)) eqn:E; [eauto|].
  exists 1; split; [reflexivity | lra].
Qed.

Lemma sums_bounded (ms : list string) :
  exists s, sum_weighted row weights ms = Some s
            /\ 0 <= s <= sum_weights weights ms.
Proof.
  induction ms as [|m ms [s [E B]]]; simpl.
  - exists 0; split; [reflexivity | lra].
  - destruct (get_normalized_value_in01 m) as [x [Ex Bx]].
    rewrite Ex, E; simpl. eexists; split; [reflexivity|].
    pose proof (weight_of_nonneg m). nra.
Qed.

Lemma calculate_weighted_score_in01 (S : list string) :
  in01 (calculate_weighted_score row S weights).
Proof.
  rewrite calculate_weighted_score_eq. unfold category_score_spec.
  destruct (valid_metrics row S) as [|m ms];
    [exists 1; split; [reflexivity | lra]|].
  destruct (Reqb _ 0) eqn:Z; [exists 1; split; [reflexivity | lra]|].
  apply Reqb_neq in Z.
  destruct (sums_bounded (m :: ms)) as [s [E B]]. rewrite E; simpl fdiv.
  eexists; split; [reflexivity|].
  assert (0 < sum_weights weights (m :: ms)) by lra.
  split.
  - apply Rmult_le_pos; [lra|]. left. now apply Rinv_0_lt_compat.
  - apply Rmult_le_reg_r with (sum_weights weights (m :: ms)); [assumption|].
    unfold Rdiv. rewrite Rmult_assoc, Rinv_l by lra. lra.
Qed.

End ScoreRange.





(** The bound needs the metric weights to be non-negative as well: a negative
    one takes a category score out of [0,1]. *)
Example negative_metric_weight :
  MetricsProcessor.calculate_docking_score Samples.mixed_row
    [("r_i_docking_score", -1); ("r_i_glide_gscore", 2)]
  = Some 2.
Proof. run. same_reals. Qed.

(** ** Min-max normalisation (DataProcessor.normalize_metric) *)

Section MinMax.
Import DataProcessor.

Lemma series_min_le (xs : list R) (x : R) :
  series_min x xs <= x /\ Forall (fun y => series_min x xs <= y) xs.
Proof.
  unfold series_min. revert x; induction xs as [|y xs IH]; intros x; simpl.
  - split; [lra | constructor].
  - destruct (IH (Rmin x y)) as [H1 H2].
    pose proof (Rmin_l x y). pose proof (Rmin_r x y).
    split; [lra|]. constructor; [lra | assumption].
Qed.

Lemma series_min_in (xs : list R) (x : R) : In (series_min x xs) (x :: xs).
Proof.
  unfold series_min. revert x; induction xs as [|y xs IH]; intros x; simpl.
  - now left.
  - destruct (IH (Rmin x y)) as [E|I]; [|now right; right].
    rewrite <- E. apply Rmin_case; [now left | now right; left].
Qed.

Lemma series_max_ge (xs : list R) (x : R) :
  x <= series_max x xs /\ Forall (fun y => y <= series_max x xs) xs.
Proof.
  unfold series_max. revert x; induction xs as [|y xs IH]; intros x; simpl.
  - split; [lra | constructor].
  - destruct (IH (Rmax x y)) as [H1 H2].
    pose proof (Rmax_l x y). pose proof (Rmax_r x y).
    split; [lra|]. constructor; [lra | assumption].
Qed.

Lemma series_max_in (xs : list R) (x : R) : In (series_max x xs) (x :: xs).
Proof.
  unfold series_max. revert x; induction xs as [|y xs IH]; intros x; simpl.
  - now left.
  - destruct (IH (Rmax x y)) as [E|I]; [|now right; right].
    rewrite <- E. apply Rmax_case; [now left | now right; left].
Qed.

Lemma series_bounds (x0 : R) (xs : list R) :
  Forall (fun y => series_min x0 xs <= y <= series_max x0 xs) (x0 :: xs).
Proof.
  destruct (series_min_le xs x0) as [A1 A2].
  destruct (series_max_ge xs x0) as [B1 B2].
  constructor; [lra|].
  rewrite Forall_forall in *. intros y Hy. split; auto.
Qed.

Lemma dropna_in (values : list fval) (x : R) :
  In (Some x) values <-> In x (dropna values).
Proof.
  induction values as [|[y|] vs IH]; simpl; [tauto | | ].
  - rewrite <- IH. split; intros [E|I]; auto; left; congruence.
  - rewrite <- IH. split; [intros [E|I]; [discriminate | assumption] | auto].
Qed.

Lemma min_max_eq (values : list fval) (v0 : R) (vs : list R) :
  min_max values v0 vs
  = map (min_max_value (series_min v0 vs) (series_max v0 vs)) values.
Proof.
  unfold min_max, degenerate, min_max_value.
  destruct (Reqb _ _); [|rewrite map_map]; apply map_ext;
    intros [x|]; reflexivity.
Qed.

Lemma min_max_value_in01 (mn mx : R) (v : fval) :
  mn <= mx ->
  (forall x, v = Some x -> mn <= x <= mx) ->
  in01 (min_max_value mn mx v).
Proof.
  intros Hle Hv. destruct v as [x|]; simpl.
  - destruct (Reqb mx mn) eqn:E.
    + exists 0; split; [reflexivity | lra].
    + apply Reqb_neq in E. destruct (Hv x eq_refl).
      eexists; split; [reflexivity|].
      assert (0 < mx - mn) by lra.
      split.
      * apply Rmult_le_pos; [lra|]. left. now apply Rinv_0_lt_compat.
      * apply Rmult_le_reg_r with (mx - mn); [assumption|].
        unfold Rdiv. rewrite Rmult_assoc, Rinv_l by lra. lra.
  - exists 1; split; [reflexivity | lra].
Qed.

(** C6, as the code has it: for a group with at least one present value,
    min-max normalisation maps every present value to
    (value - min) / (max - min) when max differs from min and to 0.0 when
    max equals min, and every absent value to 1.0; every output lies in
    [0,1]; the minimum maps to 0.0; the maximum maps to 1.0 when max
    differs from min, and to 0.0 when they are equal. *)
Theorem min_max_normalization (values : list fval) (v0 : R) (vs : list R) :
  dropna values = v0 :: vs ->
  let min_val := series_min v0 vs in
  let max_val := series_max v0 vs in
  (In (Some min_val) values /\ In (Some max_val) values
   /\ forall x, In (Some x) values -> min_val <= x <= max_val)
  /\ normalize_metric values "min-max"
     = map (min_max_value min_val max_val) values
  /\ Forall in01 (normalize_metric values "min-max")
  /\ min_max_value min_val max_val (Some min_val) = Some 0
  /\ (max_val <> min_val -> min_max_value min_val max_val (Some max_val) = Some 1)
  /\ (max_val = min_val -> min_max_value min_val max_val (Some max_val) = Some 0).
Proof.
  intros Hd mn mx.
  assert (Hb : forall x, In (Some x) values -> mn <= x <= mx).
  { intros x Hx. apply dropna_in in Hx. rewrite Hd in Hx.
    pose proof (series_bounds v0 vs) as F. rewrite Forall_forall in F.
    now apply F. }
  assert (Hmn : In (Some mn) values).
  { apply dropna_in. rewrite Hd. apply series_min_in. }
  assert (Hmx : In (Some mx) values).
  { apply dropna_in. rewrite Hd. apply series_max_in. }
  assert (Heq : normalize_metric values "min-max"
                = map (min_max_value mn mx) values).
  { unfold normalize_metric. rewrite Hd. simpl. apply min_max_eq. }
  split; [auto|]. split; [exact Heq|]. split; [|split; [|split]].
  - rewrite Heq. apply Forall_forall. intros y Hy.
    apply in_map_iff in Hy. destruct Hy as [v [<- Hv]].
    apply min_max_value_in01.
    + destruct (Hb mn Hmn). lra.
    + intros x ->. auto.
  - simpl. destruct (Reqb mx mn) eqn:E; [reflexivity|].
    apply Reqb_neq in E. f_equal. unfold Rdiv. rewrite Rminus_diag. lra.
  - intros Hne. simpl. rewrite (proj2 (Reqb_neq _ _)) by assumption.
    f_equal. field. lra.
  - intros He. simpl. rewrite (proj2 (Reqb_eq _ _)) by assumption.
    reflexivity.
Qed.
End MinMax.

Example min_max_of_single_value :
  DataProcessor.normalize_metric [Some 5] "min-max" = [Some 0].
Proof. run. reflexivity. Qed.

Example min_max_of_three_values :
  DataProcessor.normalize_metric [Some (-10); None; Some 0; Some 10] "min-max"
  = [Some 0; Some 1; Some (1 / 2); Some 1].
Proof. run. same_reals. Qed.

(** C6 does not hold as stated: in a group without spread the maximum is
    mapped to 0.0, not to 1.0. *)
Lemma maximum_not_always_one :
  ~ (forall (values : list fval) (v0 : R) (vs : list R) (i : nat),
       DataProcessor.dropna values = v0 :: vs ->
       nth_error values i = Some (Some (DataProcessor.series_max v0 vs)) ->
       nth_error (DataProcessor.normalize_metric values "min-max") i
       = Some (Some 1)).
Proof.
  intros H.
  specialize (H [Some 5] 5 [] 0%nat eq_refl eq_refl).
  rewrite min_max_of_single_value in H. simpl in H.
  inversion H. lra.
Qed.

Lemma min_max_normalization_witness :
  DataProcessor.normalize_metric [Some (-10); None; Some 0; Some 10] "min-max"
  = map (min_max_value (DataProcessor.series_min (-10) [0; 10])
                       (DataProcessor.series_max (-10) [0; 10]))
        [Some (-10); None; Some 0; Some 10].
Proof.
  exact (proj1 (proj2 (min_max_normalization
                         [Some (-10); None; Some 0; Some 10] (-10) [0; 10]
                         eq_refl))).
Defined.

(** ** The logistic function *)

Section Logistic.
Import DataProcessor.

Lemma logistic_strict (z : R) : 0 < logistic z < 1.
Proof.
  unfold logistic. pose proof (exp_pos (- z)) as He.
  assert (Hd : 0 < 1 + exp (- z)) by lra.
  split.
  - apply Rdiv_lt_0_compat; lra.
  - apply Rmult_lt_reg_r with (1 + exp (- z)); [assumption|].
    unfold Rdiv. rewrite Rmult_assoc, Rinv_l by lra. lra.
Qed.

(** Squaring a lower bound of [exp x] bounds [exp (2 x)]. *)
Lemma exp_double_lower (x b c : R) :
  0 <= b -> b <= exp x -> c <= b * b -> c <= exp (2 * x).
Proof.
  intros Hb Hx Hc. replace (2 * x) with (x + x) by ring.
  rewrite exp_plus. nra.
Qed.

Lemma exp_3_lower : 19909229 / 1000000 <= exp 3.
Proof.
  assert (H0 : 515 / 512 <= exp (3 / 512))
    by (pose proof (exp_ineq1_le (3 / 512)); lra).
  assert (H1 : 1011753 / 1000000 <= exp (2 * (3 / 512)))
    by (eapply exp_double_lower; [|exact H0|]; lra).
  replace (2 * (3 / 512)) with (3 / 256) in H1 by lra.
  assert (H2 : 255911 / 250000 <= exp (2 * (3 / 256)))
    by (eapply exp_double_lower; [|exact H1|]; lra).
  replace (2 * (3 / 256)) with (3 / 128) in H2 by lra.
  assert (H3 : 1047847 / 1000000 <= exp (2 * (3 / 128)))
    by (eapply exp_double_lower; [|exact H2|]; lra).
  replace (2 * (3 / 128)) with (3 / 64) in H3 by lra.
  assert (H4 : 1097983 / 1000000 <= exp (2 * (3 / 64)))
    by (eapply exp_double_lower; [|exact H3|]; lra).
  replace (2 * (3 / 64)) with (3 / 32) in H4 by lra.
  assert (H5 : 602783 / 500000 <= exp (2 * (3 / 32)))
    by (eapply exp_double_lower; [|exact H4|]; lra).
  replace (2 * (3 / 32)) with (3 / 16) in H5 by lra.
  assert (H6 : 1453389 / 1000000 <= exp (2 * (3 / 16)))
    by (eapply exp_double_lower; [|exact H5|]; lra).
  replace (2 * (3 / 16)) with (3 / 8) in H6 by lra.
  assert (H7 : 2112339 / 1000000 <= exp (2 * (3 / 8)))
    by (eapply exp_double_lower; [|exact H6|]; lra).
  replace (2 * (3 / 8)) with (3 / 4) in H7 by lra.
  assert (H8 : 557747 / 125000 <= exp (2 * (3 / 4)))
    by (eapply exp_double_lower; [|exact H7|]; lra).
  replace (2 * (3 / 4)) with (3 / 2) in H8 by lra.
  assert (H9 : 19909229 / 1000000 <= exp (2 * (3 / 2)))
    by (eapply exp_double_lower; [|exact H8|]; lra).
  replace (2 * (3 / 2)) with 3 in H9 by lra.
  exact H9.
Qed.

Lemma exp_minus_3_lower : 489121 / 10000000 <= exp (- 3).
Proof.
  assert (H0 : 253 / 256 <= exp (- 3 / 256))
    by (pose proof (exp_ineq1_le (- 3 / 256)); lra).
  assert (H1 : 4883499 / 5000000 <= exp (2 * (- 3 / 256)))
    by (eapply exp_double_lower; [|exact H0|]; lra).
  replace (2 * (- 3 / 256)) with (- 3 / 128) in H1 by lra.
  assert (H2 : 298107 / 312500 <= exp (2 * (- 3 / 128)))
    by (eapply exp_double_lower; [|exact H1|]; lra).
  replace (2 * (- 3 / 128)) with (- 3 / 64) in H2 by lra.
  assert (H3 : 9100061 / 10000000 <= exp (2 * (- 3 / 64)))
    by (eapply exp_double_lower; [|exact H2|]; lra).
  replace (2 * (- 3 / 64)) with (- 3 / 32) in H3 by lra.
  assert (H4 : 8281111 / 10000000 <= exp (2 * (- 3 / 32)))
    by (eapply exp_double_lower; [|exact H3|]; lra).
  replace (2 * (- 3 / 32)) with (- 3 / 16) in H4 by lra.
  assert (H5 : 6857679 / 10000000 <= exp (2 * (- 3 / 16)))
    by (eapply exp_double_lower; [|exact H4|]; lra).
  replace (2 * (- 3 / 16)) with (- 3 / 8) in H5 by lra.
  assert (H6 : 587847 / 1250000 <= exp (2 * (- 3 / 8)))
    by (eapply exp_double_lower; [|exact H5|]; lra).
  replace (2 * (- 3 / 8)) with (- 3 / 4) in H6 by lra.
  assert (H7 : 221161 / 1000000 <= exp (2 * (- 3 / 4)))
    by (eapply exp_double_lower; [|exact H6|]; lra).
  replace (2 * (- 3 / 4)) with (- 3 / 2) in H7 by lra.
  assert (H8 : 489121 / 10000000 <= exp (2 * (- 3 / 2)))
    by (eapply exp_double_lower; [|exact H7|]; lra).
  replace (2 * (- 3 / 2)) with (- 3) in H8 by lra.
  exact H8.
Qed.

(** logistic(3.0) is within 0.001 of 0.953. *)
Lemma logistic_3 : 952 / 1000 < logistic 3 < 954 / 1000.
Proof.
  unfold logistic.
  pose proof exp_3_lower as Hl. pose proof exp_minus_3_lower as Hu.
  pose proof (exp_pos (- 3)) as Hp.
  assert (Hinv : exp (- 3) * exp 3 = 1)
    by (rewrite <- exp_plus; replace (- 3 + 3) with 0 by ring; apply exp_0).
  assert (Hup : exp (- 3) <= 1000000 / 19909229).
  { apply Rmult_le_reg_r with (19909229 / 1000000); [lra|].
    replace (1000000 / 19909229 * (19909229 / 1000000)) with 1 by lra.
    nra. }
  assert (Hd : 0 < 1 + exp (- 3)) by lra.
  split.
  - apply Rmult_lt_reg_r with (1 + exp (- 3)); [assumption|].
    unfold Rdiv at 2. rewrite Rmult_assoc, Rinv_l by lra. lra.
  - apply Rmult_lt_reg_r with (1 + exp (- 3)); [assumption|].
    unfold Rdiv at 1. rewrite Rmult_assoc, Rinv_l by lra. lra.
Qed.
End Logistic.

(** ** Z-score normalisation (DataProcessor.normalize_metric) *)

Section ZScore.
Import DataProcessor.



Lemma z_score_value_strict (mean s : R) (v : fval) :
  strictly01 (z_score_value mean s v).
Proof.
  destruct v as [x|]; simpl; eexists; (split; [reflexivity|]);
    apply logistic_strict.
Qed.





(** Two equal values: the deviation is zero and the group is flat. *)
Example std_of_equal_values : series_std [4; 4] = Some 0.
Proof.
  unfold series_std, series_mean, Rsum. simpl.
  transitivity (Some (sqrt 0)); [|now rewrite sqrt_0].
  do 2 f_equal. field.
Qed.

(** C10: in a group with exactly one present value the sample standard
    deviation is NaN, the test [std == 0] fails, and z-score normalisation
    maps every value of the group, the present one included, to
    logistic(3.0), which is 0.953 up to 0.001 and not 0.0. *)
Theorem z_score_of_single_value (values : list fval) (v0 : R) :
  dropna values = [v0] ->
  series_std [v0] = NaN
  /\ normalize_metric values "z-score"
     = map (fun _ => Some (logistic 3)) values
  /\ 952 / 1000 < logistic 3 < 954 / 1000.
Proof.
  intros Hd. split; [reflexivity|]. split; [|exact logistic_3].
  unfold normalize_metric. rewrite Hd. simpl.
  unfold z_score. simpl. rewrite !map_map. apply map_ext.
  intros [x|]; reflexivity.
Qed.

Lemma z_score_of_single_value_witness :
  normalize_metric [None; Some 5; None] "z-score"
  = map (fun _ => Some (logistic 3)) [None; Some 5; None].
Proof.
  exact (proj1 (proj2 (z_score_of_single_value [None; Some 5; None] 5
                         eq_refl))).
Defined.
End ZScore.

(** ** A protein group without any value of a metric *)

Example normalize_scrubbed_table :
  DataProcessor.normalize_data Samples.scrubbed_table "min-max"
  = [Samples.failed_pose_normalized; Samples.good_pose_normalized].
Proof. run. reflexivity. Qed.

(** C2 fails on the code: the group of CCND1 has no docking score, the group
    of KDR has one, so the normalised column exists and holds NaN on the row
    of CCND1; the docking category and the total score of that row are NaN,
    not the fallback 1.0. *)
Theorem absent_group_scores_nan :
  DataProcessor.normalize_data Samples.scrubbed_table "min-max"
  = [Samples.failed_pose_normalized; Samples.good_pose_normalized]
  /\ Dict.get "normalized_r_i_docking_score" (cols Samples.failed_pose_normalized)
     = Some NaN
  /\ MetricsProcessor.calculate_docking_score Samples.failed_pose_normalized []
     = NaN
  /\ MetricsProcessor.calculate_composite_score
       Samples.failed_pose_normalized REQUIRED_METRICS [] (4 / 10) (4 / 10) (2 / 10)
     = Ok (NaN, NaN, Some 0).
Proof.
  split; [exact normalize_scrubbed_table|].
  split; [reflexivity|]. split; run; same_reals.
Qed.

(** The defect in general: a NaN under the normalised column of one metric
    of the subset makes the whole category score NaN. *)
Lemma nan_poisons_sum (row : Row) (weights : Dict.t string R)
    (ms : list string) (m : string) :
  In m ms ->
  MetricsProcessor.get_normalized_value row m = NaN ->
  MetricsProcessor.sum_weighted row weights ms = NaN.
Proof.
  induction ms as [|m0 ms IH]; [intros []|].
  intros [->|Hm] Hv; cbn [MetricsProcessor.sum_weighted].
  - rewrite Hv. reflexivity.
  - rewrite (IH Hm Hv).
    destruct (MetricsProcessor.get_normalized_value row m0); reflexivity.
Qed.

Lemma nan_poisons_category (row : Row) (weights : Dict.t string R)
    (S : list string) (m : string) :
  In m (MetricsProcessor.valid_metrics row S) ->
  MetricsProcessor.get_normalized_value row m = NaN ->
  MetricsProcessor.sum_weights weights (MetricsProcessor.valid_metrics row S) <> 0 ->
  MetricsProcessor.calculate_weighted_score row S weights = NaN.
Proof.
  intros Hm Hv Hw. rewrite calculate_weighted_score_eq.
  unfold MetricsProcessor.category_score_spec.
  destruct (MetricsProcessor.valid_metrics row S) as [|m0 ms] eqn:E;
    [destruct Hm|].
  rewrite (proj2 (Reqb_neq _ _)) by assumption.
  now rewrite (nan_poisons_sum row weights (m0 :: ms) m Hm Hv).
Qed.

(** When no group at all has a value, no column is made and the category
    score is taken over the metrics that are left. *)
Example lone_group_without_value :
  DataProcessor.normalize_data [Samples.failed_pose] "min-max"
  = [ mkRow 1 1 "CCND1"
        [ ("r_i_docking_score", NaN);
          ("r_i_glide_gscore", Some (- 95 / 10));
          ("r_i_glide_emodel", Some (- 50));
          ("r_i_glide_energy", Some (- 30));
          ("normalized_r_i_glide_gscore", Some 0);
          ("normalized_r_i_glide_emodel", Some 0);
          ("normalized_r_i_glide_energy", Some 0) ] ].
Proof. run. reflexivity. Qed.

(** ** The category weights read from the configuration *)

Lemma py_or_falls_back (x : option R) (d : R) : falls_back x d (py_or x d).
Proof.
  unfold falls_back, py_or. destruct x as [r|]; [|reflexivity].
  destruct (Reqb r 0) eqn:E.
  - apply Reqb_eq in E. split; [reflexivity | contradiction].
  - apply Reqb_neq in E. split; [contradiction | reflexivity].
Qed.

Lemma py_or_nonzero (x : option R) (d : R) : d <> 0 -> py_or x d <> 0.
Proof.
  intros Hd. unfold py_or. destruct x as [r|]; [|assumption].
  destruct (Reqb r 0) eqn:E; [assumption | now apply Reqb_neq in E].
Qed.

(** C9: [score_data] and [score_conformation_protein_pairs] score every row
    with three category weights read from the configuration, a weight that
    is unset or 0.0 being replaced by its default 0.4, 0.4 or 0.2; the
    weights they use are therefore never zero. *)
Theorem category_weights_fall_back (config : Config.t) :
  exists docking_weight energy_weight optional_weight : R,
    falls_back (Config.get config "scoring" "docking_weight") (4 / 10) docking_weight
    /\ falls_back (Config.get config "scoring" "energy_weight") (4 / 10) energy_weight
    /\ falls_back (Config.get config "scoring" "optional_weight") (2 / 10) optional_weight
    /\ docking_weight <> 0 /\ energy_weight <> 0 /\ optional_weight <> 0
    /\ (forall data selected_metrics weights,
          Scorer.score_data config data selected_metrics weights
          = match data with
            | [] => Ok []
            | _ =>
                scores <- mapM (fun row =>
                            MetricsProcessor.calculate_composite_score
                              row selected_metrics weights
                              docking_weight energy_weight optional_weight) data ;;
                Ok (map (fun rs => Scorer.add_scores (fst rs) (snd rs))
                        (combine data scores))
            end)
    /\ (forall data selected_metrics weights,
          Scorer.score_conformation_protein_pairs config data selected_metrics weights
          = match data with
            | [] => Ok Dict.empty
            | _ =>
                foldM (Scorer.score_pair selected_metrics weights
                         docking_weight energy_weight optional_weight)
                      data Dict.empty
            end).
Proof.
  exists (py_or (Config.get config "scoring" "docking_weight") (4 / 10)),
         (py_or (Config.get config "scoring" "energy_weight") (4 / 10)),
         (py_or (Config.get config "scoring" "optional_weight") (2 / 10)).
  repeat split; try apply py_or_falls_back; try (apply py_or_nonzero; lra).
Qed.

(** A configuration that sets the docking weight to 0.0 scores as the
    default one does. *)
Example zero_docking_weight_is_default :
  Scorer.score_data
    (Config.set Config.DEFAULT_CONFIG "scoring" "docking_weight" 0)
    [Samples.mixed_row] REQUIRED_METRICS []
  = Scorer.score_data Config.DEFAULT_CONFIG
      [Samples.mixed_row] REQUIRED_METRICS [].
Proof. run. same_reals. Qed.

(** ** Dictionaries *)

Section DictFacts.
Context {K V : Type} `{KeyLaws K}.
Implicit Types (d : Dict.t K V) (k : K) (v : V).

Lemma keqb_refl k : keqb k k = true.
Proof. now apply keqb_eq. Qed.

Lemma keqb_neq k k' : k <> k' -> keqb k k' = false.
Proof.
  intros Hne. destruct (keqb k k') eqn:E; [|reflexivity].
  now apply keqb_eq in E.
Qed.

Lemma keqb_false k k' : keqb k k' = false -> k <> k'.
Proof. intros E ->. rewrite keqb_refl in E. discriminate. Qed.

Lemma get_set_same k v d : Dict.get k (Dict.set k v d) = Some v.
Proof.
  induction d as [|[k' v'] d IH]; simpl.
  - now rewrite keqb_refl.
  - destruct (keqb k k') eqn:E; simpl; rewrite E; [reflexivity | exact IH].
Qed.

Lemma get_set_other k k' v d :
  k' <> k -> Dict.get k' (Dict.set k v d) = Dict.get k' d.
Proof.
  intros Hne. induction d as [|[k0 v0] d IH]; simpl.
  - now rewrite keqb_neq.
  - destruct (keqb k k0) eqn:E; simpl.
    + apply keqb_eq in E. subst k0. now rewrite !keqb_neq.
    + now rewrite IH.
Qed.

Lemma mem_in_keys k d : Dict.mem k d = true <-> In k (Dict.keys d).
Proof.
  unfold Dict.mem. induction d as [|[k' v'] d IH]; simpl.
  - split; [discriminate | tauto].
  - destruct (keqb k k') eqn:E.
    + apply keqb_eq in E. subst. split; auto.
    + rewrite IH. apply keqb_false in E. split; [auto | intros [?|?]; congruence].
Qed.

Lemma mem_false_keys k d : Dict.mem k d = false <-> ~ In k (Dict.keys d).
Proof.
  rewrite <- mem_in_keys. destruct (Dict.mem k d); split; congruence.
Qed.

Lemma keys_set k v d :
  Dict.keys (Dict.set k v d)
  = if Dict.mem k d then Dict.keys d else (Dict.keys d ++ [k])%list.
Proof.
  unfold Dict.mem, Dict.keys. induction d as [|[k' v'] d IH]; simpl.
  - reflexivity.
  - destruct (keqb k k') eqn:E; simpl; [reflexivity|].
    rewrite IH. now destruct (Dict.get k d).
Qed.

Lemma get_none_keys k d : Dict.get k d = None <-> ~ In k (Dict.keys d).
Proof.
  rewrite <- mem_false_keys. unfold Dict.mem.
  destruct (Dict.get k d); split; congruence.
Qed.

(** A dictionary is its keys, each with the value found under it. *)
Lemma dict_ext d1 d2 :
  NoDup (Dict.keys d1) ->
  Dict.keys d1 = Dict.keys d2 ->
  (forall k, Dict.get k d1 = Dict.get k d2) ->
  d1 = d2.
Proof.
  revert d2. induction d1 as [|[k1 v1] d1 IH]; intros [|[k2 v2] d2] Hnd Hk Hg;
    simpl in *; try discriminate; [reflexivity|].
  injection Hk as Ek Hkeys. subst k2.
  apply NoDup_cons_iff in Hnd. destruct Hnd as [Hnotin Hnd].
  pose proof (Hg k1) as E. simpl in E. rewrite keqb_refl in E.
  inversion E; subst v2. f_equal.
  apply IH; [assumption | assumption|].
  intros k. specialize (Hg k). simpl in Hg.
  destruct (keqb k k1) eqn:Ek; [|exact Hg].
  apply keqb_eq in Ek. subst k.
  assert (G1 : Dict.get k1 d1 = None) by now apply get_none_keys.
  assert (G2 : Dict.get k1 d2 = None).
  { apply get_none_keys. unfold Dict.keys in *. now rewrite <- Hkeys. }
  now rewrite G1, G2.
Qed.

Lemma in_items_get k v d :
  NoDup (Dict.keys d) -> In (k, v) (Dict.items d) -> Dict.get k d = Some v.
Proof.
  unfold Dict.items. induction d as [|[k' v'] d IH]; simpl; [tauto|].
  intros Hnd HI. apply NoDup_cons_iff in Hnd. destruct Hnd as [Hnotin Hnd].
  destruct HI as [E|I].
  - inversion E; subst. now rewrite keqb_refl.
  - destruct (keqb k k') eqn:Ek; [|now apply IH].
    apply keqb_eq in Ek. subst k'. exfalso. apply Hnotin.
    apply in_map_iff. now exists (k, v).
Qed.
End DictFacts.

Section UniqueFacts.
Context {K : Type} `{KeyLaws K}.
Implicit Types (l : list K) (x : K).

Lemma in_unique x l : In x (unique l) <-> In x l.
Proof.
  induction l as [|y l IH]; simpl; [tauto|].
  rewrite filter_In, IH. split.
  - intros [E|[I _]]; auto.
  - intros [E|I]; [auto|].
    destruct (keqb x y) eqn:Exy.
    + apply keqb_eq in Exy. auto.
    + right. split; [assumption | reflexivity].
Qed.

Lemma NoDup_unique l : NoDup (unique l).
Proof.
  induction l as [|y l IH]; simpl; constructor.
  - rewrite filter_In. intros [_ E]. rewrite keqb_refl in E. discriminate.
  - now apply NoDup_filter.
Qed.

Lemma unique_snoc l x :
  unique (l ++ [x])
  = if existsb (keqb x) l then unique l else (unique l ++ [x])%list.
Proof.
  induction l as [|y l IH]; simpl; [reflexivity|].
  rewrite IH. destruct (keqb x y) eqn:Exy; simpl.
  - destruct (existsb (keqb x) l); [reflexivity|].
    rewrite filter_app; simpl. rewrite Exy; simpl. now rewrite app_nil_r.
  - destruct (existsb (keqb x) l); [reflexivity|].
    rewrite filter_app; simpl. rewrite Exy; simpl. reflexivity.
Qed.

Lemma existsb_keqb x l : existsb (keqb x) l = true <-> In x l.
Proof.
  rewrite existsb_exists. split.
  - intros [y [I E]]. apply keqb_eq in E. now subst.
  - intros I. exists x. split; [assumption | apply keqb_refl].
Qed.

Lemma unique_NoDup l : NoDup l -> unique l = l.
Proof.
  induction 1 as [|x l Hx Hnd IH]; simpl; [reflexivity|].
  rewrite IH. f_equal. apply forallb_filter_id. apply forallb_forall.
  intros y Hy. destruct (keqb y x) eqn:E; [|reflexivity].
  apply keqb_eq in E. now subst.
Qed.
End UniqueFacts.

(** ** [min] and [list.sort] *)

Section OrderingFacts.
Context {A K : Type} (lt : K -> K -> bool) (key : A -> K).

Lemma insert_perm (x : A) (l : list A) :
  Permutation (insert lt key x l) (x :: l).
Proof.
  induction l as [|y l IH]; simpl; [reflexivity|].
  destruct (lt (key y) (key x)); [|reflexivity].
  rewrite IH. apply perm_swap.
Qed.

Lemma sort_by_perm (l : list A) : Permutation (sort_by lt key l) l.
Proof.
  induction l as [|x l IH]; simpl; [reflexivity|].
  rewrite insert_perm. now constructor.
Qed.

Lemma in_sort_by (x : A) (l : list A) : In x (sort_by lt key l) <-> In x l.
Proof.
  split; apply Permutation_in;
    [apply sort_by_perm | symmetry; apply sort_by_perm].
Qed.
End OrderingFacts.

Section MinFacts.
Context {A : Type} (key : A -> fval).

Lemma below_not_above a b : below key a b -> not_above key a b.
Proof. intros (ta & tb & ? & ? & ?). exists ta, tb. repeat split; auto; lra. Qed.

Lemma below_trans a b c : below key a b -> not_above key b c -> below key a c.
Proof.
  intros (ta & tb & Ea & Eb & ?) (tb' & tc & Eb' & Ec & ?).
  rewrite Eb in Eb'. inversion Eb'; subst.
  exists ta, tc. repeat split; auto; lra.
Qed.

Lemma not_above_refl a : finite (key a) -> not_above key a a.
Proof. intros [t E]. exists t, t. repeat split; auto; lra. Qed.

Lemma min_from_scan (rest pre mid : list A) (best : A) :
  Forall (fun y => finite (key y)) (best :: rest) ->
  Forall (below key best) pre ->
  Forall (not_above key best) mid ->
  exists l1 l2,
    (pre ++ best :: mid ++ rest = l1 ++ min_from flt key best rest :: l2)%list
    /\ Forall (below key (min_from flt key best rest)) l1
    /\ Forall (not_above key (min_from flt key best rest)) l2.
Proof.
  revert pre mid best.
  induction rest as [|x rest IH]; intros pre mid best Hfin Hpre Hmid; simpl.
  - exists pre, mid. rewrite app_nil_r. auto.
  - inversion Hfin as [|? ? [tb Eb] Hfin']; subst.
    inversion Hfin' as [|? ? [tx Ex] Hfin'']; subst.
    rewrite Ex, Eb; simpl. destruct (Rltb tx tb) eqn:E.
    + apply Rltb_lt in E.
      assert (Hxb : below key x best) by (exists tx, tb; auto).
      destruct (IH (pre ++ best :: mid)%list [] x) as (l1 & l2 & E12 & H1 & H2).
      * constructor; [now exists tx | assumption].
      * apply Forall_app; split.
        -- eapply Forall_impl; [|exact Hpre]. intros y Hy.
           eapply below_trans; [exact Hxb | now apply below_not_above].
        -- constructor; [assumption|].
           eapply Forall_impl; [|exact Hmid]. intros y Hy.
           eapply below_trans; eassumption.
      * constructor.
      * exists l1, l2. split; [|auto].
        rewrite <- E12. simpl. now rewrite <- !app_assoc.
    + apply Rltb_ge in E.
      destruct (IH pre (mid ++ [x])%list best) as (l1 & l2 & E12 & H1 & H2).
      * constructor; [now exists tb | assumption].
      * assumption.
      * apply Forall_app; split; [assumption|].
        constructor; [|constructor]. exists tb, tx. auto.
      * exists l1, l2. split; [|auto].
        rewrite <- E12. now rewrite <- app_assoc.
Qed.

(** [min] returns the first of the smallest elements. *)
Lemma py_min_first_minimum (x : A) (l : list A) :
  Forall (fun y => finite (key y)) (x :: l) ->
  exists m l1 l2,
    py_min flt key (x :: l) = Ok m
    /\ (x :: l = l1 ++ m :: l2)%list
    /\ Forall (below key m) l1
    /\ Forall (not_above key m) l2.
Proof.
  intros Hfin.
  destruct (min_from_scan l [] [] x Hfin) as (l1 & l2 & E & H1 & H2);
    try constructor.
  exists (min_from flt key x l), l1, l2. auto.
Qed.
End MinFacts.

(** ** Pairing rows and proteins (Scorer.score_conformation_protein_pairs) *)

Lemma mapM_ok {A B : Type} (f : A -> result B) (P : A -> B -> Prop) (l : list A) :
  (forall x, In x l -> exists y, f x = Ok y /\ P x y) ->
  exists ys, mapM f l = Ok ys /\ Forall2 P l ys.
Proof.
  induction l as [|x l IH]; intros Hl; simpl.
  - exists []. split; [reflexivity | constructor].
  - destruct (Hl x (or_introl eq_refl)) as [y [Ey Py]].
    destruct IH as [ys [Eys Pys]]; [intros z Hz; apply Hl; now right|].
    rewrite Ey, Eys; simpl. exists (y :: ys). split; [reflexivity|].
    now constructor.
Qed.

Lemma foldM_ok {A S : Type} (f : S -> A -> result S) (g : S -> A -> S)
    (l : list A) (s : S) :
  (forall x s', In x l -> f s' x = Ok (g s' x)) ->
  foldM f l s = Ok (fold_left g l s).
Proof.
  revert s; induction l as [|x l IH]; intros s Hl; simpl; [reflexivity|].
  rewrite (Hl x s (or_introl eq_refl)); simpl.
  apply IH. intros y s' Hy. apply Hl. now right.
Qed.

Lemma set_set_same {K V : Type} `{KeyLaws K} (k : K) (v v' : V) (d : Dict.t K V) :
  Dict.set k v (Dict.set k v' d) = Dict.set k v d.
Proof.
  induction d as [|[k0 v0] d IH]; simpl.
  - now rewrite keqb_refl.
  - destruct (keqb k k0) eqn:E; simpl; rewrite E; [reflexivity | now rewrite IH].
Qed.

Section Pairing.
Variable config : Config.t.
Variable selected_metrics : list string.
Variable weights : Dict.t string R.

Let sc := scores_of config selected_metrics weights.
Let kv (r : Row) : string * Scorer.Scores := (protein_name r, sc r).

Lemma score_pair_pure (D : Scorer.Pairs) (r : Row) t d e :
  scoring config selected_metrics weights r = Ok (t, d, e) ->
  Scorer.score_pair selected_metrics weights
    (py_or (Config.get config "scoring" "docking_weight") (4 / 10))
    (py_or (Config.get config "scoring" "energy_weight") (4 / 10))
    (py_or (Config.get config "scoring" "optional_weight") (2 / 10)) D r
  = Ok (pure_pair config selected_metrics weights D r).
Proof.
  intros Hs. unfold Scorer.score_pair, pure_pair, inner, scores_of.
  rewrite Hs. unfold scoring in Hs. rewrite Hs. simpl.
  fold (identity r). unfold Dict.mem.
  destruct (Dict.get (identity r) D) as [ps|] eqn:G.
  - rewrite G. reflexivity.
  - rewrite get_set_same. unfold Dict.empty. now rewrite set_set_same.
Qed.

Lemma of_list_snoc kvs k v :
  of_list (kvs ++ [(k, v)]) = Dict.set k v (of_list kvs).
Proof. unfold of_list. now rewrite fold_left_app. Qed.

Lemma keys_of_list kvs : Dict.keys (of_list kvs) = unique (map fst kvs).
Proof.
  induction kvs as [|[k v] kvs IH] using rev_ind; [reflexivity|].
  rewrite of_list_snoc, keys_set, map_app. simpl (map fst [_]).
  rewrite unique_snoc, IH.
  destruct (Dict.mem k (of_list kvs)) eqn:M.
  - apply mem_in_keys in M. rewrite IH, in_unique in M.
    apply existsb_keqb in M. now rewrite M.
  - apply mem_false_keys in M. rewrite IH, in_unique in M.
    destruct (existsb (keqb k) (map fst kvs)) eqn:E; [|reflexivity].
    apply existsb_keqb in E. contradiction.
Qed.

Lemma last_row_of_snoc p rows r :
  last_row_of p (rows ++ [r])
  = if String.eqb (protein_name r) p then Some r else last_row_of p rows.
Proof.
  induction rows as [|r0 rows IH]; simpl.
  - reflexivity.
  - rewrite IH. destruct (String.eqb (protein_name r) p); reflexivity.
Qed.

Lemma last_row_of_none p rows :
  ~ In p (map protein_name rows) -> last_row_of p rows = None.
Proof.
  induction rows as [|r0 rows IH]; simpl; [reflexivity|].
  intros N. rewrite IH by tauto.
  destruct (String.eqb (protein_name r0) p) eqn:E; [|reflexivity].
  apply String.eqb_eq in E. tauto.
Qed.

Lemma last_row_of_some p rows :
  In p (map protein_name rows) ->
  exists r, last_row_of p rows = Some r /\ protein_name r = p /\ In r rows.
Proof.
  induction rows as [|r rows IH] using rev_ind; simpl; [tauto|].
  rewrite map_app, in_app_iff, last_row_of_snoc. simpl. intros HI.
  destruct (String.eqb (protein_name r) p) eqn:E.
  - apply String.eqb_eq in E. exists r. rewrite in_app_iff. simpl. auto.
  - destruct HI as [I|[Ep|[]]].
    + destruct (IH I) as (r' & L & Hp & Hr). exists r'.
      rewrite in_app_iff. auto.
    + subst p. now rewrite String.eqb_refl in E.
Qed.

Lemma get_of_list p rows :
  Dict.get p (of_list (map kv rows)) = option_map sc (last_row_of p rows).
Proof.
  induction rows as [|r rows IH] using rev_ind; [reflexivity|].
  rewrite map_app. simpl map. unfold kv at 2. rewrite of_list_snoc.
  rewrite last_row_of_snoc.
  destruct (String.eqb (protein_name r) p) eqn:E.
  - apply String.eqb_eq in E. subst p. now rewrite get_set_same.
  - rewrite get_set_other; [exact IH|].
    intros ->. now rewrite String.eqb_refl in E.
Qed.

(** One candidate per protein that occurs, in the order of the proteins. *)
Let pick (rows : list Row) (p : string) : list Row :=
  match last_row_of p rows with Some r => [r] | None => [] end.

Lemma picks_proteins rows U :
  (forall q, In q U -> In q (map protein_name rows)) ->
  map protein_name (flat_map (pick rows) U) = U.
Proof.
  induction U as [|q U IH]; intros HU; simpl; [reflexivity|].
  destruct (last_row_of_some q rows) as (r & L & Hp & _);
    [apply HU; now left|].
  unfold pick at 1. rewrite L. simpl. rewrite Hp. f_equal.
  apply IH. intros q' Hq'. apply HU. now right.
Qed.

Lemma picks_get rows U p :
  (forall q, In q U -> In q (map protein_name rows)) ->
  Dict.get p (map kv (flat_map (pick rows) U))
  = if existsb (String.eqb p) U then option_map sc (last_row_of p rows)
    else None.
Proof.
  induction U as [|q U IH]; intros HU; simpl; [reflexivity|].
  destruct (last_row_of_some q rows) as (r & L & Hp & _);
    [apply HU; now left|].
  unfold pick at 1. rewrite L. simpl. rewrite Hp.
  destruct (String.eqb p q) eqn:E; simpl.
  - apply String.eqb_eq in E. rewrite E. now rewrite L.
  - apply IH. intros q' Hq'. apply HU. now right.
Qed.

Lemma of_list_candidates rows :
  of_list (map kv rows)
  = map kv (flat_map (pick rows) (unique (map protein_name rows))).
Proof.
  assert (HU : forall q, In q (unique (map protein_name rows)) ->
                         In q (map protein_name rows))
    by (intros q; apply in_unique).
  apply dict_ext.
  - rewrite keys_of_list. apply NoDup_unique.
  - rewrite keys_of_list. unfold Dict.keys. rewrite !map_map. simpl.
    change (map (fun x : Row => protein_name x)) with (map protein_name).
    now rewrite picks_proteins.
  - intros p. rewrite get_of_list, picks_get by assumption.
    destruct (existsb (String.eqb p) (unique (map protein_name rows))) eqn:E;
      [reflexivity|].
    rewrite last_row_of_none; [reflexivity|].
    intros HI. apply in_unique in HI.
    apply (existsb_keqb (K := string)) in HI. unfold keqb in HI; simpl in HI.
    congruence.
Qed.

Lemma rows_of_snoc c data r :
  rows_of c (data ++ [r])
  = (rows_of c data ++ if keqb (identity r) c then [r] else [])%list.
Proof.
  unfold rows_of. rewrite filter_app. simpl.
  now destruct (keqb (identity r) c).
Qed.

Lemma pairs_invariant (data : list Row) :
  let D := fold_left (pure_pair config selected_metrics weights) data [] in
  Dict.keys D = unique (map identity data)
  /\ forall c, inner c D = of_list (map kv (rows_of c data)).
Proof.
  induction data as [|r data [IHk IHi]] using rev_ind; simpl.
  - split; [reflexivity | intros c; reflexivity].
  - rewrite fold_left_app. simpl.
    set (D := fold_left (pure_pair config selected_metrics weights) data []) in *.
    unfold pure_pair. split.
    + rewrite keys_set, map_app. simpl (map identity [_]).
      rewrite unique_snoc, IHk.
      destruct (Dict.mem (identity r) D) eqn:M.
      * apply mem_in_keys in M. rewrite IHk, in_unique in M.
        apply existsb_keqb in M. now rewrite M.
      * apply mem_false_keys in M. rewrite IHk, in_unique in M.
        destruct (existsb (keqb (identity r)) (map identity data)) eqn:E;
          [|reflexivity].
        apply existsb_keqb in E. contradiction.
    + intros c. rewrite rows_of_snoc, map_app. unfold inner at 1.
      destruct (keqb (identity r) c) eqn:E.
      * apply keqb_eq in E. subst c. rewrite get_set_same.
        simpl map. unfold kv at 2. rewrite of_list_snoc. now rewrite IHi.
      * rewrite get_set_other by (intros ->; now rewrite keqb_refl in E).
        simpl. rewrite app_nil_r. apply IHi.
Qed.

Lemma pairs_as_map (D : Scorer.Pairs) :
  NoDup (Dict.keys D) -> D = map (fun c => (c, inner c D)) (Dict.keys D).
Proof.
  induction D as [|[k v] D IH]; simpl; [reflexivity|].
  intros Hnd. apply NoDup_cons_iff in Hnd. destruct Hnd as [Hk Hnd].
  unfold inner at 1. cbn [Dict.get]. rewrite keqb_refl. f_equal.
  rewrite IH at 1 by assumption. apply map_ext_in.
  intros c Hc. unfold inner. cbn [Dict.get].
  rewrite keqb_neq; [reflexivity|]. intros ->. contradiction.
Qed.

(** The pairs, once every row scores: the identities in order of first
    appearance, each with its candidates. *)
Lemma pairs_of_table (data : list Row) :
  (forall r, In r data ->
     exists s, scoring config selected_metrics weights r = Ok s) ->
  Scorer.score_conformation_protein_pairs config data selected_metrics weights
  = Ok (map (fun c => (c, map kv (candidates c data)))
            (unique (map identity data))).
Proof.
  intros Hok.
  assert (E : Scorer.score_conformation_protein_pairs
                config data selected_metrics weights
              = Ok (fold_left (pure_pair config selected_metrics weights) data [])).
  { unfold Scorer.score_conformation_protein_pairs.
    destruct data as [|r0 data0]; [reflexivity|].
    apply foldM_ok. intros r D Hr.
    destruct (Hok r Hr) as [[[t d] e] Es].
    now apply score_pair_pure with t d e. }
  rewrite E. f_equal.
  destruct (pairs_invariant data) as [Hk Hi].
  rewrite pairs_as_map at 1 by (rewrite Hk; apply NoDup_unique).
  rewrite Hk. apply map_ext. intros c. f_equal.
  rewrite Hi. apply of_list_candidates.
Qed.
End Pairing.

(** ** The best protein of every conformation (Ranker.rank_conformations) *)

Lemma Forall2_in_right {A B : Type} (P : A -> B -> Prop) (l : list A)
    (ys : list B) (y : B) :
  Forall2 P l ys -> In y ys -> exists x, In x l /\ P x y.
Proof.
  induction 1 as [|x y' l ys Pxy F IH]; simpl; [tauto|].
  intros [E|I].
  - subst. exists x. auto.
  - destruct (IH I) as [x' [Hx' Px']]. exists x'. auto.
Qed.

Section Selection.
Variable config : Config.t.
Variable selected_metrics : list string.
Variable weights : Dict.t string R.

Let sc := scores_of config selected_metrics weights.
Let kv (r : Row) : string * Scorer.Scores := (protein_name r, sc r).
Let total := total_of config selected_metrics weights.
Let key (x : string * Scorer.Scores) : fval := Scorer.total_score (snd x).

Lemma total_score_sc (r : Row) : Scorer.total_score (sc r) = total r.
Proof.
  unfold sc, scores_of, total, total_of.
  now destruct (scoring config selected_metrics weights r) as [[[t d] e]|].
Qed.

Lemma raw_data_sc (r : Row) : Scorer.raw_data (sc r) = r.
Proof.
  unfold sc, scores_of.
  now destruct (scoring config selected_metrics weights r) as [[[t d] e]|].
Qed.

Lemma scoring_sc (r : Row) :
  finite (total r) ->
  scoring config selected_metrics weights r
  = Ok (Scorer.total_score (sc r), Scorer.docking_score (sc r),
        Scorer.energy_score (sc r)).
Proof.
  unfold sc, scores_of, total, total_of. intros [t E].
  destruct (scoring config selected_metrics weights r) as [[[t' d] e]|];
    [reflexivity | discriminate].
Qed.

Lemma candidates_are_rows (c : conf_id) (data : list Row) (r : Row) :
  In r (candidates c data) -> In r data /\ identity r = c.
Proof.
  unfold candidates. rewrite in_flat_map. intros (p & _ & Hr).
  assert (Hin : In r (rows_of c data)).
  { destruct (in_dec string_dec p (map protein_name (rows_of c data)))
      as [I|N].
    - destruct (last_row_of_some p _ I) as (r' & L & _ & Hr').
      rewrite L in Hr. destruct Hr as [<-|[]]. assumption.
    - rewrite last_row_of_none in Hr by assumption. destruct Hr. }
  unfold rows_of in Hin. apply filter_In in Hin. destruct Hin as [Hd Hc].
  split; [assumption | now apply keqb_eq].
Qed.

Lemma candidates_nonempty (c : conf_id) (data : list Row) :
  In c (map identity data) -> candidates c data <> [].
Proof.
  intros Hc. apply in_map_iff in Hc. destruct Hc as (r0 & E0 & H0).
  assert (Hr : In r0 (rows_of c data)).
  { unfold rows_of. apply filter_In. split; [assumption|].
    now apply keqb_eq. }
  unfold candidates.
  destruct (rows_of c data) as [|r1 rows] eqn:Er; [destruct Hr|].
  simpl unique. cbn [flat_map].
  destruct (last_row_of_some (protein_name r1) (r1 :: rows)) as (r & L & _);
    [now left|].
  rewrite L. discriminate.
Qed.

Lemma below_kv r y : below key (kv r) (kv y) <-> below total r y.
Proof. unfold below, key, kv; simpl. now rewrite !total_score_sc. Qed.

Lemma not_above_kv r y : not_above key (kv r) (kv y) <-> not_above total r y.
Proof. unfold not_above, key, kv; simpl. now rewrite !total_score_sc. Qed.

(** What the selection loop does with the candidates of one identity. *)
Lemma best_of_candidates (c : conf_id) (cands : list Row) :
  cands <> [] ->
  Forall (fun r => finite (total r)) cands ->
  exists e before r after,
    Ranker.best_of (c, map kv cands) = Ok e
    /\ Ranker.conf e = c
    /\ cands = (before ++ r :: after)%list
    /\ Ranker.raw_data e = r
    /\ Ranker.best_protein e = protein_name r
    /\ scoring config selected_metrics weights r
       = Ok (Ranker.total_score e, Ranker.docking_score e,
             Ranker.energy_score e)
    /\ Forall (below total r) before
    /\ Forall (not_above total r) after.
Proof.
  intros Hne Hfin. destruct cands as [|r0 cands]; [contradiction|].
  assert (Hk : Forall (fun y => finite (key y)) (map kv (r0 :: cands))).
  { apply Forall_map. eapply Forall_impl; [|exact Hfin].
    intros r Hr. unfold key, kv; simpl. now rewrite total_score_sc. }
  simpl map in Hk.
  destruct (py_min_first_minimum key (kv r0) (map kv cands) Hk)
    as (m & l1 & l2 & Em & E12 & H1 & H2).
  change (kv r0 :: map kv cands) with (map kv (r0 :: cands)) in E12.
  apply map_eq_app in E12. destruct E12 as (before & rest & Ec & Eb & Er).
  apply map_eq_cons in Er. destruct Er as (r & after & Erest & Ekv & Ea).
  subst rest l1 l2 m.
  unfold Ranker.best_of. unfold Dict.items. simpl map.
  unfold key in Em. rewrite Em. simpl.
  eexists; exists before, r, after. split; [reflexivity|]. simpl.
  split; [reflexivity|]. split; [assumption|].
  split; [apply raw_data_sc|]. split; [reflexivity|].
  split.
  - apply scoring_sc. rewrite Forall_forall in Hfin. apply Hfin.
    rewrite Ec. apply in_elt.
  - split.
    + rewrite Forall_map in H1. eapply Forall_impl; [|exact H1].
      intros y. apply below_kv.
    + rewrite Forall_map in H2. eapply Forall_impl; [|exact H2].
      intros y. apply not_above_kv.
Qed.

Lemma rank_conformations_eq (data : list Row) :
  Ranker.rank_conformations config data selected_metrics weights
  = (conformations <- Scorer.score_conformation_protein_pairs
                        config data selected_metrics weights ;;
     result <- mapM Ranker.best_of (Dict.items conformations) ;;
     Ok (sort_by flt Ranker.total_score result)).
Proof.
  unfold Ranker.rank_conformations. destruct data as [|r data]; [reflexivity|].
  destruct (Scorer.score_conformation_protein_pairs _ _ _ _) as [[|x D]|];
    reflexivity.
Qed.

(** C3, as the code has it: when every row has a total score, there is
    one ranking entry per identity, and it is taken from the candidates of
    the identity (one row per protein, the last one of the protein, the
    proteins in order of first appearance): it carries the scores, the
    protein and the raw data of the first candidate whose total score is
    the smallest; the candidates before it have a strictly greater total
    score, the ones after it one that is not smaller. *)
Theorem best_candidate_per_identity (data : list Row) :
  (forall r, In r data -> finite (total_of config selected_metrics weights r)) ->
  exists ranking,
    Ranker.rank_conformations config data selected_metrics weights = Ok ranking
    /\ Permutation (map Ranker.conf ranking) (unique (map identity data))
    /\ forall e, In e ranking ->
         exists before r after,
           candidates (Ranker.conf e) data = (before ++ r :: after)%list
           /\ Ranker.raw_data e = r
           /\ Ranker.best_protein e = protein_name r
           /\ scoring config selected_metrics weights r
              = Ok (Ranker.total_score e, Ranker.docking_score e,
                    Ranker.energy_score e)
           /\ Forall (below (total_of config selected_metrics weights) r) before
           /\ Forall (not_above (total_of config selected_metrics weights) r) after.
Proof.
  intros Hfin. fold total in Hfin |- *.
  assert (Hok : forall r, In r data ->
            exists s, scoring config selected_metrics weights r = Ok s).
  { intros r Hr. destruct (Hfin r Hr) as [t Et]. unfold total, total_of in Et.
    destruct (scoring config selected_metrics weights r) as [s|];
      [now exists s | discriminate]. }
  rewrite rank_conformations_eq, (pairs_of_table _ _ _ _ Hok). simpl bind.
  unfold Dict.items.
  set (P := fun (x : conf_id * Dict.t string Scorer.Scores) (e : Ranker.ConfEntry) =>
              Ranker.conf e = fst x
              /\ exists before r after,
                   candidates (fst x) data = (before ++ r :: after)%list
                   /\ Ranker.raw_data e = r
                   /\ Ranker.best_protein e = protein_name r
                   /\ scoring config selected_metrics weights r
                      = Ok (Ranker.total_score e, Ranker.docking_score e,
                            Ranker.energy_score e)
                   /\ Forall (below total r) before
                   /\ Forall (not_above total r) after).
  assert (HP : forall x,
            In x (map (fun c => (c, map (fun r => (protein_name r,
                                scores_of config selected_metrics weights r))
                               (candidates c data)))
                   (unique (map identity data))) ->
            exists y, Ranker.best_of x = Ok y /\ P x y).
  { intros x Hx. apply in_map_iff in Hx. destruct Hx as (c & <- & Hc).
    apply (proj1 (in_unique _ _)) in Hc.
    destruct (best_of_candidates c (candidates c data))
      as (e & before & r & after & Ee & Hconf & Hrest).
    - now apply candidates_nonempty.
    - apply Forall_forall. intros r Hr. apply Hfin.
      now apply candidates_are_rows in Hr.
    - exists e. split; [exact Ee|]. split; [exact Hconf|].
      exists before, r, after. exact Hrest. }
  destruct (mapM_ok Ranker.best_of P _ HP) as (ys & Eys & Fys).
  rewrite Eys. simpl. eexists; split; [reflexivity|]. split.
  - rewrite (Permutation_map Ranker.conf (sort_by_perm flt Ranker.total_score ys)).
    assert (E : map Ranker.conf ys = unique (map identity data)).
    { clear Eys. revert Fys. generalize (unique (map identity data)).
      intros U. revert ys. induction U as [|c U IH]; intros ys F;
        inversion F; subst; simpl; [reflexivity|].
      f_equal; [|now apply IH].
      match goal with HP : P _ _ |- _ => destruct HP as [HP _]; exact HP end. }
    now rewrite E.
  - intros e He. apply in_sort_by in He.
    destruct (Forall2_in_right _ _ _ _ Fys He) as (x & Hx & Hconf & Hrest).
    rewrite Hconf. exact Hrest.
Qed.
End Selection.

Lemma NoDup_map_injective {A B : Type} (f : A -> B) (l : list A) (x y : A) :
  NoDup (map f l) -> In x l -> In y l -> f x = f y -> x = y.
Proof.
  induction l as [|a l IH]; simpl; [tauto|].
  intros Hnd Hx Hy E. apply NoDup_cons_iff in Hnd. destruct Hnd as [Ha Hnd].
  destruct Hx as [<-|Hx], Hy as [<-|Hy]; auto.
  - exfalso. apply Ha. rewrite E. now apply in_map.
  - exfalso. apply Ha. rewrite <- E. now apply in_map.
Qed.

(** When no protein has two rows for the identity, as the specification
    assumes, the candidates are all the rows of the identity, in row order. *)
Lemma candidates_without_duplicates (c : conf_id) (data : list Row) :
  NoDup (map protein_name (rows_of c data)) ->
  candidates c data = rows_of c data.
Proof.
  intros Hnd. unfold candidates. rewrite unique_NoDup by assumption.
  set (rows := rows_of c data) in *.
  assert (G : forall l, (forall r, In r l -> In r rows) ->
            flat_map (fun p => match last_row_of p rows with
                               | Some r => [r]
                               | None => []
                               end) (map protein_name l) = l).
  { induction l as [|r l IH]; intros Hl; simpl; [reflexivity|].
    destruct (last_row_of_some (protein_name r) rows) as (r' & L & Hp & Hr').
    - apply in_map. apply Hl. now left.
    - rewrite L. simpl.
      assert (r' = r).
      { apply (NoDup_map_injective protein_name rows); auto.
        apply Hl. now left. }
      subst r'. f_equal. apply IH. intros r0 Hr0. apply Hl. now right. }
  apply G. auto.
Qed.

Example rank_duplicated_rows :
  Ranker.rank_conformations Config.DEFAULT_CONFIG Samples.duplicated
    REQUIRED_METRICS []
  = Ok [ Ranker.mkConfEntry (1, 1)%Z 1 1 (Some 1) (Some 1) (Some 1)
           "CCND1" Samples.worst_row ].
Proof. run. same_reals. Qed.

Example total_of_best_row :
  total_of Config.DEFAULT_CONFIG REQUIRED_METRICS [] Samples.best_row = Some 0.
Proof. run. same_reals. Qed.

Example total_of_worst_row :
  total_of Config.DEFAULT_CONFIG REQUIRED_METRICS [] Samples.worst_row = Some 1.
Proof. run. same_reals. Qed.

Example total_of_mixed_row :
  total_of Config.DEFAULT_CONFIG REQUIRED_METRICS [] Samples.mixed_row
  = Some (1 / 2).
Proof. run. same_reals. Qed.

(** C3 does not hold as stated: a second row for the same identity and the
    same protein replaces the first one, so the entry does not carry the
    smallest total score of the rows of the identity. *)
Lemma duplicate_rows_are_replaced :
  ~ (forall (config : Config.t) (data : list Row)
       (selected_metrics : list string) (weights : Dict.t string R)
       (ranking : list Ranker.ConfEntry),
       (forall r, In r data ->
          finite (total_of config selected_metrics weights r)) ->
       Ranker.rank_conformations config data selected_metrics weights
       = Ok ranking ->
       forall e r, In e ranking -> In r data ->
         identity r = Ranker.conf e ->
         exists te tr,
           Ranker.total_score e = Some te
           /\ total_of config selected_metrics weights r = Some tr
           /\ te <= tr).
Proof.
  intros H.
  assert (Hfin : forall r, In r Samples.duplicated ->
            finite (total_of Config.DEFAULT_CONFIG REQUIRED_METRICS [] r)).
  { intros r [<-|[<-|[]]].
    - exists 0. exact total_of_best_row.
    - exists 1. exact total_of_worst_row. }
  destruct (H Config.DEFAULT_CONFIG Samples.duplicated REQUIRED_METRICS [] _
              Hfin rank_duplicated_rows _ Samples.best_row
              (or_introl eq_refl) (or_introl eq_refl) eq_refl)
    as (te & tr & Ee & Er & Hle).
  simpl in Ee. rewrite total_of_best_row in Er.
  inversion Ee; inversion Er; subst. lra.
Qed.

Lemma best_candidate_per_identity_witness :
  exists ranking,
    Ranker.rank_conformations Config.DEFAULT_CONFIG Samples.two_proteins
      REQUIRED_METRICS [] = Ok ranking
    /\ Permutation (map Ranker.conf ranking)
         (unique (map identity Samples.two_proteins))
    /\ forall e, In e ranking ->
         exists before r after,
           candidates (Ranker.conf e) Samples.two_proteins
           = (before ++ r :: after)%list
           /\ Ranker.raw_data e = r
           /\ Ranker.best_protein e = protein_name r
           /\ scoring Config.DEFAULT_CONFIG REQUIRED_METRICS [] r
              = Ok (Ranker.total_score e, Ranker.docking_score e,
                    Ranker.energy_score e)
           /\ Forall (below (total_of Config.DEFAULT_CONFIG REQUIRED_METRICS []) r)
                before
           /\ Forall (not_above (total_of Config.DEFAULT_CONFIG REQUIRED_METRICS []) r)
                after.
Proof.
  apply best_candidate_per_identity.
  intros r [<-|[<-|[]]].
  - exists 1. exact total_of_worst_row.
  - exists (1 / 2). exact total_of_mixed_row.
Defined.

(** The second protein has the smaller total and is selected. *)
Example rank_two_proteins :
  Ranker.rank_conformations Config.DEFAULT_CONFIG Samples.two_proteins
    REQUIRED_METRICS []
  = Ok [ Ranker.mkConfEntry (1, 1)%Z 1 1 (Some (1 / 2)) (Some (1 / 2))
           (Some (1 / 2)) "KDR" Samples.mixed_row ].
Proof. run. same_reals. Qed.

(** Equal totals: the protein met first is selected. *)
Example rank_tied_proteins_of_one_conformation :
  Ranker.rank_conformations Config.DEFAULT_CONFIG Samples.tied_proteins
    REQUIRED_METRICS []
  = Ok [ Ranker.mkConfEntry (1, 1)%Z 1 1 (Some 1) (Some 1) (Some 1)
           "CCND1" Samples.worst_row ].
Proof. run. same_reals. Qed.

(** ** Stable sorting *)

Section SortFacts.
Context {A K : Type} (lt : K -> K -> bool) (key : A -> K).

Lemma before_cons (l : list A) (x a b : A) :
  before l a b -> before (x :: l) a b.
Proof.
  intros (l1 & l2 & l3 & ->). now exists (x :: l1), l2, l3.
Qed.

Lemma before_head (l : list A) (a b : A) : In b l -> before (a :: l) a b.
Proof.
  intros Hb. apply in_split in Hb. destruct Hb as (l2 & l3 & ->).
  now exists [], l2, l3.
Qed.

Lemma insert_keeps_order (x : A) (l : list A) (a b : A) :
  before l a b -> before (insert lt key x l) a b.
Proof.
  induction l as [|y l IH]; simpl.
  - intros (l1 & l2 & l3 & E). now destruct l1.
  - intros Hb. destruct (lt (key y) (key x)); [|now apply before_cons].
    destruct Hb as (l1 & l2 & l3 & E). destruct l1 as [|z l1]; simpl in E.
    + inversion E; subst. apply before_head.
      apply (Permutation_in _ (Permutation_sym (insert_perm lt key x _))).
      right. apply in_elt.
    + inversion E; subst. apply before_cons. apply IH.
      now exists l1, l2, l3.
Qed.

Lemma insert_goes_first (x : A) (l : list A) (b : A) :
  In b l -> lt (key b) (key x) = false -> before (insert lt key x l) x b.
Proof.
  induction l as [|y l IH]; simpl; [tauto|].
  intros Hb Hlt. destruct (lt (key y) (key x)) eqn:E.
  - destruct Hb as [->|Hb]; [congruence|].
    apply before_cons. now apply IH.
  - now apply before_head.
Qed.

(** The sort is stable: two elements keep their order unless the later one
    is strictly smaller. *)
Lemma sort_by_stable (l : list A) (a b : A) :
  before l a b -> lt (key b) (key a) = false ->
  before (sort_by lt key l) a b.
Proof.
  induction l as [|x l IH]; simpl.
  - intros (l1 & l2 & l3 & E). now destruct l1.
  - intros (l1 & l2 & l3 & E) Hlt. destruct l1 as [|z l1]; simpl in E.
    + inversion E; subst. apply insert_goes_first; [|assumption].
      apply (Permutation_in _ (Permutation_sym (sort_by_perm lt key _))).
      apply in_elt.
    + inversion E; subst. apply insert_keeps_order. apply IH; [|assumption].
      now exists l1, l2, l3.
Qed.

Variable good : K -> Prop.
Hypothesis lt_asym :
  forall a b, good a -> good b -> lt a b = true -> lt b a = false.
Hypothesis ge_trans :
  forall a b c, good a -> good b -> good c ->
    lt b a = false -> lt c b = false -> lt c a = false.

Lemma insert_sorted (x : A) (l : list A) :
  good (key x) -> Forall (fun y => good (key y)) l ->
  StronglySorted (fun a b => lt (key b) (key a) = false) l ->
  StronglySorted (fun a b => lt (key b) (key a) = false) (insert lt key x l).
Proof.
  intros Hx. induction l as [|y l IH]; intros Hg Hs; simpl.
  - constructor; constructor.
  - inversion Hg as [|? ? Hy Hg']; subst.
    inversion Hs as [|? ? Hs' Hall]; subst.
    destruct (lt (key y) (key x)) eqn:E.
    + constructor; [now apply IH|].
      apply Forall_forall. intros z Hz.
      apply (Permutation_in _ (insert_perm lt key x l)) in Hz.
      destruct Hz as [<-|Hz]; [now apply lt_asym|].
      rewrite Forall_forall in Hall. now apply Hall.
    + constructor; [assumption|]. constructor; [assumption|].
      rewrite Forall_forall in *. intros z Hz.
      apply ge_trans with (key y); auto.
Qed.

Lemma sort_by_sorted (l : list A) :
  Forall (fun y => good (key y)) l ->
  StronglySorted (fun a b => lt (key b) (key a) = false) (sort_by lt key l).
Proof.
  induction 1 as [|x l Hx Hl IH]; simpl; [constructor|].
  apply insert_sorted; [assumption| |assumption].
  apply Forall_forall. intros y Hy. apply in_sort_by in Hy.
  rewrite Forall_forall in Hl. now apply Hl.
Qed.
End SortFacts.

(** ** The protein ranking (Ranker.rank_proteins) *)

Lemma dict_as_map {K V : Type} `{KeyLaws K} (dflt : V) (d : Dict.t K V) :
  NoDup (Dict.keys d) ->
  d = map (fun k => (k, match Dict.get k d with
                        | Some v => v
                        | None => dflt
                        end)) (Dict.keys d).
Proof.
  induction d as [|[k v] d IH]; simpl; [reflexivity|].
  intros Hnd. apply NoDup_cons_iff in Hnd. destruct Hnd as [Hk Hnd].
  rewrite keqb_refl. f_equal.
  rewrite IH at 1 by assumption. apply map_ext_in.
  intros c Hc. rewrite keqb_neq; [reflexivity|]. intros ->. contradiction.
Qed.

Lemma list_sum_perm (l l' : list nat) :
  Permutation l l' -> list_sum l = list_sum l'.
Proof. induction 1; simpl; lia. Qed.

Lemma StronglySorted_weaken {A : Type} (R R' : A -> A -> Prop) (l : list A) :
  (forall a b, In a l -> In b l -> R a b -> R' a b) ->
  StronglySorted R l -> StronglySorted R' l.
Proof.
  intros HR. induction 1 as [|a l Hs IH Hall]; constructor.
  - apply IH. intros x y Hx Hy. apply HR; now right.
  - rewrite Forall_forall in *. intros y Hy.
    apply HR; [now left | now right | now apply Hall].
Qed.

Lemma before_map_inv {A B : Type} (f : A -> B) (l : list A) (a b : A) :
  NoDup (map f l) -> In a l -> In b l ->
  before (map f l) (f a) (f b) -> before l a b.
Proof.
  intros Hnd Ha Hb (l1 & l2 & l3 & E).
  apply map_eq_app in E. destruct E as (m1 & r1 & El & E1 & E).
  apply map_eq_cons in E. destruct E as (a' & r2 & Er1 & Ea & E).
  apply map_eq_app in E. destruct E as (m2 & r3 & Er2 & E2 & E).
  apply map_eq_cons in E. destruct E as (b' & m3 & Er3 & Eb & E3).
  subst l r1 r2 r3.
  assert (a' = a).
  { apply (NoDup_map_injective f (m1 ++ a' :: m2 ++ b' :: m3)); auto.
    apply in_elt. }
  assert (b' = b).
  { apply (NoDup_map_injective f (m1 ++ a' :: m2 ++ b' :: m3)); auto.
    apply in_or_app. right. right. apply in_elt. }
  subst. now exists m1, m2, m3.
Qed.

Section ProteinRanking.
Import Ranker.

Lemma count_win_eq (D : Dict.t string Stats.t) (c : ConfEntry) :
  count_win D c
  = Dict.set (best_protein c) (bump (stat_of (best_protein c) D) c) D.
Proof.
  unfold count_win, stat_of, bump, Dict.mem.
  destruct (Dict.get (best_protein c) D) as [s|] eqn:G.
  - rewrite G. reflexivity.
  - rewrite get_set_same. simpl. now rewrite set_set_same.
Qed.

Lemma won_snoc (p : string) (entries : list ConfEntry) (c : ConfEntry) :
  won p (entries ++ [c])
  = (won p entries ++ if String.eqb (best_protein c) p then [c] else [])%list.
Proof.
  unfold won. rewrite filter_app. simpl.
  now destruct (String.eqb (best_protein c) p).
Qed.

Lemma stats_invariant (entries : list ConfEntry) :
  Dict.keys (protein_stats_of entries) = unique (map best_protein entries)
  /\ forall p,
       stat_of p (protein_stats_of entries)
       = Stats.mk (List.length (won p entries))
           (map total_score (won p entries))
           (map docking_score (won p entries))
           (map energy_score (won p entries)).
Proof.
  unfold protein_stats_of.
  induction entries as [|c entries [IHk IHs]] using rev_ind.
  - split; [reflexivity | intros p; reflexivity].
  - rewrite fold_left_app. simpl fold_left.
    set (D := fold_left count_win entries Dict.empty) in *.
    rewrite count_win_eq. split.
    + rewrite keys_set, map_app. simpl (map best_protein [_]).
      rewrite unique_snoc, IHk.
      destruct (Dict.mem (best_protein c) D) eqn:M.
      * apply mem_in_keys in M. rewrite IHk, in_unique in M.
        apply existsb_keqb in M. now rewrite M.
      * apply mem_false_keys in M. rewrite IHk, in_unique in M.
        destruct (existsb (keqb (best_protein c)) (map best_protein entries))
          eqn:E; [|reflexivity].
        apply existsb_keqb in E. contradiction.
    + intros p. rewrite won_snoc. unfold stat_of at 1.
      destruct (String.eqb (best_protein c) p) eqn:E.
      * apply String.eqb_eq in E. subst p. rewrite get_set_same.
        rewrite IHs. unfold bump. simpl.
        rewrite !map_app, length_app. simpl.
        f_equal. lia.
      * rewrite get_set_other
          by (intros ->; now rewrite String.eqb_refl in E).
        rewrite app_nil_r. apply IHs.
Qed.

(** Before sorting: one entry per winning protein, in first-seen order. *)
Lemma unsorted_ranking (entries : list ConfEntry) :
  map average (Dict.items (protein_stats_of entries))
  = map (entry_of entries) (unique (map best_protein entries)).
Proof.
  destruct (stats_invariant entries) as [Hk Hs].
  unfold Dict.items.
  rewrite (dict_as_map (Stats.mk 0 [] [] []) (protein_stats_of entries))
    by (rewrite Hk; apply NoDup_unique).
  rewrite Hk, map_map. apply map_ext. intros p.
  fold (stat_of p (protein_stats_of entries)). rewrite Hs. reflexivity.
Qed.

Lemma rank_proteins_eq (entries : list ConfEntry) :
  rank_proteins entries
  = sort_by key_lt protein_key
      (map (entry_of entries) (unique (map best_protein entries))).
Proof.
  unfold rank_proteins. destruct entries as [|c entries]; [reflexivity|].
  now rewrite unsorted_ranking.
Qed.

Lemma fsum_finite (l : list fval) : Forall finite l -> finite (fsum l).
Proof.
  induction 1 as [|v l [x Ex] Hl [s Es]].
  - now exists 0.
  - change (fsum (v :: l)) with (fadd v (fsum l)).
    rewrite Ex, Es. simpl. now eexists.
Qed.

Lemma np_mean_finite (l : list fval) :
  l <> [] -> Forall finite l -> finite (np_mean l).
Proof.
  intros Hne Hl. destruct l as [|v l]; [contradiction|].
  unfold np_mean. destruct (fsum_finite _ Hl) as [s Es]. rewrite Es.
  simpl. now eexists.
Qed.

Lemma won_nonempty (p : string) (entries : list ConfEntry) :
  In p (map best_protein entries) -> won p entries <> [].
Proof.
  intros Hp. apply in_map_iff in Hp. destruct Hp as (c & E & Hc).
  assert (In c (won p entries)).
  { unfold won. apply filter_In. split; [assumption|].
    now apply String.eqb_eq. }
  intros E0. rewrite E0 in *. contradiction.
Qed.


End ProteinRanking.

Section ProteinRankingOrder.
Import Ranker.

Let good (k : Z * fval) : Prop := finite (snd k).
Let cnt (x : string * Stats.t) : nat := Stats.best_count (snd x).




Lemma sum_set (p : string) (v : Stats.t) (D : Dict.t string Stats.t) :
  (list_sum (map cnt (Dict.set p v D)) + Stats.best_count (stat_of p D)
   = list_sum (map cnt D) + Stats.best_count v)%nat.
Proof.
  unfold stat_of. induction D as [|[k s] D IH]; simpl.
  - unfold cnt; simpl. lia.
  - destruct (String.eqb p k) eqn:E; simpl.
    + unfold cnt; simpl. lia.
    + unfold cnt in *; simpl. lia.
Qed.

Lemma sum_counts (entries : list ConfEntry) (D : Dict.t string Stats.t) :
  (list_sum (map cnt (fold_left count_win entries D))
   = list_sum (map cnt D) + List.length entries)%nat.
Proof.
  revert D. induction entries as [|c entries IH]; intros D; simpl; [lia|].
  rewrite IH, count_win_eq.
  pose proof (sum_set (best_protein c) (bump (stat_of (best_protein c) D) c) D)
    as Hs.
  unfold bump in Hs at 2. simpl in Hs. lia.
Qed.

Lemma avg_finite (entries : list ConfEntry) (p : string) :
  Forall (fun e => finite (total_score e)) entries ->
  In p (map best_protein entries) ->
  finite (avg_total_score (entry_of entries p)).
Proof.
  intros Hfin Hp. simpl. apply np_mean_finite.
  - intros E. apply map_eq_nil in E. now apply won_nonempty in E.
  - apply Forall_map. unfold won. rewrite Forall_forall in *.
    intros e He. apply filter_In in He. now apply Hfin.
Qed.

End ProteinRankingOrder.

Example rank_three_conformations :
  Ranker.rank_proteins Samples.conformation_ranking
  = [ Ranker.mkProteinEntry "KDR" 2 (Some (3 / 10)) (Some (3 / 10)) (Some (3 / 10));
      Ranker.mkProteinEntry "CCND1" 1 (Some (3 / 10)) (Some (3 / 10)) (Some (3 / 10)) ].
Proof. run. same_reals. Qed.

(** A tie on both keys keeps the first-seen order. *)
Example rank_tied_proteins :
  map Ranker.protein_name (Ranker.rank_proteins Samples.tied_ranking)
  = ["KDR"; "CCND1"].
Proof. run. reflexivity. Qed.


(** ** Every method of normalize_metric *)

Section NormalizeMetric.
Import DataProcessor.

Lemma series_std_nonneg (xs : list R) (s : R) :
  series_std xs = Some s -> 0 <= s.
Proof.
  unfold series_std. destruct xs as [|x [|y xs]]; try discriminate.
  intros E. inversion E. apply sqrt_pos.
Qed.

Lemma logistic_monotone (z1 z2 : R) : z1 <= z2 -> logistic z1 <= logistic z2.
Proof.
  intros Hz. unfold logistic.
  pose proof (exp_pos (- z1)) as H1. pose proof (exp_pos (- z2)) as H2.
  assert (He : exp (- z2) <= exp (- z1)).
  { destruct (Req_dec z1 z2) as [->|Hne]; [lra|].
    left. apply exp_increasing. lra. }
  unfold Rdiv. rewrite !Rmult_1_l.
  apply Rinv_le_contravar; lra.
Qed.



(** The normalised column is the input column mapped through one function,
    which sends every value of the column into [0,1] and keeps the order of
    the values that are present. *)
Lemma normalize_metric_pointwise (values : list fval) (method : string) :
  exists f : fval -> fval,
    normalize_metric values method = map f values
    /\ (forall v, In v values -> in01 (f v))
    /\ (forall x y, In (Some x) values -> In (Some y) values -> x <= y ->
          exists a b, f (Some x) = Some a /\ f (Some y) = Some b /\ a <= b).
Proof.
  unfold normalize_metric. destruct (dropna values) as [|v0 vs] eqn:Hd.
  { exists (fun _ => Some 1). split; [reflexivity|]. split.
    - intros v _. exists 1. split; [reflexivity | lra].
    - intros x y _ _ _. exists 1, 1. repeat split; lra. }
  assert (Hb : forall x, In (Some x) values ->
                 series_min v0 vs <= x <= series_max v0 vs).
  { intros x Hx. apply dropna_in in Hx. rewrite Hd in Hx.
    pose proof (series_bounds v0 vs) as F. rewrite Forall_forall in F.
    now apply F. }
  assert (Hle : series_min v0 vs <= series_max v0 vs).
  { pose proof (series_bounds v0 vs) as F. rewrite Forall_forall in F.
    destruct (F v0 (or_introl eq_refl)). lra. }
  assert (Hmm : exists f : fval -> fval,
            min_max values v0 vs = map f values
            /\ (forall v, In v values -> in01 (f v))
            /\ (forall x y, In (Some x) values -> In (Some y) values -> x <= y ->
                  exists a b, f (Some x) = Some a /\ f (Some y) = Some b /\ a <= b)).
  { exists (min_max_value (series_min v0 vs) (series_max v0 vs)).
    split; [apply min_max_eq|]. split.
    - intros v Hv. apply min_max_value_in01; [exact Hle|].
      intros x ->. now apply Hb.
    - intros x y Hx Hy Hxy. simpl.
      destruct (Reqb _ _) eqn:E.
      + exists 0, 0. repeat split; lra.
      + apply Reqb_neq in E. do 2 eexists. split; [reflexivity|].
        split; [reflexivity|].
        apply Rmult_le_compat_r; [|lra].
        left. apply Rinv_0_lt_compat. lra. }
  destruct (String.eqb method "min-max"); [exact Hmm|].
  destruct (String.eqb method "z-score"); [|exact Hmm].
  clear Hmm. unfold z_score.
  destruct (series_std (v0 :: vs)) as [s|] eqn:Es.
  - simpl feq. destruct (Reqb s 0) eqn:E.
    + exists (fun v => if notna v then Some 0 else Some 1).
      split; [reflexivity|]. split.
      * intros [x|] _; simpl; eexists; (split; [reflexivity | lra]).
      * intros x y _ _ _. exists 0, 0. repeat split; lra.
    + apply Reqb_neq in E. pose proof (series_std_nonneg _ _ Es) as Hs.
      exists (z_score_value (series_mean (v0 :: vs)) s). split.
      * rewrite !map_map. apply map_ext. intros [x|]; reflexivity.
      * split.
        -- intros v _. destruct (z_score_value_strict (series_mean (v0 :: vs)) s v)
             as [a [Ea Ha]]. exists a. split; [exact Ea | lra].
        -- intros x y _ _ Hxy. simpl. do 2 eexists.
           split; [reflexivity|]. split; [reflexivity|].
           apply logistic_monotone. apply Rmult_le_compat_r; [|lra].
           left. apply Rinv_0_lt_compat. lra.
  - exists (fun _ => Some (logistic 3)). split.
    + simpl feq. rewrite !map_map. apply map_ext. intros [x|]; reflexivity.
    + pose proof (logistic_strict 3) as H3. split.
      * intros v _. eexists. split; [reflexivity | lra].
      * intros x y _ _ _. do 2 eexists. repeat split; lra.
Qed.

(** X1: whatever the method name and whatever the column holds (absent values,
    a single value, equal values), [normalize_metric] returns one value per
    input value, and every one of them is a number of [0,1], never NaN. *)
Theorem normalize_metric_range (values : list fval) (method : string) :
  List.length (normalize_metric values method) = List.length values
  /\ Forall in01 (normalize_metric values method).
Proof.
  destruct (normalize_metric_pointwise values method) as (f & E & Hf & _).
  rewrite E. split; [apply length_map|].
  apply Forall_forall. intros y Hy. apply in_map_iff in Hy.
  destruct Hy as (v & <- & Hv). now apply Hf.
Qed.

(** X2: normalisation never reverses two values that are present: of two rows of
    a group, the one with the smaller (better) raw value gets a normalised
    value that is not greater, for every method. *)
Theorem normalize_metric_monotone (values : list fval) (method : string)
    (i j : nat) (x y : R) :
  nth_error values i = Some (Some x) ->
  nth_error values j = Some (Some y) ->
  x <= y ->
  exists a b,
    nth_error (normalize_metric values method) i = Some (Some a)
    /\ nth_error (normalize_metric values method) j = Some (Some b)
    /\ a <= b.
Proof.
  intros Hi Hj Hxy.
  destruct (normalize_metric_pointwise values method) as (f & E & _ & Hm).
  destruct (Hm x y) as (a & b & Ea & Eb & Hab);
    [eapply nth_error_In; eassumption .. | assumption |].
  exists a, b. rewrite E, !nth_error_map, Hi, Hj. simpl.
  rewrite Ea, Eb. auto.
Qed.

Lemma normalize_metric_monotone_witness :
  exists a b,
    nth_error (normalize_metric [Some 4; None; Some 9] "z-score") 0 = Some (Some a)
    /\ nth_error (normalize_metric [Some 4; None; Some 9] "z-score") 2 = Some (Some b)
    /\ a <= b.
Proof.
  apply (normalize_metric_monotone [Some 4; None; Some 9] "z-score" 0 2 4 9);
    [reflexivity | reflexivity | lra].
Defined.


End NormalizeMetric.

(** ** The composite score at its edges *)

Section CompositeEdges.
Import MetricsProcessor.

Lemma composite_score_raise_iff (row : Row) (selected_metrics : list string)
    (weights : Dict.t string R) (docking_weight energy_weight optional_weight : R)
    (e : exn) :
  calculate_composite_score row selected_metrics weights
    docking_weight energy_weight optional_weight = Raise e
  <-> e = ZeroDivisionError
      /\ optional_of selected_metrics = []
      /\ docking_weight + energy_weight = 0.
Proof.
  unfold calculate_composite_score, calculate_optional_score.
  destruct (optional_of selected_metrics) as [|o os]; simpl.
  - destruct (Reqb (docking_weight + energy_weight) 0) eqn:E.
    + apply Reqb_eq in E. split.
      * intros H. inversion H. auto.
      * intros (-> & _). reflexivity.
    + apply Reqb_neq in E. split; [discriminate|].
      intros (_ & _ & H). contradiction.
  - split; [discriminate|]. intros (_ & H & _). discriminate.
Qed.


(** X14: when optional metrics are selected but the row has a normalised column
    for none of them, the optional category still takes part, with the
    worst score 1.0: the total is the docking and energy parts plus the
    whole optional weight, and the other two weights are not rescaled. *)
Theorem selected_optional_metrics_without_column (row : Row)
    (selected_metrics : list string) (weights : Dict.t string R)
    (docking_weight energy_weight optional_weight : R) :
  optional_of selected_metrics <> [] ->
  valid_metrics row (optional_of selected_metrics) = [] ->
  calculate_composite_score row selected_metrics weights
    docking_weight energy_weight optional_weight
  = Ok (fadd (fadd (fmul (Some docking_weight) (calculate_docking_score row weights))
                   (fmul (Some energy_weight) (calculate_energy_score row weights)))
             (Some optional_weight),
        calculate_docking_score row weights,
        calculate_energy_score row weights).
Proof.
  intros Hne Hv. unfold calculate_composite_score, calculate_optional_score.
  destruct (optional_of selected_metrics) as [|o os] eqn:Eo; [contradiction|].
  unfold calculate_weighted_score at 1. rewrite Hv. simpl fmul at 3.
  now rewrite Rmult_1_r.
Qed.

Lemma selected_optional_metrics_without_column_witness :
  calculate_composite_score Samples.mixed_row Samples.with_lipo []
    (4 / 10) (4 / 10) (2 / 10)
  = Ok (fadd (fadd (fmul (Some (4 / 10))
                      (calculate_docking_score Samples.mixed_row []))
                   (fmul (Some (4 / 10))
                      (calculate_energy_score Samples.mixed_row [])))
             (Some (2 / 10)),
        calculate_docking_score Samples.mixed_row [],
        calculate_energy_score Samples.mixed_row []).
Proof.
  apply (selected_optional_metrics_without_column Samples.mixed_row
           Samples.with_lipo [] (4 / 10) (4 / 10) (2 / 10));
    [discriminate | reflexivity].
Defined.
End CompositeEdges.

(** ** The score columns (Scorer.score_data) *)

Lemma mapM_inv {A B : Type} (f : A -> result B) (l : list A) (ys : list B) :
  mapM f l = Ok ys -> Forall2 (fun x y => f x = Ok y) l ys.
Proof.
  revert ys. induction l as [|x l IH]; intros ys; simpl.
  - intros E. inversion E. constructor.
  - destruct (f x) as [y|e] eqn:Ex; simpl; [|discriminate].
    destruct (mapM f l) as [ys'|e]; simpl; [|discriminate].
    intros E. inversion E. constructor; [assumption | now apply IH].
Qed.

Lemma mapM_raise {A B : Type} (f : A -> result B) (l : list A) (e : exn) :
  mapM f l = Raise e -> exists x, In x l /\ f x = Raise e.
Proof.
  induction l as [|x l IH]; simpl; [discriminate|].
  destruct (f x) as [y|e'] eqn:Ex; simpl.
  - destruct (mapM f l) as [ys'|e']; simpl; [discriminate|].
    intros E. inversion E. subst. destruct (IH eq_refl) as (x' & Hx & Ex').
    exists x'. auto.
  - intros E. inversion E. subst. exists x. auto.
Qed.

Section ScoreData.
Import DataProcessor.
Variable config : Config.t.
Variable selected_metrics : list string.
Variable weights : Dict.t string R.

Lemma add_scores_cells (r : Row) (t d e : fval) :
  same_labels r (Scorer.add_scores r (t, d, e))
  /\ cell "total_score" (Scorer.add_scores r (t, d, e)) = t
  /\ cell "docking_score" (Scorer.add_scores r (t, d, e)) = d
  /\ cell "energy_score" (Scorer.add_scores r (t, d, e)) = e
  /\ forall c, c <> "total_score" -> c <> "docking_score" ->
       c <> "energy_score" ->
       Dict.get c (cols (Scorer.add_scores r (t, d, e))) = Dict.get c (cols r).
Proof.
  unfold Scorer.add_scores, cell, set_cell, same_labels. cbn [cols title lignum protein_name].
  split; [auto|]. split; [|split; [|split]].
  - rewrite !get_set_other by discriminate. now rewrite get_set_same.
  - rewrite get_set_other by discriminate. now rewrite get_set_same.
  - now rewrite get_set_same.
  - intros c H1 H2 H3. now rewrite !get_set_other by assumption.
Qed.

Lemma scored_rows (data : DataFrame) (scores : list (fval * fval * fval)) :
  Forall2 (fun r s => scoring config selected_metrics weights r = Ok s)
    data scores ->
  Forall2 (fun r r' =>
             same_labels r r'
             /\ scoring config selected_metrics weights r
                = Ok (cell "total_score" r', cell "docking_score" r',
                      cell "energy_score" r')
             /\ forall c, c <> "total_score" -> c <> "docking_score" ->
                  c <> "energy_score" ->
                  Dict.get c (cols r') = Dict.get c (cols r))
    data (map (fun rs => Scorer.add_scores (fst rs) (snd rs))
            (combine data scores)).
Proof.
  induction 1 as [|r [[t d] e] data scores Hr E IH];
    cbn [combine map fst snd]; constructor; [|exact IH].
  destruct (add_scores_cells r t d e) as (H1 & H2 & H3 & H4 & H5).
  rewrite H2, H3, H4. auto.
Qed.

(** X16: [score_data] either returns the table with three score columns added:
    as many rows, in the same order, each with its identity and protein,
    its composite, docking and energy scores under [total_score],
    [docking_score] and [energy_score], and every other column as it was;
    or it raises ZeroDivisionError, which happens only for a non-empty
    table when no optional metric is selected and the docking and energy
    weights in use add up to zero. *)
Theorem score_data_columns (data : DataFrame) :
  match Scorer.score_data config data selected_metrics weights with
  | Ok scored =>
      Forall2 (fun r r' =>
                 same_labels r r'
                 /\ scoring config selected_metrics weights r
                    = Ok (cell "total_score" r', cell "docking_score" r',
                          cell "energy_score" r')
                 /\ forall c, c <> "total_score" -> c <> "docking_score" ->
                      c <> "energy_score" ->
                      Dict.get c (cols r') = Dict.get c (cols r))
              data scored
  | Raise e =>
      e = ZeroDivisionError
      /\ data <> []
      /\ MetricsProcessor.optional_of selected_metrics = []
      /\ py_or (Config.get config "scoring" "docking_weight") (4 / 10)
         + py_or (Config.get config "scoring" "energy_weight") (4 / 10) = 0
  end.
Proof.
  unfold Scorer.score_data. destruct data as [|r0 data']; [constructor|].
  change (fun row => MetricsProcessor.calculate_composite_score row
                       selected_metrics weights _ _ _)
    with (scoring config selected_metrics weights).
  destruct (mapM (scoring config selected_metrics weights) (r0 :: data'))
    as [scores|e] eqn:E; cbn [bind].
  - apply scored_rows. now apply mapM_inv.
  - apply mapM_raise in E. destruct E as (r & _ & Er).
    apply composite_score_raise_iff in Er. destruct Er as (-> & Ho & Hw).
    repeat split; [discriminate | assumption | assumption].
Qed.
End ScoreData.

(** ** The order of the conformation ranking (Ranker.rank_conformations) *)

Lemma flt_asym (a b : fval) :
  finite a -> finite b -> flt a b = true -> flt b a = false.
Proof.
  intros [x ->] [y ->]. simpl. rewrite Rltb_lt, Rltb_ge. lra.
Qed.

Lemma flt_ge_trans (a b c : fval) :
  finite a -> finite b -> finite c ->
  flt b a = false -> flt c b = false -> flt c a = false.
Proof.
  intros [x ->] [y ->] [z ->]. simpl. rewrite !Rltb_ge. lra.
Qed.

Section ConformationOrder.
Variable config : Config.t.
Variable selected_metrics : list string.
Variable weights : Dict.t string R.

Let total := total_of config selected_metrics weights.

(** The entries before they are sorted: one per identity, in order of first
    appearance, each taken from a row of its identity. *)
Lemma rank_conformations_unsorted (data : list Row) :
  (forall r, In r data -> finite (total r)) ->
  exists ys,
    Ranker.rank_conformations config data selected_metrics weights
    = Ok (sort_by flt Ranker.total_score ys)
    /\ map Ranker.conf ys = unique (map identity data)
    /\ Forall (fun e => exists r,
                 In r data /\ identity r = Ranker.conf e
                 /\ Ranker.raw_data e = r
                 /\ Ranker.best_protein e = protein_name r
                 /\ Ranker.total_score e = total r) ys.
Proof.
  intros Hfin.
  assert (Hok : forall r, In r data ->
            exists s, scoring config selected_metrics weights r = Ok s).
  { intros r Hr. destruct (Hfin r Hr) as [t Et]. unfold total, total_of in Et.
    destruct (scoring config selected_metrics weights r) as [s|];
      [now exists s | discriminate]. }
  rewrite rank_conformations_eq, (pairs_of_table _ _ _ _ Hok). cbn [bind].
  unfold Dict.items.
  set (P := fun (x : conf_id * Dict.t string Scorer.Scores) (e : Ranker.ConfEntry) =>
              Ranker.conf e = fst x
              /\ exists r, In r data /\ identity r = Ranker.conf e
                   /\ Ranker.raw_data e = r
                   /\ Ranker.best_protein e = protein_name r
                   /\ Ranker.total_score e = total r).
  assert (HP : forall x,
            In x (map (fun c => (c, map (fun r => (protein_name r,
                                scores_of config selected_metrics weights r))
                               (candidates c data)))
                   (unique (map identity data))) ->
            exists y, Ranker.best_of x = Ok y /\ P x y).
  { intros x Hx. apply in_map_iff in Hx. destruct Hx as (c & <- & Hc).
    apply (proj1 (in_unique _ _)) in Hc.
    destruct (best_of_candidates config selected_metrics weights
                c (candidates c data))
      as (e & before & r & after & Ee & Hconf & Ec & Hraw & Hbest & Hsc & _).
    - now apply candidates_nonempty.
    - apply Forall_forall. intros r Hr. apply Hfin.
      now apply (candidates_are_rows config selected_metrics weights) in Hr.
    - exists e. split; [exact Ee|]. split; [exact Hconf|].
      assert (Hr : In r (candidates c data)) by (rewrite Ec; apply in_elt).
      apply (candidates_are_rows config selected_metrics weights) in Hr.
      destruct Hr as [Hr Hid].
      exists r. rewrite Hconf. repeat split; try assumption.
      unfold total, total_of. now rewrite Hsc. }
  destruct (mapM_ok Ranker.best_of P _ HP) as (ys & Eys & Fys).
  rewrite Eys. cbn [bind]. exists ys. split; [reflexivity|]. split.
  - clear Eys HP. revert Fys. generalize (unique (map identity data)).
    intros U. revert ys. induction U as [|c U IH]; intros ys F;
      inversion F; subst; simpl; [reflexivity|].
    f_equal; [|now apply IH].
    match goal with HP : P _ _ |- _ => destruct HP as [HP _]; exact HP end.
  - apply Forall_forall. intros e He.
    destruct (Forall2_in_right _ _ _ _ Fys He) as (x & _ & _ & Hx).
    exact Hx.
Qed.

(** X17: when every row has a total score, the conformation ranking has one entry
    per distinct identity of the table, it is in ascending order of total
    score (the best conformation first), and entries with equal total
    scores keep the order in which their identities first appear in the
    table. *)
Theorem rank_conformations_sorted (data : list Row) :
  (forall r, In r data -> finite (total_of config selected_metrics weights r)) ->
  exists ranking,
    Ranker.rank_conformations config data selected_metrics weights = Ok ranking
    /\ List.length ranking = List.length (get_unique_conformations (Some data))
    /\ StronglySorted (not_above Ranker.total_score) ranking
    /\ forall a b,
         In a ranking -> In b ranking ->
         Ranker.total_score a = Ranker.total_score b ->
         before (get_unique_conformations (Some data))
           (Ranker.conf a) (Ranker.conf b) ->
         before ranking a b.
Proof.
  intros Hfin.
  destruct (rank_conformations_unsorted data Hfin) as (ys & E & Hc & Hys).
  assert (Hgood : Forall (fun e => finite (Ranker.total_score e)) ys).
  { eapply Forall_impl; [|exact Hys]. intros e (r & Hr & _ & _ & _ & ->).
    now apply Hfin. }
  exists (sort_by flt Ranker.total_score ys). split; [exact E|].
  unfold get_unique_conformations. split; [|split].
  - rewrite <- Hc, length_map.
    apply Permutation_length, sort_by_perm.
  - apply StronglySorted_weaken
      with (R := fun a b => flt (Ranker.total_score b) (Ranker.total_score a) = false).
    + intros a b Ha Hb Hk. apply in_sort_by in Ha, Hb.
      rewrite Forall_forall in Hgood.
      destruct (Hgood a Ha) as [xa Ea]. destruct (Hgood b Hb) as [xb Eb].
      rewrite Ea, Eb in Hk. simpl in Hk. apply Rltb_ge in Hk.
      exists xa, xb. auto.
    + apply sort_by_sorted with (good := finite);
        [exact flt_asym | exact flt_ge_trans | exact Hgood].
  - intros a b Ha Hb Het Hbefore. apply in_sort_by in Ha, Hb.
    apply sort_by_stable.
    + apply before_map_inv with (f := Ranker.conf); auto.
      * rewrite Hc. apply NoDup_unique.
      * now rewrite Hc.
    + rewrite Het. rewrite Forall_forall in Hgood.
      destruct (Hgood b Hb) as [xb ->]. simpl. apply Rltb_ge. lra.
Qed.

(** X19: the two rankings together: when every row has a total score, the win
    counts of the protein ranking computed from the conformation ranking add
    up to the number of distinct identities of the table; every protein of
    the protein ranking is a protein of the table, has won at least one
    conformation and has a mean total score that is a number. *)
Theorem protein_ranking_of_table (data : list Row) :
  (forall r, In r data -> finite (total_of config selected_metrics weights r)) ->
  exists ranking,
    Ranker.rank_conformations config data selected_metrics weights = Ok ranking
    /\ list_sum (map Ranker.best_count (Ranker.rank_proteins ranking))
       = List.length (get_unique_conformations (Some data))
    /\ forall p, In p (Ranker.rank_proteins ranking) ->
         In (Ranker.protein_name p) (get_protein_names (Some data))
         /\ (1 <= Ranker.best_count p)%nat
         /\ finite (Ranker.avg_total_score p).
Proof.
  intros Hfin.
  destruct (rank_conformations_unsorted data Hfin) as (ys & E & Hc & Hys).
  set (ranking := sort_by flt Ranker.total_score ys) in *.
  assert (Hin : forall e, In e ranking ->
            finite (Ranker.total_score e)
            /\ In (Ranker.best_protein e) (map protein_name data)).
  { intros e He. apply in_sort_by in He. rewrite Forall_forall in Hys.
    destruct (Hys e He) as (r & Hr & _ & _ & -> & ->).
    split; [now apply Hfin | now apply in_map]. }
  exists ranking. split; [exact E|]. split.
  - unfold get_unique_conformations. rewrite <- Hc, length_map.
    rewrite <- (Permutation_length (sort_by_perm flt Ranker.total_score ys)).
    fold ranking. unfold Ranker.rank_proteins.
    destruct ranking as [|c entries]; [reflexivity|].
    rewrite (list_sum_perm _ _
               (Permutation_map Ranker.best_count
                  (sort_by_perm Ranker.key_lt Ranker.protein_key _))).
    unfold Dict.items. rewrite map_map.
    replace (map (fun x => Ranker.best_count (Ranker.average x))
               (Ranker.protein_stats_of (c :: entries)))
      with (map (fun x : string * Ranker.Stats.t => Ranker.Stats.best_count (snd x))
              (Ranker.protein_stats_of (c :: entries)))
      by (apply map_ext; intros [p s]; reflexivity).
    unfold Ranker.protein_stats_of. now rewrite sum_counts.
  - intros p Hp. rewrite rank_proteins_eq in Hp. apply in_sort_by in Hp.
    apply in_map_iff in Hp. destruct Hp as (q & <- & Hq).
    apply (proj1 (in_unique _ _)) in Hq.
    assert (Hq' := Hq). apply in_map_iff in Hq'.
    destruct Hq' as (e & <- & He). cbn [Ranker.protein_name entry_of
      Ranker.best_count Ranker.avg_total_score].
    split; [|split].
    + unfold get_protein_names. apply in_unique. now apply Hin.
    + pose proof (won_nonempty _ _ Hq) as Hw.
      destruct (won (Ranker.best_protein e) ranking); [contradiction|].
      simpl. lia.
    + apply (avg_finite ranking (Ranker.best_protein e)); [|exact Hq].
      apply Forall_forall. intros e' He'. now apply Hin.
Qed.
End ConformationOrder.

Example total_of_second_conformation :
  total_of Config.DEFAULT_CONFIG REQUIRED_METRICS [] Tables.second_conformation
  = Some 0.
Proof. run. same_reals. Qed.

Lemma two_conformations_scored (r : Row) :
  In r Tables.two_conformations ->
  finite (total_of Config.DEFAULT_CONFIG REQUIRED_METRICS [] r).
Proof.
  intros [<-|[<-|[<-|[]]]]; eexists;
    [ apply total_of_worst_row | apply total_of_mixed_row
    | apply total_of_second_conformation ].
Qed.

Lemma rank_conformations_sorted_witness :
  exists ranking,
    Ranker.rank_conformations Config.DEFAULT_CONFIG Tables.two_conformations
      REQUIRED_METRICS [] = Ok ranking
    /\ List.length ranking
       = List.length (get_unique_conformations (Some Tables.two_conformations))
    /\ StronglySorted (not_above Ranker.total_score) ranking
    /\ forall a b,
         In a ranking -> In b ranking ->
         Ranker.total_score a = Ranker.total_score b ->
         before (get_unique_conformations (Some Tables.two_conformations))
           (Ranker.conf a) (Ranker.conf b) ->
         before ranking a b.
Proof.
  exact (rank_conformations_sorted Config.DEFAULT_CONFIG REQUIRED_METRICS []
           Tables.two_conformations two_conformations_scored).
Defined.

Lemma protein_ranking_of_table_witness :
  exists ranking,
    Ranker.rank_conformations Config.DEFAULT_CONFIG Tables.two_conformations
      REQUIRED_METRICS [] = Ok ranking
    /\ list_sum (map Ranker.best_count (Ranker.rank_proteins ranking))
       = List.length (get_unique_conformations (Some Tables.two_conformations))
    /\ forall p, In p (Ranker.rank_proteins ranking) ->
         In (Ranker.protein_name p)
            (get_protein_names (Some Tables.two_conformations))
         /\ (1 <= Ranker.best_count p)%nat
         /\ finite (Ranker.avg_total_score p).
Proof.
  exact (protein_ranking_of_table Config.DEFAULT_CONFIG REQUIRED_METRICS []
           Tables.two_conformations two_conformations_scored).
Defined.

(** The second conformation scores best and comes first; the first one goes
    to KDR. *)
Example rank_two_conformations :
  Ranker.rank_conformations Config.DEFAULT_CONFIG Tables.two_conformations
    REQUIRED_METRICS []
  = Ok [ Ranker.mkConfEntry (2, 1)%Z 2 1 (Some 0) (Some 0) (Some 0)
           "CCND1" Tables.second_conformation;
         Ranker.mkConfEntry (1, 1)%Z 1 1 (Some (1 / 2)) (Some (1 / 2))
           (Some (1 / 2)) "KDR" Samples.mixed_row ].
Proof. run. same_reals. Qed.

(** ** The configuration object (Config) *)

Section ConfigFacts.

Lemma config_get_set (c : Config.t) (s k : string) (v : R) (s' k' : string) :
  Config.get (Config.set c s k v) s' k'
  = if (String.eqb s' s && String.eqb k' k)%bool then Some v
    else Config.get c s' k'.
Proof.
  assert (E : Config.set c s k v
              = Dict.set s (Dict.set k v (match Dict.get s c with
                                          | Some values => values
                                          | None => []
                                          end)) c).
  { unfold Config.set, Dict.mem. destruct (Dict.get s c) as [values|] eqn:Es.
    - now rewrite Es.
    - rewrite get_set_same. apply set_set_same. }
  rewrite E. unfold Config.get.
  destruct (String.eqb s' s) eqn:Ess; simpl.
  - apply String.eqb_eq in Ess. subst s'. rewrite get_set_same.
    destruct (String.eqb k' k) eqn:Ek.
    + apply String.eqb_eq in Ek. subst k'. apply get_set_same.
    + apply String.eqb_neq in Ek. rewrite get_set_other by assumption.
      now destruct (Dict.get s c).
  - apply String.eqb_neq in Ess. now rewrite get_set_other by assumption.
Qed.

(** X21: [set] then [get]: the entry written is read back, whether or not the
    section existed before, and no other entry of the configuration
    changes. *)
Theorem config_set_then_get (c : Config.t) (s k : string) (v : R)
    (s' k' : string) :
  Config.get (Config.set c s k v) s k = Some v
  /\ ((s', k') <> (s, k) ->
      Config.get (Config.set c s k v) s' k' = Config.get c s' k').
Proof.
  rewrite !config_get_set, !String.eqb_refl. split; [reflexivity|].
  intros Hne. destruct (String.eqb s' s) eqn:Es; [|reflexivity].
  destruct (String.eqb k' k) eqn:Ek; [|reflexivity].
  apply String.eqb_eq in Es, Ek. subst. contradiction.
Qed.

Lemma config_set_then_get_witness :
  Config.get (Config.set Config.DEFAULT_CONFIG "plots" "dpi" 300)
    "plots" "dpi" = Some 300
  /\ Config.get (Config.set Config.DEFAULT_CONFIG "plots" "dpi" 300)
       "scoring" "docking_weight"
     = Config.get Config.DEFAULT_CONFIG "scoring" "docking_weight".
Proof.
  split.
  - exact (proj1 (config_set_then_get Config.DEFAULT_CONFIG "plots" "dpi"
                    300 "scoring" "docking_weight")).
  - apply (proj2 (config_set_then_get Config.DEFAULT_CONFIG "plots" "dpi"
                    300 "scoring" "docking_weight")).
    discriminate.
Defined.

Lemma dict_update_get {V : Type} (d other : Dict.t string V) (k : string) :
  NoDup (Dict.keys other) ->
  Dict.get k (dict_update d other)
  = match Dict.get k other with
    | Some v => Some v
    | None => Dict.get k d
    end.
Proof.
  unfold dict_update. revert d.
  induction other as [|[k0 v0] other IH]; intros d Hnd; [reflexivity|].
  inversion Hnd as [|? ? Hk0 Hnd']; subst. cbn [fold_left fst snd].
  rewrite IH by assumption. cbn [Dict.get keqb string_Key].
  destruct (String.eqb k k0) eqn:E.
  - apply String.eqb_eq in E. subst k0.
    rewrite (proj2 (get_none_keys k other)) by assumption.
    apply get_set_same.
  - apply String.eqb_neq in E. now rewrite get_set_other by assumption.
Qed.

Lemma dict_update_keys_old {V : Type} (d other : Dict.t string V) (k : string) :
  In k (Dict.keys d) -> In k (Dict.keys (dict_update d other)).
Proof.
  unfold dict_update. revert d.
  induction other as [|[k0 v0] other IH]; intros d Hk; [assumption|].
  cbn [fold_left fst snd]. apply IH. rewrite keys_set.
  destruct (Dict.mem k0 d); [assumption | apply in_or_app; now left].
Qed.

Lemma update_section_keys (c : Config.t) (item : string * Dict.t string R) :
  Dict.keys (update_section c item) = Dict.keys c.
Proof.
  destruct item as [s values]. unfold update_section.
  destruct (Dict.get s c) as [old|] eqn:E; [|reflexivity].
  rewrite keys_set. unfold Dict.mem. now rewrite E.
Qed.

Lemma update_from_dict_keys (c : Config.t)
    (config_dict : Dict.t string (Dict.t string R)) :
  Dict.keys (update_from_dict c config_dict) = Dict.keys c.
Proof.
  unfold update_from_dict. revert c.
  induction config_dict as [|item d IH]; intros c; [reflexivity|].
  cbn [fold_left]. now rewrite IH, update_section_keys.
Qed.

Lemma update_section_get (c : Config.t) (s0 : string)
    (values0 : Dict.t string R) (s k : string) :
  NoDup (Dict.keys values0) ->
  (Dict.get s (update_section c (s0, values0)) = None <-> Dict.get s c = None)
  /\ Config.get (update_section c (s0, values0)) s k
     = if String.eqb s s0 then
         match Dict.get s c, Dict.get k values0 with
         | Some _, Some v => Some v
         | _, _ => Config.get c s k
         end
       else Config.get c s k.
Proof.
  intros Hnd. unfold update_section.
  destruct (String.eqb s s0) eqn:E.
  - apply String.eqb_eq in E. subst s0.
    destruct (Dict.get s c) as [old|] eqn:Ec.
    + split.
      * rewrite get_set_same. split; discriminate.
      * unfold Config.get. rewrite get_set_same, ?Ec.
        now apply dict_update_get.
    + split; [tauto | reflexivity].
  - apply String.eqb_neq in E.
    destruct (Dict.get s0 c) as [old|]; [|split; reflexivity].
    unfold Config.get. rewrite get_set_other by assumption.
    split; reflexivity.
Qed.

Lemma update_from_dict_get (c : Config.t)
    (config_dict : Dict.t string (Dict.t string R)) (s k : string) :
  NoDup (Dict.keys config_dict) ->
  (forall sec values, In (sec, values) config_dict -> NoDup (Dict.keys values)) ->
  Config.get (update_from_dict c config_dict) s k
  = match Dict.get s c, Dict.get s config_dict with
    | Some _, Some values =>
        match Dict.get k values with
        | Some v => Some v
        | None => Config.get c s k
        end
    | _, _ => Config.get c s k
    end.
Proof.
  unfold update_from_dict. revert c.
  induction config_dict as [|[s0 values0] d IH]; intros c Hnd Hin.
  { simpl. now destruct (Dict.get s c). }
  inversion Hnd as [|? ? Hs0 Hnd']; subst. cbn [fold_left].
  rewrite IH; [|assumption | intros sec values H; apply (Hin sec values); now right].
  destruct (update_section_get c s0 values0 s k) as [Hn Hg];
    [apply (Hin s0 values0); now left|].
  remember (update_section c (s0, values0)) as c' eqn:Ec'. clear Ec'.
  rewrite Hg. cbn [Dict.get keqb string_Key].
  destruct (String.eqb s s0) eqn:E.
  - apply String.eqb_eq in E. subst s0.
    rewrite (proj2 (get_none_keys s d)) by assumption.
    destruct (Dict.get s c') as [x|] eqn:E1, (Dict.get s c) as [y|] eqn:E2;
      try (destruct (Dict.get k values0); reflexivity).
  - destruct (Dict.get s c') as [x|] eqn:E1, (Dict.get s c) as [y|] eqn:E2;
      try reflexivity;
      first [ discriminate (proj2 Hn eq_refl) | discriminate (proj1 Hn eq_refl) ].
Qed.

(** X22: [update_from_dict] never adds, removes or moves a section: a section of
    the given dictionary that the configuration does not have is dropped.
    In a section the configuration has, the given entries replace or extend
    the old ones and the entries not given stay. *)
Theorem update_from_dict_merges (c : Config.t)
    (config_dict : Dict.t string (Dict.t string R)) (s k : string) :
  NoDup (Dict.keys config_dict) ->
  (forall sec values, In (sec, values) config_dict -> NoDup (Dict.keys values)) ->
  Dict.keys (update_from_dict c config_dict) = Dict.keys c
  /\ Config.get (update_from_dict c config_dict) s k
     = match Dict.get s c, Dict.get s config_dict with
       | Some _, Some values =>
           match Dict.get k values with
           | Some v => Some v
           | None => Config.get c s k
           end
       | _, _ => Config.get c s k
       end.
Proof.
  intros Hnd Hin. split.
  - apply update_from_dict_keys.
  - now apply update_from_dict_get.
Qed.

Lemma update_from_dict_merges_witness :
  Dict.keys (update_from_dict Config.DEFAULT_CONFIG
               [ ("scoring", [("docking_weight", 1 / 2)]);
                 ("plots", [("dpi", 300)]) ])
  = Dict.keys Config.DEFAULT_CONFIG
  /\ Config.get (update_from_dict Config.DEFAULT_CONFIG
                   [ ("scoring", [("docking_weight", 1 / 2)]);
                     ("plots", [("dpi", 300)]) ])
       "plots" "dpi"
     = None.
Proof.
  assert (Hnd : NoDup (Dict.keys (V := Dict.t string R)
                         [ ("scoring", [("docking_weight", 1 / 2)]);
                           ("plots", [("dpi", 300)]) ])).
  { repeat constructor; simpl; intuition discriminate. }
  assert (Hin : forall sec values,
            In (sec, values)
               [ ("scoring", [("docking_weight", 1 / 2)]);
                 ("plots", [("dpi", 300)]) ] ->
            NoDup (Dict.keys values)).
  { intros sec values [E|[E|[]]]; inversion E; subst;
      repeat constructor; simpl; intuition. }
  split.
  - exact (proj1 (update_from_dict_merges Config.DEFAULT_CONFIG _
                    "plots" "dpi" Hnd Hin)).
  - exact (proj2 (update_from_dict_merges Config.DEFAULT_CONFIG _
                    "plots" "dpi" Hnd Hin)).
Defined.
End ConfigFacts.

(** ** The metrics and weights handed to the ranker *)

Section SelectedMetrics.

Lemma str_in_In (s : string) (l : list string) : str_in s l = true <-> In s l.
Proof.
  unfold str_in. rewrite existsb_exists. split.
  - intros (x & Hx & E). apply String.eqb_eq in E. now subst.
  - intros H. exists s. split; [assumption | apply String.eqb_refl].
Qed.

Lemma str_in_app (s : string) (l1 l2 : list string) :
  str_in s (l1 ++ l2) = (str_in s l1 || str_in s l2)%bool.
Proof. apply existsb_app. Qed.

Lemma optional_not_required (m : string) :
  str_in m OPTIONAL_METRICS = true -> str_in m REQUIRED_METRICS = false.
Proof.
  intros H. apply str_in_In in H. unfold OPTIONAL_METRICS in H. simpl in H.
  repeat (destruct H as [<-|H]; [reflexivity|]). contradiction.
Qed.

Lemma NoDup_REQUIRED_METRICS : NoDup REQUIRED_METRICS.
Proof.
  unfold REQUIRED_METRICS.
  repeat constructor; simpl; intuition discriminate.
Qed.

Let chosen (selected : list string) (item : string * R) : bool :=
  (Rltb 0 (snd item) && negb (str_in (fst item) selected))%bool.

Lemma select_metric_fold (d : Dict.t string R) (selected : list string) :
  NoDup (Dict.keys d) ->
  fold_left select_metric d selected
  = (selected ++ map fst (filter (chosen selected) d))%list.
Proof.
  revert selected. induction d as [|[m w] d IH]; intros selected Hnd.
  { simpl. now rewrite app_nil_r. }
  inversion Hnd as [|? ? Hm Hnd']; subst. cbn [fold_left].
  rewrite IH by assumption.
  assert (Hc : chosen selected (m, w)
               = (Rltb 0 w && negb (str_in m selected))%bool) by reflexivity.
  cbn [filter]. rewrite Hc. unfold select_metric.
  destruct (Rltb 0 w && negb (str_in m selected))%bool eqn:E; [|reflexivity].
  cbn [map fst]. rewrite <- app_assoc. cbn [app]. do 3 f_equal.
  apply filter_ext_in. intros [m' w'] Hin. unfold chosen. cbn [fst snd].
  rewrite str_in_app.
  assert (Hne : str_in m' [m] = false).
  { simpl. rewrite orb_false_r. apply String.eqb_neq. intros ->.
    apply Hm. now apply (in_map fst) in Hin. }
  now rewrite Hne, orb_false_r.
Qed.

(** X23: the list [get_selected_metrics] hands to the ranker: the four required
    metrics first, whatever their configured weights, then the keys of the
    optional dictionary whose weight is positive and that are not required
    metrics, in the order of the dictionary; no metric is listed twice. *)
Theorem get_selected_metrics_closed_form (d : Dict.t string R) :
  NoDup (Dict.keys d) ->
  get_selected_metrics (Some d)
  = (REQUIRED_METRICS
     ++ map fst (filter (fun item => (Rltb 0 (snd item)
                           && negb (str_in (fst item) REQUIRED_METRICS))%bool) d))%list
  /\ NoDup (get_selected_metrics (Some d)).
Proof.
  intros Hnd. unfold get_selected_metrics, Dict.items.
  rewrite select_metric_fold by assumption. split; [reflexivity|].
  apply NoDup_app; [exact NoDup_REQUIRED_METRICS | |].
  - unfold Dict.keys in Hnd.
    induction d as [|[m w] d IH]; [constructor|].
    inversion Hnd as [|? ? Hm Hnd']; subst. cbn [filter].
    destruct (chosen REQUIRED_METRICS (m, w)); [|now apply IH].
    cbn [map fst]. constructor; [|now apply IH].
    intros Hin. apply Hm. apply in_map_iff in Hin.
    destruct Hin as (x & <- & Hx). apply filter_In in Hx.
    apply in_map. tauto.
  - intros m Hr Hin. apply in_map_iff in Hin.
    destruct Hin as ([m' w'] & <- & Hx). apply filter_In in Hx.
    destruct Hx as [_ Hc]. unfold chosen in Hc. cbn [fst snd] in *.
    apply andb_true_iff in Hc. destruct Hc as [_ Hc].
    apply negb_true_iff in Hc. apply str_in_In in Hr. congruence.
Qed.
End SelectedMetrics.

Lemma NoDup_optional_weights : NoDup (Dict.keys Tables.optional_weights).
Proof. repeat constructor; simpl; intuition discriminate. Qed.

Lemma NoDup_required_weights : NoDup (Dict.keys Tables.required_weights).
Proof. repeat constructor; simpl; intuition discriminate. Qed.

Lemma get_selected_metrics_closed_form_witness :
  get_selected_metrics (Some Tables.optional_weights)
  = (REQUIRED_METRICS
     ++ map fst (filter (fun item => (Rltb 0 (snd item)
                           && negb (str_in (fst item) REQUIRED_METRICS))%bool)
                   Tables.optional_weights))%list
  /\ NoDup (get_selected_metrics (Some Tables.optional_weights)).
Proof.
  exact (get_selected_metrics_closed_form Tables.optional_weights
           NoDup_optional_weights).
Defined.

(** A zero weight switches an optional metric off; a required metric in the
    optional dictionary is not listed twice. *)
Example selected_metrics_of_sample :
  get_selected_metrics (Some Tables.optional_weights)
  = (REQUIRED_METRICS ++ ["r_i_glide_lipo"])%list.
Proof. run. reflexivity. Qed.

Section MetricsWeights.

Let lookup (d : option (Dict.t string R)) (m : string) : option R :=
  match d with
  | Some d => Dict.get m d
  | None => None
  end.

(** X24: the weights [get_metrics_weights] hands to the ranker: the weight of a
    metric is the one of the optional dictionary when the metric is listed
    there, otherwise the one of the required dictionary; a metric listed in
    neither has no entry, and the category score then counts it with
    weight 1.0. *)
Theorem get_metrics_weights_lookup
    (required_metrics optional_metrics : option (Dict.t string R)) (m : string) :
  (forall d, required_metrics = Some d -> NoDup (Dict.keys d)) ->
  (forall d, optional_metrics = Some d -> NoDup (Dict.keys d)) ->
  Dict.get m (get_metrics_weights required_metrics optional_metrics)
  = match lookup optional_metrics m with
    | Some w => Some w
    | None => lookup required_metrics m
    end
  /\ (lookup optional_metrics m = None -> lookup required_metrics m = None ->
      MetricsProcessor.weight_of
        (get_metrics_weights required_metrics optional_metrics) m = 1).
Proof.
  intros Hr Ho.
  assert (E : Dict.get m (get_metrics_weights required_metrics optional_metrics)
              = match lookup optional_metrics m with
                | Some w => Some w
                | None => lookup required_metrics m
                end).
  { unfold get_metrics_weights, lookup.
    destruct optional_metrics as [o|], required_metrics as [r|];
      rewrite ?dict_update_get by auto; cbn [Dict.get];
      repeat match goal with
             | |- context [Dict.get m ?d] => destruct (Dict.get m d)
             end;
      reflexivity. }
  split; [exact E|].
  intros H1 H2. unfold MetricsProcessor.weight_of. now rewrite E, H1, H2.
Qed.

Lemma get_metrics_weights_lookup_witness :
  Dict.get "r_i_docking_score"
    (get_metrics_weights (Some Tables.required_weights)
       (Some Tables.optional_weights))
  = Some 2.
Proof.
  refine (proj1 (get_metrics_weights_lookup (Some Tables.required_weights)
                   (Some Tables.optional_weights) "r_i_docking_score" _ _)).
  - intros d E. inversion E. exact NoDup_required_weights.
  - intros d E. inversion E. exact NoDup_optional_weights.
Defined.
End MetricsWeights.

(** ** The metrics selected on the command line (run_cli) *)

Section CommandLine.

Lemma add_metric_fold (args_metrics : list string) :
  fold_left add_metric args_metrics REQUIRED_METRICS
  = (REQUIRED_METRICS
     ++ unique (filter (fun m => str_in m OPTIONAL_METRICS) args_metrics))%list.
Proof.
  induction args_metrics as [|m args IH] using rev_ind; [reflexivity|].
  rewrite fold_left_app. cbn [fold_left]. rewrite IH, filter_app.
  unfold add_metric. cbn [filter].
  destruct (str_in m OPTIONAL_METRICS) eqn:Eo; cbn [andb].
  - rewrite unique_snoc, str_in_app, (optional_not_required m Eo). cbn [orb].
    set (F := filter (fun m => str_in m OPTIONAL_METRICS) args).
    assert (E : str_in m (unique F) = existsb (keqb m) F).
    { apply eq_true_iff_eq.
      rewrite str_in_In, in_unique, existsb_keqb. reflexivity. }
    rewrite E. destruct (existsb (keqb m) F); cbn [negb].
    + reflexivity.
    + now rewrite app_assoc.
  - now rewrite !app_nil_r.
Qed.

(** X25: the metrics [run_cli] hands to the ranker: the four required metrics,
    then the optional metrics named after [--metrics], each once, in the
    order in which they are first named; a name that is not an optional
    metric (a required metric, a misspelt one) is dropped silently. *)
Theorem cli_selected_metrics_closed_form (args_metrics : list string) :
  cli_selected_metrics args_metrics
  = (REQUIRED_METRICS
     ++ unique (filter (fun m => str_in m OPTIONAL_METRICS) args_metrics))%list
  /\ NoDup (cli_selected_metrics args_metrics)
  /\ MetricsProcessor.optional_of (cli_selected_metrics args_metrics)
     = unique (filter (fun m => str_in m OPTIONAL_METRICS) args_metrics).
Proof.
  unfold cli_selected_metrics. rewrite add_metric_fold.
  set (U := unique (filter (fun m => str_in m OPTIONAL_METRICS) args_metrics)).
  assert (HU : forall m, In m U -> str_in m OPTIONAL_METRICS = true).
  { intros m Hm. unfold U in Hm. apply (proj1 (in_unique _ _)) in Hm.
    apply filter_In in Hm. tauto. }
  split; [reflexivity|]. split.
  - apply NoDup_app; [exact NoDup_REQUIRED_METRICS | apply NoDup_unique |].
    intros m Hr Hu. apply HU in Hu. apply optional_not_required in Hu.
    apply str_in_In in Hr. congruence.
  - unfold MetricsProcessor.optional_of. rewrite filter_app.
    change (filter (fun m => str_in m OPTIONAL_METRICS) REQUIRED_METRICS)
      with (@nil string).
    cbn [app]. apply forallb_filter_id. apply forallb_forall. exact HU.
Qed.
End CommandLine.

Example cli_metrics_of_sample :
  cli_selected_metrics
    ["r_i_glide_hbond"; "r_i_docking_score"; "glide_lipo"; "r_i_glide_hbond"]
  = (REQUIRED_METRICS ++ ["r_i_glide_hbond"])%list.
Proof. reflexivity. Qed.

(** ** The category weights set in the window (update_scoring_weights) *)

Section ScoringWeights.

Lemma Rabs_le_iff (x a : R) : Rabs x <= a <-> - a <= x <= a.
Proof.
  unfold Rabs. destruct (Rcase_abs x); split; intros H; lra.
Qed.

Lemma update_scoring_weights_result (config : Config.t)
    (docking_weight energy_weight optional_weight : R) :
  1 / 10 <= docking_weight <= 1 ->
  1 / 10 <= energy_weight <= 1 ->
  0 <= optional_weight <= 1 ->
  exists config' dw ew ow,
    update_scoring_weights config docking_weight energy_weight optional_weight
    = Ok config'
    /\ Config.get config' "scoring" "docking_weight" = Some dw
    /\ Config.get config' "scoring" "energy_weight" = Some ew
    /\ Config.get config' "scoring" "optional_weight" = Some ow
    /\ 0 < dw /\ 0 < ew /\ 0 <= ow
    /\ - (1 / 100) <= dw + ew + ow - 1 <= 1 / 100
    /\ dw * energy_weight = ew * docking_weight
    /\ dw * optional_weight = ow * docking_weight
    /\ py_or (Config.get config' "scoring" "docking_weight") (4 / 10) = dw
    /\ py_or (Config.get config' "scoring" "energy_weight") (4 / 10) = ew
    /\ py_or (Config.get config' "scoring" "optional_weight") (2 / 10)
       = if Reqb optional_weight 0 then 2 / 10 else ow.
Proof.
  intros Hd He Ho. unfold update_scoring_weights.
  set (total := docking_weight + energy_weight + optional_weight).
  assert (Ht : 0 < total) by (unfold total; lra).
  assert (Hw : exists dw ew ow,
            (if Rltb (1 / 100) (Rabs (total - 1)) then
               if Reqb total 0 then Raise ZeroDivisionError
               else Ok (docking_weight / total, energy_weight / total,
                        optional_weight / total)
             else Ok (docking_weight, energy_weight, optional_weight))
            = Ok (dw, ew, ow)
            /\ 0 < dw /\ 0 < ew /\ 0 <= ow
            /\ - (1 / 100) <= dw + ew + ow - 1 <= 1 / 100
            /\ dw * energy_weight = ew * docking_weight
            /\ dw * optional_weight = ow * docking_weight
            /\ (ow = 0 <-> optional_weight = 0)).
  { destruct (Rltb (1 / 100) (Rabs (total - 1))) eqn:E.
    - rewrite (proj2 (Reqb_neq total 0)) by lra.
      do 3 eexists. split; [reflexivity|].
      assert (Hi : 0 < / total) by now apply Rinv_0_lt_compat.
      assert (Hs : docking_weight / total + energy_weight / total
                   + optional_weight / total - 1 = 0).
      { unfold Rdiv.
        replace (docking_weight * / total + energy_weight * / total
                 + optional_weight * / total - 1)
          with (total * / total - 1) by (unfold total; ring).
        rewrite Rinv_r by lra. lra. }
      split; [unfold Rdiv; nra|]. split; [unfold Rdiv; nra|].
      split; [unfold Rdiv; nra|]. split; [rewrite Hs; lra|].
      split; [unfold Rdiv; ring|]. split; [unfold Rdiv; ring|].
      unfold Rdiv. split.
      * intros H. apply Rmult_integral in H. destruct H; lra.
      * intros ->. ring.
    - apply Rltb_ge in E. apply Rabs_le_iff in E. unfold total in E.
      do 3 eexists. split; [reflexivity|].
      split; [lra|]. split; [lra|]. split; [lra|]. split; [lra|].
      split; [ring|]. split; [ring|]. tauto. }
  destruct Hw as (dw & ew & ow & -> & Hdw & Hew & How & Hsum & Hp1 & Hp2 & Hz).
  cbn [bind]. eexists. exists dw, ew, ow. split; [reflexivity|].
  rewrite !config_get_set. cbn [String.eqb Ascii.eqb Bool.eqb andb].
  repeat split; try assumption; try lra.
  - unfold py_or. now rewrite (proj2 (Reqb_neq dw 0)) by lra.
  - unfold py_or. now rewrite (proj2 (Reqb_neq ew 0)) by lra.
  - unfold py_or. destruct (Reqb optional_weight 0) eqn:E.
    + apply Reqb_eq in E. now rewrite (proj2 (Reqb_eq ow 0)) by tauto.
    + apply Reqb_neq in E. now rewrite (proj2 (Reqb_neq ow 0)) by tauto.
Qed.

(** X26: for spin-box values in their ranges (docking and energy weights in
    [0.1, 1], optional weight in [0, 1]) [update_scoring_weights] does not
    raise and stores three weights in the proportions of the values; their
    sum is within 0.01 of 1.  The scorer reads back the docking and energy
    weights as stored; an optional weight of zero, however, is stored as 0.0
    and read back by the scorer as its default 0.2. *)
Theorem update_scoring_weights_stores (config : Config.t)
    (docking_weight energy_weight optional_weight : R) :
  1 / 10 <= docking_weight <= 1 ->
  1 / 10 <= energy_weight <= 1 ->
  0 <= optional_weight <= 1 ->
  exists config' dw ew ow,
    update_scoring_weights config docking_weight energy_weight optional_weight
    = Ok config'
    /\ Config.get config' "scoring" "docking_weight" = Some dw
    /\ Config.get config' "scoring" "energy_weight" = Some ew
    /\ Config.get config' "scoring" "optional_weight" = Some ow
    /\ 0 < dw /\ 0 < ew /\ 0 <= ow
    /\ - (1 / 100) <= dw + ew + ow - 1 <= 1 / 100
    /\ dw * energy_weight = ew * docking_weight
    /\ dw * optional_weight = ow * docking_weight
    /\ py_or (Config.get config' "scoring" "docking_weight") (4 / 10) = dw
    /\ py_or (Config.get config' "scoring" "energy_weight") (4 / 10) = ew
    /\ py_or (Config.get config' "scoring" "optional_weight") (2 / 10)
       = if Reqb optional_weight 0 then 2 / 10 else ow.
Proof.
  exact (update_scoring_weights_result config docking_weight energy_weight
           optional_weight).
Qed.

Lemma update_scoring_weights_stores_witness :
  exists config' dw ew ow,
    update_scoring_weights Config.DEFAULT_CONFIG (1 / 2) (1 / 2) 0
    = Ok config'
    /\ Config.get config' "scoring" "docking_weight" = Some dw
    /\ Config.get config' "scoring" "energy_weight" = Some ew
    /\ Config.get config' "scoring" "optional_weight" = Some ow
    /\ 0 < dw /\ 0 < ew /\ 0 <= ow
    /\ - (1 / 100) <= dw + ew + ow - 1 <= 1 / 100
    /\ dw * (1 / 2) = ew * (1 / 2)
    /\ dw * 0 = ow * (1 / 2)
    /\ py_or (Config.get config' "scoring" "docking_weight") (4 / 10) = dw
    /\ py_or (Config.get config' "scoring" "energy_weight") (4 / 10) = ew
    /\ py_or (Config.get config' "scoring" "optional_weight") (2 / 10)
       = if Reqb 0 0 then 2 / 10 else ow.
Proof.
  apply (update_scoring_weights_stores Config.DEFAULT_CONFIG (1 / 2) (1 / 2) 0);
    lra.
Defined.
End ScoringWeights.

(** Docking and energy weights of one half each and an optional weight of
    zero: the scorer works with 0.5, 0.5 and 0.2. *)
Example zero_optional_weight_is_default :
  exists config',
    update_scoring_weights Config.DEFAULT_CONFIG (1 / 2) (1 / 2) 0 = Ok config'
    /\ scoring config' Samples.with_lipo [] Samples.worst_row
       = Ok (Some (12 / 10), Some 1, Some 1).
Proof.
  eexists. split.
  - unfold update_scoring_weights. cbn [bind].
    replace (Rltb (1 / 100) (Rabs (1 / 2 + 1 / 2 + 0 - 1))) with false.
    + reflexivity.
    + symmetry. apply Rltb_ge. replace (1 / 2 + 1 / 2 + 0 - 1) with 0 by lra.
      rewrite Rabs_R0. lra.
  - run. same_reals.
Qed.

(** ** The failure sentinel (handle_special_values, preprocess_data) *)

Section SpecialValues.
Import DataProcessor Helpers.

Variable special_value : R.

Let scrub (columns : list string) (r : Row) : Row :=
  fold_left (fun r c => scrub_cell special_value c r) columns r.

Lemma scrub_cell_labels (c : string) (r : Row) :
  same_labels r (scrub_cell special_value c r)
  /\ Dict.keys (cols (scrub_cell special_value c r)) = Dict.keys (cols r).
Proof.
  unfold scrub_cell, same_labels, cell.
  destruct (Dict.get c (cols r)) as [v|] eqn:E; [|simpl; auto].
  destruct (feq v (Some special_value)); [|auto].
  cbn [set_cell cols title lignum protein_name]. split; [auto|].
  rewrite keys_set. unfold Dict.mem. now rewrite E.
Qed.

Lemma scrub_cell_cell (c c' : string) (r : Row) :
  cell c' (scrub_cell special_value c r)
  = if (String.eqb c' c && feq (cell c' r) (Some special_value))%bool
    then NaN else cell c' r.
Proof.
  unfold scrub_cell. destruct (String.eqb c' c) eqn:E; cbn [andb].
  - apply String.eqb_eq in E. subst c'.
    destruct (feq (cell c r) (Some special_value)); [|reflexivity].
    unfold cell, set_cell. cbn [cols]. now rewrite get_set_same.
  - apply String.eqb_neq in E.
    destruct (feq (cell c r) (Some special_value)); [|reflexivity].
    unfold cell, set_cell. cbn [cols]. now rewrite get_set_other by assumption.
Qed.

Lemma scrub_cell_id (c : string) (r : Row) :
  feq (cell c r) (Some special_value) = false ->
  scrub_cell special_value c r = r.
Proof. unfold scrub_cell. now intros ->. Qed.

Lemma uniform_map (g : Row -> Row) (data : DataFrame) :
  (forall r, Dict.keys (cols (g r)) = Dict.keys (cols r)) ->
  uniform data -> uniform (map g data).
Proof.
  intros Hg Hu r r' Hr Hr'. apply in_map_iff in Hr, Hr'.
  destruct Hr as (x & <- & Hx), Hr' as (x' & <- & Hx').
  rewrite !Hg. now apply Hu.
Qed.

Lemma scrub_column_map (data : DataFrame) (c : string) :
  uniform data ->
  scrub_column special_value data c = map (scrub_cell special_value c) data.
Proof.
  intros Hu. unfold scrub_column.
  destruct (has_column c data) eqn:E; [reflexivity|].
  symmetry. rewrite <- (map_id data) at 2. apply map_ext_in.
  intros r Hr. apply scrub_cell_id.
  destruct data as [|r0 data]; [contradiction|]. simpl in E.
  apply mem_false_keys in E. rewrite (Hu r0 r) in E by (simpl; auto).
  apply get_none_keys in E. unfold cell. now rewrite E.
Qed.

Lemma scrub_labels (columns : list string) (r : Row) :
  same_labels r (scrub columns r)
  /\ Dict.keys (cols (scrub columns r)) = Dict.keys (cols r).
Proof.
  unfold scrub. revert r. induction columns as [|c columns IH]; intros r.
  - unfold same_labels. simpl. auto.
  - cbn [fold_left].
    destruct (IH (scrub_cell special_value c r)) as [(H1 & H2 & H3) H4].
    destruct (scrub_cell_labels c r) as [(G1 & G2 & G3) G4].
    unfold same_labels. rewrite H1, H2, H3, H4. auto.
Qed.

Lemma scrub_cells (columns : list string) (r : Row) (c : string) :
  cell c (scrub columns r)
  = if (str_in c columns && feq (cell c r) (Some special_value))%bool
    then NaN else cell c r.
Proof.
  unfold scrub. revert r. induction columns as [|c0 columns IH]; intros r.
  - reflexivity.
  - cbn [fold_left]. rewrite IH, scrub_cell_cell.
    unfold str_in. cbn [existsb]. fold (str_in c columns).
    destruct (String.eqb c c0); cbn [andb orb].
    + destruct (feq (cell c r) (Some special_value)) eqn:E.
      * now rewrite andb_false_r.
      * now rewrite E, andb_false_r.
    + reflexivity.
Qed.


Lemma handle_special_values_map (df : DataFrame) (columns : list string) :
  uniform df ->
  handle_special_values df columns special_value = map (scrub columns) df.
Proof.
  unfold handle_special_values, scrub. revert df.
  induction columns as [|c columns IH]; intros df Hu.
  - simpl. now rewrite map_id.
  - cbn [fold_left]. rewrite scrub_column_map by assumption.
    rewrite IH.
    + now rewrite map_map.
    + apply uniform_map; [|assumption]. intros r. apply scrub_cell_labels.
Qed.

(** X10: on a table, [handle_special_values] keeps the rows, their order, their
    identity and their column labels, and changes cells only: a cell of a
    listed column that equals the special value becomes NaN, every other
    cell is as it was (a NaN cell, and a listed column the table does not
    have, included). *)
Theorem handle_special_values_cells (df : DataFrame) (columns : list string) :
  uniform df ->
  Forall2 (fun r r' =>
             same_labels r r'
             /\ Dict.keys (cols r') = Dict.keys (cols r)
             /\ forall c,
                  cell c r'
                  = if (str_in c columns
                        && feq (cell c r) (Some special_value))%bool
                    then NaN else cell c r)
          df (handle_special_values df columns special_value).
Proof.
  intros Hu. rewrite handle_special_values_map by assumption.
  clear Hu. induction df as [|r df IH]; cbn [map]; constructor; [|exact IH].
  destruct (scrub_labels columns r) as [H1 H2].
  split; [exact H1|]. split; [exact H2|]. intros c. apply scrub_cells.
Qed.
End SpecialValues.

Section Preprocess.
Import DataProcessor Helpers.

Lemma preprocess_data_map (data : DataFrame) :
  uniform data ->
  preprocess_data data
  = map (fun r => fold_left (fun r c => scrub_cell 10000 c r) DOCKING_METRICS r)
        data.
Proof.
  intros Hu. unfold preprocess_data. destruct data as [|r data]; [reflexivity|].
  now apply handle_special_values_map.
Qed.

End Preprocess.

Lemma uniform_raw_table : uniform Tables.raw_table.
Proof. intros r r' [<-|[<-|[]]] [<-|[<-|[]]]; reflexivity. Qed.

Lemma handle_special_values_cells_witness :
  Forall2 (fun r r' =>
             same_labels r r'
             /\ Dict.keys (cols r') = Dict.keys (cols r)
             /\ forall c,
                  DataProcessor.cell c r'
                  = if (str_in c DOCKING_METRICS
                        && feq (DataProcessor.cell c r) (Some 10000))%bool
                    then NaN else DataProcessor.cell c r)
          Tables.raw_table
          (Helpers.handle_special_values Tables.raw_table DOCKING_METRICS 10000).
Proof.
  exact (handle_special_values_cells 10000 Tables.raw_table DOCKING_METRICS
           uniform_raw_table).
Defined.


(** The sentinel of the failed docking becomes NaN; nothing else changes. *)
Example preprocess_raw_table :
  preprocess_data Tables.raw_table = Samples.scrubbed_table.
Proof. run. reflexivity. Qed.

(** ** The normalised table (DataProcessor.normalize_data) *)

Lemma Forall2_compose {A B C : Type} (P : A -> B -> Prop) (Q : B -> C -> Prop)
    (R : A -> C -> Prop) (l1 : list A) (l2 : list B) (l3 : list C) :
  (forall a b c, P a b -> Q b c -> R a c) ->
  Forall2 P l1 l2 -> Forall2 Q l2 l3 -> Forall2 R l1 l3.
Proof.
  intros H F. revert l3.
  induction F; intros l3 G; inversion G; subst; constructor; eauto.
Qed.

Lemma Forall2_and {A B : Type} (P Q : A -> B -> Prop) (l : list A) (l' : list B) :
  Forall2 P l l' -> Forall2 Q l l' -> Forall2 (fun a b => P a b /\ Q a b) l l'.
Proof.
  induction 1; intros G; inversion G; subst; constructor; auto.
Qed.

Lemma Forall2_all {A B X : Type} (P : A -> B -> Prop) (Pre : X -> Prop)
    (R : X -> A -> B -> Prop) (l : list A) (l' : list B) :
  Forall2 P l l' ->
  (forall x, Pre x -> Forall2 (R x) l l') ->
  Forall2 (fun a b => forall x, Pre x -> R x a b) l l'.
Proof.
  induction 1 as [|a b l l' _ _ IH]; intros H; constructor.
  - intros x Hx. specialize (H x Hx). now inversion H.
  - apply IH. intros x Hx. specialize (H x Hx). now inversion H.
Qed.

Lemma fold_left_preserves {S X : Type} (f : S -> X -> S) (A : S -> Prop)
    (l0 : list X) :
  (forall s y, In y l0 -> A s -> A (f s y)) ->
  forall l s, incl l l0 -> A s -> A (fold_left f l s).
Proof.
  intros Hstep. induction l as [|y l IH]; intros s Hl HA; [assumption|].
  simpl. apply IH.
  - intros z Hz. apply Hl. now right.
  - apply Hstep; [apply Hl; now left | assumption].
Qed.

Lemma fold_left_establishes {S X : Type} (f : S -> X -> S) (A P : S -> Prop)
    (l0 : list X) (x : X) :
  (forall s y, In y l0 -> A s -> A (f s y)) ->
  (forall s, A s -> P (f s x)) ->
  (forall s y, In y l0 -> A s -> P s -> P (f s y)) ->
  forall l s, incl l l0 -> In x l -> A s -> P (fold_left f l s).
Proof.
  intros Hstep Hest Hpres.
  induction l as [|y l IH]; intros s Hl Hin HA; [contradiction|].
  assert (Hl' : incl l l0) by (intros z Hz; apply Hl; now right).
  assert (Hy : In y l0) by (apply Hl; now left).
  simpl. destruct Hin as [->|Hin].
  - assert (H : A (f s x) /\ P (f s x)) by (split; auto).
    apply (fold_left_preserves f (fun s => A s /\ P s) l0); [|exact Hl'|exact H].
    intros s' z Hz [HA' HP']. split; auto.
  - apply IH; auto.
Qed.

Lemma normalized_name_inj (m m' : string) :
  "normalized_" ++ m = "normalized_" ++ m' -> m = m'.
Proof. simpl. intros H. now inversion H. Qed.

Section NormalizeData.
Import DataProcessor.

Variable data : DataFrame.
Variable method : string.

Let MS : list string := (REQUIRED_METRICS ++ OPTIONAL_METRICS)%list.

(** What one assignment [loc[idx, column] = values] does to a row. *)
Let assigned (protein column : string) (vals : list fval) (r r' : Row) : Prop :=
  same_labels r r'
  /\ (forall c, c <> column -> Dict.get c (cols r') = Dict.get c (cols r))
  /\ if String.eqb (protein_name r) protein
     then exists v, In v vals /\ Dict.get column (cols r') = Some v
     else Dict.get column (cols r') = Some (cell column r).

(** What the loops have done to a row so far. *)
Let normalized (r r' : Row) : Prop :=
  same_labels r r'
  /\ (forall c,
        (forall m, In m MS -> has_column m data = true ->
           c <> "normalized_" ++ m) ->
        Dict.get c (cols r') = Dict.get c (cols r))
  /\ (forall m v,
        Dict.get ("normalized_" ++ m) (cols r') = Some v ->
        v = NaN \/ in01 v \/ Dict.get ("normalized_" ++ m) (cols r) = Some v).

Lemma group_length (p : string) (nd : DataFrame) :
  Forall2 same_labels data nd ->
  List.length (group p nd) = List.length (group p data).
Proof.
  unfold group. induction 1 as [|r r' l l' (_ & _ & Hp) _ IH]; [reflexivity|].
  cbn [filter]. rewrite Hp.
  destruct (String.eqb (protein_name r) p); simpl; congruence.
Qed.

Lemma loc_assign_rel (protein column : string) (vals values : list fval)
    (nd : DataFrame) :
  (forall v, In v values -> In v vals) ->
  List.length values = List.length (group protein nd) ->
  Forall2 (assigned protein column vals) nd
    (loc_assign protein column values nd).
Proof.
  revert values. induction nd as [|r nd IH]; intros values Hsub Hlen;
    cbn [loc_assign]; [constructor|].
  unfold group in Hlen. cbn [filter] in Hlen.
  destruct (String.eqb (protein_name r) protein) eqn:E.
  - destruct values as [|v values']; [discriminate|].
    constructor.
    + unfold assigned, same_labels. rewrite E.
      cbn [set_cell cols title lignum protein_name].
      split; [auto|]. split.
      * intros c Hc. now apply get_set_other.
      * exists v. split; [apply Hsub; now left | apply get_set_same].
    + apply IH.
      * intros v' Hv'. apply Hsub. now right.
      * simpl in Hlen. now inversion Hlen.
  - constructor; [|now apply IH].
    unfold assigned, same_labels. rewrite E. unfold Dict.mem, cell.
    destruct (Dict.get column (cols r)) as [v|] eqn:G.
    + auto.
    + cbn [set_cell cols title lignum protein_name].
      split; [auto|]. split.
      * intros c Hc. now apply get_set_other.
      * apply get_set_same.
Qed.

Lemma normalized_labels (nd : DataFrame) :
  Forall2 normalized data nd -> Forall2 same_labels data nd.
Proof.
  apply Forall2_impl. intros r r' Hn. apply Hn.
Qed.

Lemma normalize_group_step (metric p : string) (nd : DataFrame) :
  Forall2 same_labels data nd ->
  existsb notna (map (cell metric) (group p data)) = true ->
  Forall2 (assigned p ("normalized_" ++ metric)
             (normalize_metric (map (cell metric) (group p data)) method))
    nd (normalize_group data method metric nd p).
Proof.
  intros Hl He. unfold normalize_group. rewrite He.
  apply loc_assign_rel; [auto|].
  destruct (normalize_metric_pointwise (map (cell metric) (group p data)) method)
    as (f & -> & _).
  rewrite 2 length_map. symmetry. now apply group_length.
Qed.

Lemma normalize_group_skip (metric p : string) (nd : DataFrame) :
  existsb notna (map (cell metric) (group p data)) = false ->
  normalize_group data method metric nd p = nd.
Proof. intros He. unfold normalize_group. now rewrite He. Qed.

Lemma normalized_values_in01 (values : list fval) (v : fval) :
  In v (normalize_metric values method) -> in01 v.
Proof.
  destruct (normalize_metric_pointwise values method) as (f & -> & Hf & _).
  intros Hv. apply in_map_iff in Hv. destruct Hv as (x & <- & Hx).
  now apply Hf.
Qed.

Lemma assigned_normalized (metric p : string) (values : list fval)
    (r r' r'' : Row) :
  In metric MS -> has_column metric data = true ->
  normalized r r' ->
  assigned p ("normalized_" ++ metric) (normalize_metric values method) r' r'' ->
  normalized r r''.
Proof.
  intros Hm Hc ((T1 & L1 & P1) & Q2 & Q3) ((T2 & L2 & P2) & S2 & S3).
  split; [|split].
  - unfold same_labels. rewrite T2, L2, P2. auto.
  - intros c Hcond. rewrite S2 by (apply Hcond; assumption). now apply Q2.
  - intros m v Hv.
    destruct (string_dec ("normalized_" ++ m) ("normalized_" ++ metric)) as [e|n].
    + rewrite e in *. destruct (String.eqb (protein_name r') p).
      * destruct S3 as (v0 & Hv0 & G). rewrite G in Hv. inversion Hv. subst v0.
        right. left. eapply normalized_values_in01. eassumption.
      * rewrite S3 in Hv.
        assert (Hcell : cell ("normalized_" ++ metric) r' = v) by congruence.
        rewrite <- Hcell. unfold cell.
        destruct (Dict.get ("normalized_" ++ metric) (cols r')) as [v1|] eqn:G.
        -- apply (Q3 metric). exact G.
        -- now left.
    + rewrite S2 in Hv by assumption. now apply Q3.
Qed.

Lemma normalize_group_normalized (metric p : string) (nd : DataFrame) :
  In metric MS -> has_column metric data = true ->
  Forall2 normalized data nd ->
  Forall2 normalized data (normalize_group data method metric nd p).
Proof.
  intros Hm Hc Hn.
  destruct (existsb notna (map (cell metric) (group p data))) eqn:He.
  - eapply Forall2_compose;
      [ | exact Hn
        | apply normalize_group_step;
          [apply normalized_labels; exact Hn | exact He] ].
    intros a b c Hab Hbc. eapply assigned_normalized; eassumption.
  - now rewrite normalize_group_skip.
Qed.

Lemma normalize_column_normalized (metric : string) (nd : DataFrame) :
  In metric MS ->
  Forall2 normalized data nd ->
  Forall2 normalized data (normalize_column data method nd metric).
Proof.
  intros Hm Hn. unfold normalize_column.
  destruct (has_column metric data) eqn:Hc; [|assumption].
  apply (fold_left_preserves _ (fun nd => Forall2 normalized data nd)
           (group_keys data)); [|apply incl_refl|assumption].
  intros s p _ Hs. now apply normalize_group_normalized.
Qed.

Lemma normalize_data_fold :
  normalize_data data method = fold_left (normalize_column data method) MS data.
Proof. unfold normalize_data. destruct data; reflexivity. Qed.

Lemma normalized_refl : Forall2 normalized data data.
Proof.
  assert (H : forall l : DataFrame, Forall2 normalized l l).
  { induction l as [|r l IH]; constructor; [|exact IH].
    unfold normalized, same_labels. auto. }
  apply H.
Qed.

Lemma normalize_data_normalized :
  Forall2 normalized data (normalize_data data method).
Proof.
  rewrite normalize_data_fold.
  apply (fold_left_preserves _ (fun nd => Forall2 normalized data nd) MS);
    [|apply incl_refl|apply normalized_refl].
  intros s m Hm Hs. now apply normalize_column_normalized.
Qed.

(** X5: [normalize_data] returns the rows of its input in the same order, each
    with its identity and protein, and leaves every column alone that is
    not the [normalized_] companion of a catalogue metric the table has:
    the raw metric columns in particular are not changed. *)
Theorem normalize_data_keeps_table :
  Forall2 (fun r r' =>
             same_labels r r'
             /\ forall c,
                  (forall m, In m (REQUIRED_METRICS ++ OPTIONAL_METRICS)%list ->
                     has_column m data = true -> c <> "normalized_" ++ m) ->
                  Dict.get c (cols r') = Dict.get c (cols r))
          data (normalize_data data method).
Proof.
  eapply Forall2_impl; [|exact normalize_data_normalized].
  intros r r' (H1 & H2 & _). split; [exact H1 | exact H2].
Qed.

(** X6: every [normalized_] cell of the result is NaN, a number of [0,1], or a
    cell that the input already had under that name. *)
Theorem normalize_data_cells :
  Forall2 (fun r r' =>
             forall m v,
               Dict.get ("normalized_" ++ m) (cols r') = Some v ->
               v = NaN \/ in01 v
               \/ Dict.get ("normalized_" ++ m) (cols r) = Some v)
          data (normalize_data data method).
Proof.
  eapply Forall2_impl; [|exact normalize_data_normalized].
  intros r r' (_ & _ & H3). exact H3.
Qed.

(** The rows of protein [p] have a normalised value of metric [m]. *)
Let target (m p : string) (r r' : Row) : Prop :=
  protein_name r = p -> in01 (cell ("normalized_" ++ m) r').

Lemma assigned_target_keeps (m p metric p' : string) (values : list fval)
    (r r' r'' : Row) :
  normalized r r' /\ target m p r r' ->
  assigned p' ("normalized_" ++ metric) (normalize_metric values method) r' r'' ->
  target m p r r''.
Proof.
  intros [((_ & _ & P1) & _ & _) HT] (_ & S2 & S3) Hp.
  specialize (HT Hp). unfold cell in *.
  destruct (string_dec ("normalized_" ++ m) ("normalized_" ++ metric)) as [e|n].
  - rewrite e in *. destruct (String.eqb (protein_name r') p').
    + destruct S3 as (v0 & Hv0 & ->).
      eapply normalized_values_in01. eassumption.
    + rewrite S3. exact HT.
  - now rewrite S2 by assumption.
Qed.

Lemma assigned_target_sets (m p : string) (values : list fval) (r r' r'' : Row) :
  normalized r r' ->
  assigned p ("normalized_" ++ m) (normalize_metric values method) r' r'' ->
  target m p r r''.
Proof.
  intros ((_ & _ & P1) & _ & _) (_ & _ & S3) Hp. unfold cell.
  rewrite P1, Hp, String.eqb_refl in S3. destruct S3 as (v0 & Hv0 & ->).
  eapply normalized_values_in01. eassumption.
Qed.

Lemma normalize_group_target_keeps (m p metric p' : string) (nd : DataFrame) :
  Forall2 normalized data nd ->
  Forall2 (target m p) data nd ->
  Forall2 (target m p) data (normalize_group data method metric nd p').
Proof.
  intros Hn Ht.
  destruct (existsb notna (map (cell metric) (group p' data))) eqn:He.
  - eapply Forall2_compose;
      [ | exact (Forall2_and _ _ _ _ Hn Ht)
        | apply normalize_group_step;
          [apply normalized_labels; exact Hn | exact He] ].
    intros a b c Hab Hbc.
    exact (assigned_target_keeps m p metric p' _ a b c Hab Hbc).
  - now rewrite normalize_group_skip.
Qed.

Lemma normalize_group_target_sets (m p : string) (nd : DataFrame) :
  existsb notna (map (cell m) (group p data)) = true ->
  Forall2 normalized data nd ->
  Forall2 (target m p) data (normalize_group data method m nd p).
Proof.
  intros He Hn.
  eapply Forall2_compose;
    [ | exact Hn
      | apply normalize_group_step;
        [apply normalized_labels; exact Hn | exact He] ].
  intros a b c Hab Hbc.
  exact (assigned_target_sets m p _ a b c Hab Hbc).
Qed.

Lemma normalize_column_target_keeps (m p metric : string) (nd : DataFrame) :
  In metric MS ->
  Forall2 normalized data nd ->
  Forall2 (target m p) data nd ->
  Forall2 (target m p) data (normalize_column data method nd metric).
Proof.
  intros Hm Hn Ht. unfold normalize_column.
  destruct (has_column metric data) eqn:Hc; [|assumption].
  apply (fold_left_preserves _
           (fun nd => Forall2 normalized data nd /\ Forall2 (target m p) data nd)
           (group_keys data)); [|apply incl_refl|auto].
  intros s p' _ [Hs1 Hs2]. split.
  - now apply normalize_group_normalized.
  - now apply normalize_group_target_keeps.
Qed.

Lemma normalize_column_target_sets (m p : string) (nd : DataFrame) :
  In m MS -> has_column m data = true ->
  In p (group_keys data) ->
  existsb notna (map (cell m) (group p data)) = true ->
  Forall2 normalized data nd ->
  Forall2 (target m p) data (normalize_column data method nd m).
Proof.
  intros Hm Hc Hp He Hn. unfold normalize_column. rewrite Hc.
  apply (fold_left_establishes _ (fun nd => Forall2 normalized data nd)
           (fun nd => Forall2 (target m p) data nd) (group_keys data) p);
    [ | | |apply incl_refl|assumption|assumption].
  - intros s p' _ Hs. now apply normalize_group_normalized.
  - intros s Hs. now apply normalize_group_target_sets.
  - intros s p' _ Hs Ht. now apply normalize_group_target_keeps.
Qed.

Lemma normalize_data_target (m p : string) :
  In m MS -> has_column m data = true ->
  In p (group_keys data) ->
  existsb notna (map (cell m) (group p data)) = true ->
  Forall2 (target m p) data (normalize_data data method).
Proof.
  intros Hm Hc Hp He. rewrite normalize_data_fold.
  apply (fold_left_establishes _ (fun nd => Forall2 normalized data nd)
           (fun nd => Forall2 (target m p) data nd) MS m);
    [ | | |apply incl_refl|assumption|apply normalized_refl].
  - intros s metric Hmetric Hs. now apply normalize_column_normalized.
  - intros s Hs. now apply normalize_column_target_sets.
  - intros s metric Hmetric Hs Ht. now apply normalize_column_target_keeps.
Qed.

Lemma normalize_data_groups :
  Forall2 (fun r r' =>
             forall m, In m MS -> has_column m data = true ->
               (exists r0, In r0 data /\ protein_name r0 = protein_name r
                           /\ notna (cell m r0) = true) ->
               in01 (cell ("normalized_" ++ m) r'))
          data (normalize_data data method).
Proof.
  eapply Forall2_impl;
    [ | apply (Forall2_all normalized
                 (fun x : string * string =>
                    In (fst x) MS /\ has_column (fst x) data = true
                    /\ exists r0, In r0 data /\ protein_name r0 = snd x
                                   /\ notna (cell (fst x) r0) = true)
                 (fun x => target (fst x) (snd x)));
        [exact normalize_data_normalized|] ].
  - intros r r' H m Hm Hc Hex. apply (H (m, protein_name r)); cbn [fst snd]; auto.
  - intros [m p] (Hm & Hc & r0 & Hr0 & Hp & Hv). cbn [fst snd] in *.
    apply normalize_data_target; try assumption.
    + unfold group_keys. apply in_unique. rewrite <- Hp. now apply in_map.
    + apply existsb_exists. exists (cell m r0). split; [|assumption].
      apply in_map. unfold group. apply filter_In. split; [assumption|].
      now apply String.eqb_eq.
Qed.

(** X7: the counterpart of the group without values: whenever the protein group
    of a row has at least one value of a catalogue metric that the table
    has, the row gets a normalised value of that metric, and it is a number
    of [0,1]; this holds for every method. *)
Theorem normalize_data_present_group :
  Forall2 (fun r r' =>
             forall m, In m (REQUIRED_METRICS ++ OPTIONAL_METRICS)%list ->
               has_column m data = true ->
               (exists r0, In r0 data /\ protein_name r0 = protein_name r
                           /\ notna (cell m r0) = true) ->
               in01 (cell ("normalized_" ++ m) r'))
          data (normalize_data data method).
Proof. exact normalize_data_groups. Qed.

(** X9: from the raw table to the category scores: if the table has no
    [normalized_] column yet and every protein group has at least one value
    in every catalogue column of the table, then in every row of the
    normalised table all normalised values are numbers of [0,1], and so is
    the category score of any set of metrics under non-negative weights. *)
Theorem normalized_table_scores (weights : Dict.t string R) :
  (forall r m, In r data -> Dict.get ("normalized_" ++ m) (cols r) = None) ->
  (forall m r, In m (REQUIRED_METRICS ++ OPTIONAL_METRICS)%list ->
     has_column m data = true -> In r data ->
     exists r0, In r0 data /\ protein_name r0 = protein_name r
                /\ notna (cell m r0) = true) ->
  weights_nonneg weights ->
  forall r' S, In r' (normalize_data data method) ->
    normalized_in01 r'
    /\ in01 (MetricsProcessor.calculate_weighted_score r' S weights).
Proof.
  intros Hraw Hfull Hw r' S Hr'.
  assert (Hrow : normalized_in01 r').
  { destruct (Forall2_in_right _ _ _ _
                (Forall2_and _ _ _ _ normalize_data_normalized normalize_data_groups)
                Hr') as (r & Hr & (_ & Q2 & Q3) & HG).
    intros m v Hv. unfold MetricsProcessor.get_normalized_column_name in Hv.
    destruct (in_dec string_dec m MS) as [Hm|Hm];
      [destruct (has_column m data) eqn:Hc|].
    - specialize (HG m Hm Hc (Hfull m r Hm Hc Hr)).
      unfold cell in HG. now rewrite Hv in HG.
    - rewrite Q2 in Hv; [now rewrite Hraw in Hv|].
      intros m' Hm' Hc' E. apply normalized_name_inj in E. congruence.
    - rewrite Q2 in Hv; [now rewrite Hraw in Hv|].
      intros m' Hm' Hc' E. apply normalized_name_inj in E. congruence. }
  split; [exact Hrow|].
  now apply calculate_weighted_score_in01.
Qed.
End NormalizeData.

Lemma complete_table_is_raw (r : Row) (m : string) :
  In r Tables.complete_table ->
  Dict.get ("normalized_" ++ m) (cols r) = None.
Proof. intros [<-|[<-|[]]]; reflexivity. Qed.

Lemma complete_table_is_complete (m : string) (r : Row) :
  In m (REQUIRED_METRICS ++ OPTIONAL_METRICS)%list ->
  DataProcessor.has_column m Tables.complete_table = true ->
  In r Tables.complete_table ->
  exists r0, In r0 Tables.complete_table
             /\ protein_name r0 = protein_name r
             /\ notna (DataProcessor.cell m r0) = true.
Proof.
  intros Hm Hc Hr. exists r. split; [assumption|]. split; [reflexivity|].
  simpl in Hm.
  repeat (destruct Hm as [<-|Hm];
          [ first [ discriminate Hc
                  | destruct Hr as [<-|[<-|[]]]; reflexivity ] |]).
  contradiction.
Qed.

Lemma no_weights_nonneg : weights_nonneg [].
Proof. intros m w H. discriminate H. Qed.

Example normalize_complete_table :
  DataProcessor.normalize_data Tables.complete_table "min-max"
  = [Samples.good_pose_normalized; Tables.second_good_pose_normalized].
Proof. run. reflexivity. Qed.

Lemma normalized_table_scores_witness :
  normalized_in01 Samples.good_pose_normalized
  /\ in01 (MetricsProcessor.calculate_weighted_score
             Samples.good_pose_normalized DOCKING_METRICS []).
Proof.
  apply (normalized_table_scores Tables.complete_table "min-max" []
           complete_table_is_raw complete_table_is_complete no_weights_nonneg).
  rewrite normalize_complete_table. now left.
Defined.

(** ** The outcome of the conformation ranking, absent scores included *)

Lemma foldM_raise {A S : Type} (f : S -> A -> result S) (l : list A) (s : S)
    (e : exn) :
  foldM f l s = Raise e -> exists x s', In x l /\ f s' x = Raise e.
Proof.
  revert s. induction l as [|x l IH]; intros s; simpl; [discriminate|].
  destruct (f s x) as [s'|e'] eqn:Ex; simpl.
  - intros H. destruct (IH _ H) as (y & s'' & Hy & Ey). exists y, s''. auto.
  - intros H. inversion H. subst. exists x, s. auto.
Qed.

Section RankingOutcome.
Variable config : Config.t.
Variable selected_metrics : list string.
Variable weights : Dict.t string R.

Let docking_weight := py_or (Config.get config "scoring" "docking_weight") (4 / 10).
Let energy_weight := py_or (Config.get config "scoring" "energy_weight") (4 / 10).

Lemma score_pair_raise (D : Scorer.Pairs) (r : Row) (e : exn) :
  Scorer.score_pair selected_metrics weights docking_weight energy_weight
    (py_or (Config.get config "scoring" "optional_weight") (2 / 10)) D r
  = Raise e ->
  scoring config selected_metrics weights r = Raise e.
Proof.
  unfold Scorer.score_pair, scoring. fold docking_weight energy_weight.
  destruct (MetricsProcessor.calculate_composite_score _ _ _ _ _ _)
    as [[[t d] e']|e']; simpl; [discriminate | intros H; now inversion H].
Qed.

Lemma scoring_raise_any_row (r r' : Row) (e : exn) :
  scoring config selected_metrics weights r = Raise e ->
  scoring config selected_metrics weights r' = Raise e.
Proof.
  unfold scoring. intros H. apply composite_score_raise_iff in H.
  now apply composite_score_raise_iff.
Qed.

Lemma best_of_nonempty (c : conf_id) (proteins : Dict.t string Scorer.Scores) :
  proteins <> [] ->
  exists e, Ranker.best_of (c, proteins) = Ok e /\ Ranker.conf e = c.
Proof.
  destruct proteins as [|x l]; [contradiction|]. intros _.
  unfold Ranker.best_of, Dict.items. simpl. eexists. split; reflexivity.
Qed.

Lemma rank_conformations_result (data : list Row) :
  match Ranker.rank_conformations config data selected_metrics weights with
  | Ok ranking =>
      Permutation (map Ranker.conf ranking)
        (get_unique_conformations (Some data))
  | Raise e =>
      e = ZeroDivisionError
      /\ data <> []
      /\ MetricsProcessor.optional_of selected_metrics = []
      /\ py_or (Config.get config "scoring" "docking_weight") (4 / 10)
         + py_or (Config.get config "scoring" "energy_weight") (4 / 10) = 0
  end.
Proof.
  destruct data as [|r0 data']; [constructor|].
  set (data := r0 :: data').
  destruct (scoring config selected_metrics weights r0) as [s0|e0] eqn:E0.
  - assert (Hok : forall r, In r data ->
              exists s, scoring config selected_metrics weights r = Ok s).
    { intros r _.
      destruct (scoring config selected_metrics weights r) as [s|e] eqn:E;
        [now exists s|].
      rewrite (scoring_raise_any_row r r0 e E) in E0. discriminate. }
    rewrite rank_conformations_eq, (pairs_of_table _ _ _ _ Hok). cbn [bind].
    unfold Dict.items.
    set (P := fun (x : conf_id * Dict.t string Scorer.Scores)
                  (e : Ranker.ConfEntry) => Ranker.conf e = fst x).
    assert (HP : forall x,
              In x (map (fun c => (c, map (fun r => (protein_name r,
                                  scores_of config selected_metrics weights r))
                                 (candidates c data)))
                     (unique (map identity data))) ->
              exists y, Ranker.best_of x = Ok y /\ P x y).
    { intros x Hx. apply in_map_iff in Hx. destruct Hx as (c & <- & Hc).
      apply (proj1 (in_unique _ _)) in Hc. apply best_of_nonempty.
      intros E. apply map_eq_nil in E. revert E.
      now apply candidates_nonempty. }
    destruct (mapM_ok Ranker.best_of P _ HP) as (ys & Eys & Fys).
    rewrite Eys. cbn [bind].
    rewrite (Permutation_map Ranker.conf (sort_by_perm flt Ranker.total_score ys)).
    unfold get_unique_conformations.
    assert (E : map Ranker.conf ys = unique (map identity data)).
    { clear Eys HP. revert Fys. generalize (unique (map identity data)).
      intros U. revert ys. induction U as [|c U IH]; intros ys F;
        inversion F; subst; simpl; [reflexivity|].
      f_equal; [|now apply IH]. assumption. }
    now rewrite E.
  - assert (Er : Ranker.rank_conformations config data selected_metrics weights
                 = Raise e0).
    { rewrite rank_conformations_eq.
      unfold Scorer.score_conformation_protein_pairs, data. cbn [foldM].
      fold docking_weight energy_weight.
      unfold Scorer.score_pair. fold (identity r0).
      unfold scoring in E0. fold docking_weight energy_weight in E0.
      rewrite E0. reflexivity. }
    rewrite Er. unfold scoring in E0. apply composite_score_raise_iff in E0.
    destruct E0 as (-> & Ho & Hw).
    repeat split; [discriminate | assumption | assumption].
Qed.

(** X18: whatever the rows hold, absent scores included, [rank_conformations]
    either returns a ranking with exactly one entry per distinct identity of
    the table, or raises ZeroDivisionError, which it does only for a
    non-empty table when no optional metric is selected and the docking and
    energy weights in use add up to zero; it never fails for lack of a
    candidate. *)
Theorem rank_conformations_outcome (data : list Row) :
  match Ranker.rank_conformations config data selected_metrics weights with
  | Ok ranking =>
      Permutation (map Ranker.conf ranking)
        (get_unique_conformations (Some data))
  | Raise e =>
      e = ZeroDivisionError
      /\ data <> []
      /\ MetricsProcessor.optional_of selected_metrics = []
      /\ py_or (Config.get config "scoring" "docking_weight") (4 / 10)
         + py_or (Config.get config "scoring" "energy_weight") (4 / 10) = 0
  end.
Proof. exact (rank_conformations_result data). Qed.
End RankingOutcome.

(** ** The queries of the reader *)

Section ReaderQueries.

Lemma count_in_other (A : Type) (f : A -> string) (x : A) (l : list A)
    (U : list string) :
  ~ In (f x) U ->
  map (fun p => List.length (filter (fun r => String.eqb (f r) p) (x :: l))) U
  = map (fun p => List.length (filter (fun r => String.eqb (f r) p) l)) U.
Proof.
  intros Hn. apply map_ext_in. intros p Hp. cbn [filter].
  destruct (String.eqb (f x) p) eqn:E; [|reflexivity].
  apply String.eqb_eq in E. subst p. contradiction.
Qed.

Lemma list_sum_cons (a : nat) (l : list nat) :
  list_sum (a :: l) = (a + list_sum l)%nat.
Proof. reflexivity. Qed.

Lemma count_in_group (A : Type) (f : A -> string) (x : A) (l : list A)
    (U : list string) :
  NoDup U -> In (f x) U ->
  list_sum (map (fun p => List.length (filter (fun r => String.eqb (f r) p)
                                         (x :: l))) U)
  = S (list_sum (map (fun p => List.length (filter (fun r => String.eqb (f r) p)
                                              l)) U)).
Proof.
  induction U as [|p U IH]; intros Hnd Hin; [contradiction|].
  inversion Hnd as [|? ? Hp Hnd']; subst.
  rewrite !map_cons, !list_sum_cons. destruct (string_dec (f x) p) as [E|E].
  - subst p. rewrite count_in_other by assumption.
    cbn [filter]. rewrite String.eqb_refl. simpl. lia.
  - destruct Hin as [Hin|Hin]; [congruence|].
    rewrite IH by assumption. cbn [filter].
    rewrite (proj2 (String.eqb_neq (f x) p)) by assumption. lia.
Qed.

Lemma groups_cover (A : Type) (f : A -> string) (l : list A) (U : list string) :
  NoDup U -> (forall x, In x l -> In (f x) U) ->
  list_sum (map (fun p => List.length (filter (fun r => String.eqb (f r) p) l)) U)
  = List.length l.
Proof.
  intros Hnd. induction l as [|x l IH]; intros Hin.
  - cbn [filter List.length]. clear. induction U as [|p U IHU]; [reflexivity|].
    exact IHU.
  - rewrite count_in_group; [|assumption|apply Hin; now left].
    simpl. f_equal. apply IH. intros y Hy. apply Hin. now right.
Qed.

(** X29: the three queries of the reader agree with one another: no protein name
    and no identity is listed twice; [get_data_for_protein] answers [None]
    exactly for the names that [get_protein_names] does not list, and
    otherwise the rows of that protein; and the tables of the listed
    proteins together have as many rows as the whole table. *)
Theorem reader_queries_agree (data : DataProcessor.DataFrame) :
  NoDup (get_protein_names (Some data))
  /\ NoDup (get_unique_conformations (Some data))
  /\ (forall p, get_data_for_protein (Some data) p = None
                <-> ~ In p (get_protein_names (Some data)))
  /\ (forall p rows r, get_data_for_protein (Some data) p = Some rows ->
        (In r rows <-> In r data /\ protein_name r = p))
  /\ list_sum (map (fun p => match get_data_for_protein (Some data) p with
                             | Some rows => List.length rows
                             | None => 0%nat
                             end) (get_protein_names (Some data)))
     = List.length data.
Proof.
  unfold get_protein_names, get_unique_conformations, get_data_for_protein.
  split; [apply NoDup_unique|]. split; [apply NoDup_unique|].
  split; [|split].
  - intros p. rewrite in_unique, in_map_iff. split.
    + intros H (r & Hr & Hin).
      assert (Hf : In r (filter (fun r => String.eqb (protein_name r) p) data)).
      { apply filter_In. split; [assumption | now apply String.eqb_eq]. }
      destruct (filter _ data); [contradiction | discriminate].
    + intros H.
      destruct (filter (fun r => String.eqb (protein_name r) p) data)
        as [|r l] eqn:E; [reflexivity|].
      exfalso. apply H. exists r.
      assert (Hf : In r (filter (fun r => String.eqb (protein_name r) p) data))
        by (rewrite E; now left).
      apply filter_In in Hf. destruct Hf as [Hin Hp].
      apply String.eqb_eq in Hp. auto.
  - intros p rows r H.
    assert (E : rows = filter (fun r => String.eqb (protein_name r) p) data).
    { destruct (filter _ data); [discriminate | now inversion H]. }
    rewrite E, filter_In, String.eqb_eq. reflexivity.
  - rewrite <- (groups_cover Row protein_name data (unique (map protein_name data)));
      [|apply NoDup_unique|intros x Hx; apply in_unique; now apply in_map].
    f_equal. apply map_ext. intros p.
    now destruct (filter (fun r => String.eqb (protein_name r) p) data).
Qed.
End ReaderQueries.

(** ** The columns of the conformation sheet (write_conformation_ranking) *)

Section SheetColumns.

Let catalogue : list string :=
  (BASE_COLUMNS ++ REQUIRED_METRICS ++ OPTIONAL_METRICS)%list.

Lemma add_metric_column_keeps (columns : list string) (metric : string) :
  NoDup columns /\ incl columns catalogue
  /\ firstn 6 columns = BASE_COLUMNS ->
  NoDup (add_metric_column columns metric)
  /\ incl (add_metric_column columns metric) catalogue
  /\ firstn 6 (add_metric_column columns metric) = BASE_COLUMNS.
Proof.
  intros (Hnd & Hi & Hb). unfold add_metric_column, add_column.
  destruct (str_in metric REQUIRED_METRICS || str_in metric OPTIONAL_METRICS)%bool
    eqn:E; [|auto].
  destruct (str_in metric columns) eqn:Ec; [auto|].
  split; [|split].
  - apply NoDup_app; [assumption | repeat constructor; intros [] |].
    intros x Hx [<-|[]]. apply str_in_In in Hx. congruence.
  - apply incl_app; [assumption|]. intros x [<-|[]]. unfold catalogue.
    apply in_or_app. right. apply in_or_app.
    apply orb_true_iff in E. destruct E as [E|E]; apply str_in_In in E; auto.
  - assert (Hl : (6 <= List.length columns)%nat).
    { assert (H6 : List.length (firstn 6 columns) = 6%nat)
        by (rewrite Hb; reflexivity).
      rewrite length_firstn in H6. lia. }
    now rewrite firstn_app, (proj2 (Nat.sub_0_le 6 (List.length columns)) Hl),
      app_nil_r.
Qed.

(** X30: the conformation sheet starts with its six fixed columns, has no column
    twice and at most 19 columns in all, whatever metrics are selected and
    however often: so the key [chr(65 + i)] under which the width of the
    [i]-th column is set is always one of the letters A to S. *)
Theorem conformation_sheet_columns_bound (selected_metrics : list string) :
  firstn 6 (conformation_sheet_columns selected_metrics) = BASE_COLUMNS
  /\ NoDup (conformation_sheet_columns selected_metrics)
  /\ (List.length (conformation_sheet_columns selected_metrics) <= 19)%nat
  /\ forall i,
       (i < List.length (conformation_sheet_columns selected_metrics))%nat ->
       (65 <= column_letter i <= 83)%Z.
Proof.
  assert (H : NoDup (conformation_sheet_columns selected_metrics)
              /\ incl (conformation_sheet_columns selected_metrics) catalogue
              /\ firstn 6 (conformation_sheet_columns selected_metrics)
                 = BASE_COLUMNS).
  { unfold conformation_sheet_columns.
    apply (fold_left_preserves add_metric_column
             (fun columns => NoDup columns /\ incl columns catalogue
                             /\ firstn 6 columns = BASE_COLUMNS)
             selected_metrics).
    - intros s y _ Hs. now apply add_metric_column_keeps.
    - apply incl_refl.
    - split; [|split].
      + unfold BASE_COLUMNS. repeat constructor; simpl; intuition discriminate.
      + unfold catalogue. apply incl_appl, incl_refl.
      + reflexivity. }
  destruct H as (Hnd & Hi & Hb).
  assert (Hl : (List.length (conformation_sheet_columns selected_metrics) <= 19)%nat)
    by exact (NoDup_incl_length Hnd Hi).
  split; [exact Hb|]. split; [exact Hnd|]. split; [exact Hl|].
  intros i Hi'. unfold column_letter. lia.
Qed.
End SheetColumns.

Example sheet_of_sample :
  conformation_sheet_columns
    ["r_i_glide_hbond"; "r_i_docking_score"; "glide_lipo"; "r_i_glide_hbond"]
  = (BASE_COLUMNS ++ ["r_i_glide_hbond"; "r_i_docking_score"])%list.
Proof. reflexivity. Qed.

(** ** Weights count in proportion only *)

Section WeightScale.
Import MetricsProcessor.

Variable row : Row.
Variables weights weights' : Dict.t string R.
Variable k : R.
Hypothesis k_nonzero : k <> 0.



End WeightScale.


(** ** The means of the protein ranking *)

Section ProteinMeans.
Import Ranker.

Lemma fsum_in_range (l : list fval) :
  Forall in01 l ->
  exists s, fsum l = Some s /\ 0 <= s <= INR (List.length l).
Proof.
  induction 1 as [|v l (x & -> & Hx) _ (s & Es & Hs)].
  - exists 0. simpl. split; [reflexivity | lra].
  - exists (x + s). change (fsum (Some x :: l)) with (fadd (Some x) (fsum l)).
    rewrite Es. split; [reflexivity|].
    change (List.length (Some x :: l)) with (S (List.length l)).
    rewrite S_INR. lra.
Qed.

Lemma np_mean_in01 (l : list fval) :
  l <> [] -> Forall in01 l -> in01 (np_mean l).
Proof.
  intros Hne Hl. destruct (fsum_in_range l Hl) as (s & Es & Hs).
  unfold np_mean. destruct l as [|v l]; [contradiction|].
  rewrite Es. simpl fdiv. eexists. split; [reflexivity|].
  assert (Hn : 0 < INR (List.length (v :: l))) by (apply lt_0_INR; simpl; lia).
  split.
  - apply Rmult_le_pos; [lra|]. left. now apply Rinv_0_lt_compat.
  - apply Rmult_le_reg_r with (INR (List.length (v :: l))); [assumption|].
    unfold Rdiv. rewrite Rmult_assoc, Rinv_l by lra. lra.
Qed.

(** X20: when the three scores of every conformation entry are numbers of [0,1],
    so are the three means of every entry of the protein ranking. *)
Theorem protein_means_in_range (entries : list ConfEntry) :
  Forall (fun e => in01 (total_score e) /\ in01 (docking_score e)
                   /\ in01 (energy_score e)) entries ->
  Forall (fun p => in01 (avg_total_score p) /\ in01 (avg_docking_score p)
                   /\ in01 (avg_energy_score p)) (rank_proteins entries).
Proof.
  intros H. rewrite rank_proteins_eq. apply Forall_forall. intros p Hp.
  apply in_sort_by in Hp. apply in_map_iff in Hp. destruct Hp as (q & <- & Hq).
  apply (proj1 (in_unique _ _)) in Hq.
  pose proof (won_nonempty _ _ Hq) as Hw.
  assert (Hin : forall e, In e (won q entries) ->
            in01 (total_score e) /\ in01 (docking_score e)
            /\ in01 (energy_score e)).
  { intros e He. unfold won in He. apply filter_In in He.
    rewrite Forall_forall in H. now apply H. }
  cbn [entry_of avg_total_score avg_docking_score avg_energy_score].
  repeat split; apply np_mean_in01;
    try (intros E; apply map_eq_nil in E; contradiction);
    apply Forall_map, Forall_forall; intros e He; now apply Hin.
Qed.
End ProteinMeans.

Lemma protein_means_in_range_witness :
  Forall (fun p => in01 (Ranker.avg_total_score p)
                   /\ in01 (Ranker.avg_docking_score p)
                   /\ in01 (Ranker.avg_energy_score p))
         (Ranker.rank_proteins Samples.conformation_ranking).
Proof.
  apply (protein_means_in_range Samples.conformation_ranking).
  repeat constructor; simpl; eexists; (split; [reflexivity | lra]).
Defined.

(** ** The values of the normalised table *)

Section NormalizedValues.
Import DataProcessor.


Variable data : DataFrame.
Variable method : string.

Let MS : list string := (REQUIRED_METRICS ++ OPTIONAL_METRICS)%list.















End NormalizedValues.

(** ** From the failure sentinel to the worst normalised value *)


Section FailedDocking.
Import DataProcessor Helpers.

Variable data : DataFrame.
Hypothesis data_uniform : uniform data.

Let scrubbed (r r1 : Row) : Prop :=
  same_labels r r1
  /\ Dict.keys (cols r1) = Dict.keys (cols r)
  /\ forall c, cell c r1
               = if (str_in c DOCKING_METRICS
                     && feq (cell c r) (Some 10000))%bool
                 then NaN else cell c r.

Lemma preprocess_data_rows : Forall2 scrubbed data (preprocess_data data).
Proof.
  rewrite preprocess_data_map by assumption. clear data_uniform.
  induction data as [|r l IH]; cbn [map]; constructor; [|exact IH].
  destruct (scrub_labels 10000 DOCKING_METRICS r) as [H1 H2].
  split; [exact H1|]. split; [exact H2|]. intros c. apply scrub_cells.
Qed.



End FailedDocking.

Lemma uniform_raw_table_of_two : uniform Tables.raw_table_of_two.
Proof. intros r r' [<-|[<-|[]]] [<-|[<-|[]]]; reflexivity. Qed.


(** The failed docking gets 1.0, the other conformation of the protein,
    alone with a value, 0.0. *)
Example preprocess_raw_table_of_two :
  preprocess_data Tables.raw_table_of_two
  = [Samples.failed_pose; Tables.other_conformation].
Proof. run. reflexivity. Qed.

Example normalized_docking_of_raw_table :
  map (DataProcessor.cell "normalized_r_i_docking_score")
    (DataProcessor.normalize_data
       (preprocess_data Tables.raw_table_of_two) "min-max")
  = [Some 1; Some 0].
Proof. rewrite preprocess_raw_table_of_two. run. reflexivity. Qed.

(** ** The whole run *)

Lemma identities_of_labels (l l' : list Row) :
  Forall2 same_labels l l' -> map identity l' = map identity l.
Proof.
  induction 1 as [|r r' l l' (Ht & Hl & _) _ IH]; [reflexivity|].
  simpl. unfold identity at 1 3. now rewrite Ht, Hl, IH.
Qed.

Lemma wins_add_up (entries : list Ranker.ConfEntry) :
  list_sum (map Ranker.best_count (Ranker.rank_proteins entries))
  = List.length entries.
Proof.
  unfold Ranker.rank_proteins. destruct entries as [|c entries]; [reflexivity|].
  rewrite (list_sum_perm _ _
             (Permutation_map Ranker.best_count
                (sort_by_perm Ranker.key_lt Ranker.protein_key _))).
  unfold Dict.items. rewrite map_map.
  replace (map (fun x => Ranker.best_count (Ranker.average x))
             (Ranker.protein_stats_of (c :: entries)))
    with (map (fun x : string * Ranker.Stats.t => Ranker.Stats.best_count (snd x))
            (Ranker.protein_stats_of (c :: entries)))
    by (apply map_ext; intros [p s]; reflexivity).
  unfold Ranker.protein_stats_of. now rewrite sum_counts.
Qed.

Section WholeRun.

(** X27: with the category weights that [update_scoring_weights] stores for
    spin-box values in their ranges, ranking never raises: for every table,
    selection and metric weights it returns one entry per identity. *)
Theorem ranking_after_weight_update (config : Config.t)
    (docking_weight energy_weight optional_weight : R) :
  1 / 10 <= docking_weight <= 1 ->
  1 / 10 <= energy_weight <= 1 ->
  0 <= optional_weight <= 1 ->
  exists config',
    update_scoring_weights config docking_weight energy_weight optional_weight
    = Ok config'
    /\ forall data selected_metrics weights,
         exists ranking,
           Ranker.rank_conformations config' data selected_metrics weights
           = Ok ranking
           /\ Permutation (map Ranker.conf ranking)
                (get_unique_conformations (Some data)).
Proof.
  intros Hd He Ho.
  destruct (update_scoring_weights_result config docking_weight energy_weight
              optional_weight Hd He Ho)
    as (config' & dw & ew & ow & E & _ & _ & _ & Hdw & Hew & _ & _ & _ & _
        & Pd & Pe & _).
  exists config'. split; [exact E|]. intros data selected_metrics weights.
  pose proof (rank_conformations_result config' selected_metrics weights data)
    as H.
  destruct (Ranker.rank_conformations config' data selected_metrics weights)
    as [ranking|e].
  - exists ranking. split; [reflexivity | exact H].
  - destruct H as (_ & _ & _ & Hsum). rewrite Pd, Pe in Hsum. lra.
Qed.

Lemma ranking_after_weight_update_witness :
  exists config',
    update_scoring_weights Config.DEFAULT_CONFIG (1 / 2) (1 / 2) 0 = Ok config'
    /\ forall data selected_metrics weights,
         exists ranking,
           Ranker.rank_conformations config' data selected_metrics weights
           = Ok ranking
           /\ Permutation (map Ranker.conf ranking)
                (get_unique_conformations (Some data)).
Proof.
  apply (ranking_after_weight_update Config.DEFAULT_CONFIG (1 / 2) (1 / 2) 0);
    lra.
Defined.

(** X28: A run from the command line does not raise in the scoring: for every
    table, whatever metrics are named and whatever a cell holds, it returns
    a conformation ranking with one entry per identity of the table that
    was read, and a protein ranking whose win counts add up to the number
    of identities. *)
Theorem run_cli_rankings_outcome (args_metrics : list string)
    (weights : Dict.t string R) (normalization_method : string)
    (data : DataProcessor.DataFrame) :
  uniform data ->
  exists conformation_ranking protein_ranking,
    run_cli_rankings args_metrics weights normalization_method data
    = Ok (conformation_ranking, protein_ranking)
    /\ Permutation (map Ranker.conf conformation_ranking)
         (get_unique_conformations (Some data))
    /\ list_sum (map Ranker.best_count protein_ranking)
       = List.length (get_unique_conformations (Some data)).
Proof.
  intros Hu. unfold run_cli_rankings.
  set (normalized := DataProcessor.normalize_data (preprocess_data data)
                       normalization_method).
  assert (Hid : map identity normalized = map identity data).
  { apply identities_of_labels.
    eapply Forall2_compose;
      [ | exact (preprocess_data_rows data Hu)
        | exact (normalize_data_normalized (preprocess_data data)
                   normalization_method) ].
    intros a b c ((T1 & L1 & P1) & _) ((T2 & L2 & P2) & _).
    unfold same_labels. rewrite T2, L2, P2. auto. }
  pose proof (rank_conformations_result Config.DEFAULT_CONFIG
                (cli_selected_metrics args_metrics) weights normalized) as H.
  destruct (Ranker.rank_conformations Config.DEFAULT_CONFIG normalized
              (cli_selected_metrics args_metrics) weights) as [ranking|e].
  - cbn [bind]. exists ranking, (Ranker.rank_proteins ranking).
    unfold get_unique_conformations in *. rewrite Hid in H.
    split; [reflexivity|]. split; [exact H|].
    rewrite wins_add_up, <- (Permutation_length H). symmetry. apply length_map.
  - exfalso. destruct H as (_ & _ & _ & Hsum).
    cbv -[Rplus Rmult Rdiv Rminus Ropp Rinv IZR Reqb] in Hsum.
    rewrite (proj2 (Reqb_neq (4 / 10) 0)) in Hsum by lra. lra.
Qed.

Lemma run_cli_rankings_outcome_witness :
  exists conformation_ranking protein_ranking,
    run_cli_rankings ["r_i_glide_lipo"] [] "min-max" Tables.raw_table_of_two
    = Ok (conformation_ranking, protein_ranking)
    /\ Permutation (map Ranker.conf conformation_ranking)
         (get_unique_conformations (Some Tables.raw_table_of_two))
    /\ list_sum (map Ranker.best_count protein_ranking)
       = List.length (get_unique_conformations (Some Tables.raw_table_of_two)).
Proof.
  exact (run_cli_rankings_outcome ["r_i_glide_lipo"] [] "min-max"
           Tables.raw_table_of_two uniform_raw_table_of_two).
Defined.
End WholeRun.

(** ** Min-max normalisation does not depend on the unit *)

Section AffineInvariance.
Import DataProcessor.

Variables a b : R.
Hypothesis a_positive : 0 < a.

Let f (x : R) : R := a * x + b.






End AffineInvariance.

